(** * dtdash: the multi-tenant DQL merger of [src/multi-tenant.ts]

    A shallow embedding of the pure part of the dashboard code tile
    (normalize, inferTypesFromRecord, globalTimeframe, mergeMultiTenant and
    the grouping-clause rewrite addTenantToBy) together with the fragment of
    the JavaScript run time these functions rely on.  The repository holds
    near-duplicate copies of the tile; the embedding follows the copy at the
    head of [src/multi-tenant.ts] (its lines 1 to 232).

    Modelling conventions.
    - A JavaScript value is a [value]; numbers are IEEE binary64 floats
      (Rocq's primitive [float]), objects are finite maps from property names
      to values ([gmap string value]; property order is not observable by any
      function below), arrays carry their elements and, since an array is an
      object, the named properties that were assigned to it.
    - Strings are sequences of code units below 256.
    - The module is an ES module, hence strict: assigning a property to a
      primitive throws a TypeError.  Exceptions are the [Throw] results of
      the [result] monad.
    - Conversions between strings and numbers and Date.parse belong to the
      host; they are the fields of the [Host] interface.
    - [String(v)] and [Number(v)] throw a TypeError on an object that has a
      property [toString] of its own, since no value of a JSON document is
      callable; [convertible] is the domain of the two conversions. *)

From Stdlib Require Import Floats ZArith Ascii.
From stdpp Require Import gmap strings list fin_maps pretty.

Set Default Proof Using "Type".

(** ** JavaScript values and the run time *)

Module JS.

#[warnings="-register-all"]
Inductive value : Type :=
| VUndefined
| VNull
| VBool (b : bool)
| VNum (n : float)
| VStr (s : string)
| VArr (l : list value) (extra : gmap string value)
| VObj (o : gmap string value).

Inductive error : Type := TypeError | RangeError | SyntaxError.

Inductive result (A : Type) : Type :=
| Ok (a : A)
| Throw (e : error).
Arguments Ok {A} a.
Arguments Throw {A} e.

#[export] Instance result_ret : MRet result := λ A a, Ok a.
#[export] Instance result_bind : MBind result :=
  λ A B f r, match r with Ok a => f a | Throw e => Throw e end.

(** A loop over a sequence that threads a state and stops at the first
    exception: [for (const a of l)], [l.forEach], [l.reduce]. *)
Fixpoint foldM {A B : Type} (f : B → A → result B) (l : list A) (b : B)
  : result B :=
  match l with
  | [] => mret b
  | a :: l => b' ← f b a; foldM f l b'
  end.

(** The host's built-ins that the tile calls and that are not modelled:
    [Number(s)] on a string, [String(n)] on a number and [Date.parse]. *)
Class Host : Type := {
  StringToNumber : string → float;
  NumberToString : float → string;
  Date_parse : string → float;
}.

(** An array literal. *)
Definition arr (l : list value) : value := VArr l ∅.

(** The number of elements of an array, as a number. *)
Definition num_of_nat (n : nat) : float :=
  PrimFloat.of_uint63 (Uint63.of_Z (Z.of_nat n)).

(** ToBoolean. *)
Definition ToBoolean (v : value) : bool :=
  match v with
  | VUndefined | VNull => false
  | VBool b => b
  | VNum n => negb (PrimFloat.eqb n 0 || PrimFloat.is_nan n)
  | VStr s => negb (String.eqb s "")
  | VArr _ _ | VObj _ => true
  end.

Definition is_nullish (v : value) : bool :=
  match v with VUndefined | VNull => true | _ => false end.

(** [a || b] and [a ?? b]. *)
Definition or_else (a b : value) : value := if ToBoolean a then a else b.
Definition nullish_else (a b : value) : value := if is_nullish a then b else a.

(** [v?.k] for a property name [k] that is neither an index nor a built-in
    of a prototype (every name the tile reads is such a name): [undefined]
    on null, undefined and primitives. *)
Definition get (v : value) (k : string) : value :=
  match v with
  | VObj o => default VUndefined (o !! k)
  | VArr _ extra => default VUndefined (extra !! k)
  | _ => VUndefined
  end.

(** [v.k]: as [get], but reading a property of null or undefined throws. *)
Definition getT (v : value) (k : string) : result value :=
  if is_nullish v then Throw TypeError else Ok (get v k).

(** [o.k = x] in strict mode, returning the updated object. *)
Definition setT (o : value) (k : string) (x : value) : result value :=
  match o with
  | VObj m => Ok (VObj (<[k := x]> m))
  | VArr l extra => Ok (VArr l (<[k := x]> extra))
  | _ => Throw TypeError
  end.

(** [k in v] for an object or array [v] and a non-index name [k]. *)
Definition has_prop (k : string) (v : value) : bool :=
  match v with
  | VObj o => bool_decide (is_Some (o !! k))
  | VArr _ extra => bool_decide (is_Some (extra !! k))
  | _ => false
  end.

(** The own enumerable properties of a value, as the spread [{...v}] copies
    them: the entries of an object, the indexed elements of an array and its
    named properties, the indexed code units of a string, nothing otherwise. *)
Definition indexed (l : list value) : gmap string value :=
  list_to_map (imap (λ i x, (pretty i, x)) l).

Definition code_units (s : string) : list value :=
  (λ c, VStr (String c "")) <$> String.list_ascii_of_string s.

Definition ownProps (v : value) : gmap string value :=
  match v with
  | VObj o => o
  | VArr l extra => indexed l ∪ extra
  | VStr s => indexed (code_units s)
  | _ => ∅
  end.

(** [Number.isFinite]. *)
Definition isFinite (n : float) : bool :=
  negb (PrimFloat.is_nan n || PrimFloat.is_infinity n).

Definition is_neg_zero (n : float) : bool :=
  match PrimFloat.classify n with NZero => true | _ => false end.

(** [Math.min] and [Math.max] of two numbers. *)
Definition Math_min (a b : float) : float :=
  if PrimFloat.is_nan a || PrimFloat.is_nan b then nan
  else if PrimFloat.ltb a b then a
  else if PrimFloat.ltb b a then b
  else if is_neg_zero a then a else b.

Definition Math_max (a b : float) : float :=
  if PrimFloat.is_nan a || PrimFloat.is_nan b then nan
  else if PrimFloat.ltb a b then b
  else if PrimFloat.ltb b a then a
  else if is_neg_zero a then b else a.

(** ToPrimitive on an object or array calls its methods [valueOf] and
    [toString].  The inherited [valueOf] returns the object itself, and a
    property [valueOf] or [toString] of its own is a JSON value, which is
    not callable; so the conversion goes through the inherited [toString]
    and throws a TypeError when a property [toString] of the object's own
    hides it.  The inherited [toString] of an array is [join], which
    converts the elements other than null and undefined in turn, unless a
    property [join] of the array's own hides that.  [convertible v] says
    that [String(v)] and [Number(v)] return. *)
Fixpoint convertible (v : value) : bool :=
  match v with
  | VObj o => negb (bool_decide (is_Some (o !! "toString")))
  | VArr l extra =>
      negb (bool_decide (is_Some (extra !! "toString")))
      && (bool_decide (is_Some (extra !! "join")) || forallb convertible l)
  | _ => true
  end.

Section WithHost.
Context `{Host}.

(** The string that ToString yields ([String(v)], template literals,
    Array.prototype.join) on a convertible value. *)
Fixpoint StringOf (v : value) : string :=
  match v with
  | VUndefined => "undefined"
  | VNull => "null"
  | VBool true => "true"
  | VBool false => "false"
  | VNum n => NumberToString n
  | VStr s => s
  | VArr l extra =>
      if bool_decide (is_Some (extra !! "join")) then "[object Array]"
      else String.concat ","
             (map (λ x, if is_nullish x then "" else StringOf x) l)
  | VObj _ => "[object Object]"
  end.

(** The number that ToNumber yields ([Number(v)]) on a convertible value; a
    plain object converts to NaN, an array through its string. *)
Definition NumberOf (v : value) : float :=
  match v with
  | VUndefined => nan
  | VNull => 0
  | VBool true => 1
  | VBool false => 0
  | VNum n => n
  | VStr s => StringToNumber s
  | VArr _ _ => StringToNumber (StringOf v)
  | VObj _ => nan
  end.

(** [String(v)] and [Number(v)]. *)
Definition ToString (v : value) : result string :=
  if convertible v then Ok (StringOf v) else Throw TypeError.

Definition ToNumber (v : value) : result float :=
  if convertible v then Ok (NumberOf v) else Throw TypeError.

End WithHost.

(** JSON.parse(JSON.stringify(v)).  [jsonClone] is the value that
    re-parsing the serialisation yields, [None] where the serialiser omits
    the value (undefined): an omitted array element becomes null, an omitted
    property disappears, non-finite numbers become null, -0 becomes 0 and the
    named properties of an array are dropped. *)
Fixpoint jsonClone (v : value) : option value :=
  match v with
  | VUndefined => None
  | VNull => Some VNull
  | VBool b => Some (VBool b)
  | VNum n =>
      Some (if isFinite n then (if PrimFloat.eqb n 0 then VNum 0 else VNum n)
            else VNull)
  | VStr s => Some (VStr s)
  | VArr l _ => Some (arr (map (λ x, default VNull (jsonClone x)) l))
  | VObj o => Some (VObj (omap jsonClone o))
  end.

(** *** Dates: [new Date(ms).toISOString()]

    ECMA-262's time arithmetic on integers: a time value is a number of
    milliseconds since the epoch, clipped to 8.64e15 in absolute value. *)

(** ToIntegerOrInfinity on a finite number: truncation towards zero. *)
Definition ToIntegerZ (x : float) : Z :=
  match Prim2SF x with
  | S754_finite s m e =>
      let mag := if (0 <=? e)%Z then (Z.pos m * 2 ^ e)%Z
                 else (Z.pos m / 2 ^ (- e))%Z in
      if s then (- mag)%Z else mag
  | _ => 0%Z
  end.

(** TimeClip: [None] is the invalid date. *)
Definition TimeClip (t : float) : option Z :=
  if negb (isFinite t) then None
  else if PrimFloat.ltb 8.64e15 (PrimFloat.abs t) then None
  else Some (ToIntegerZ t).

Definition msPerDay : Z := 86400000.

Definition DayFromYear (y : Z) : Z :=
  (365 * (y - 1970) + (y - 1969) / 4 - (y - 1901) / 100 + (y - 1601) / 400)%Z.

Definition InLeapYear (y : Z) : bool :=
  ((y mod 4 =? 0) && negb (y mod 100 =? 0) || (y mod 400 =? 0))%Z.

(** The largest year whose first day is not after [day]: an estimate from
    the mean length of a year, corrected by at most one. *)
Definition YearFromDay (day : Z) : Z :=
  let y := (1970 + day * 400 / 146097)%Z in
  if (day <? DayFromYear y)%Z then (y - 1)%Z
  else if (DayFromYear (y + 1) <=? day)%Z then (y + 1)%Z
  else y.

(** Month (1 to 12) and day of the month of the day [d] within a year. *)
Definition MonthDate (leap : bool) (d : Z) : Z * Z :=
  let l : Z := (if leap then 1 else 0)%Z in
  (if d <? 31 then (1, d + 1)
   else if d <? 59 + l then (2, d - 30)
   else if d <? 90 + l then (3, d - 58 - l)
   else if d <? 120 + l then (4, d - 89 - l)
   else if d <? 151 + l then (5, d - 119 - l)
   else if d <? 181 + l then (6, d - 150 - l)
   else if d <? 212 + l then (7, d - 180 - l)
   else if d <? 243 + l then (8, d - 211 - l)
   else if d <? 273 + l then (9, d - 242 - l)
   else if d <? 304 + l then (10, d - 272 - l)
   else if d <? 334 + l then (11, d - 303 - l)
   else (12, d - 333 - l))%Z.

Definition digit (n : Z) : Ascii.ascii :=
  Ascii.ascii_of_N (48 + Z.to_N (n mod 10)).

(** The [w] least significant decimal digits of a natural number. *)
Fixpoint pad (w : nat) (n : Z) : string :=
  match w with
  | O => ""
  | S w' => pad w' (n / 10) +:+ String (digit n) ""
  end.

Definition isoYear (y : Z) : string :=
  if ((0 <=? y) && (y <=? 9999))%Z then pad 4 y
  else if (y <? 0)%Z then "-" +:+ pad 6 (- y)
  else "+" +:+ pad 6 y.

(** The ISO-8601 text of a valid time value:
    YYYY-MM-DDTHH:mm:ss.sssZ, the year with a sign and six digits outside
    0..9999. *)
Definition isoFormat (t : Z) : string :=
  let day := (t / msPerDay)%Z in
  let ms := (t mod msPerDay)%Z in
  let y := YearFromDay day in
  let '(mo, d) := MonthDate (InLeapYear y) (day - DayFromYear y) in
  isoYear y +:+ "-" +:+ pad 2 mo +:+ "-" +:+ pad 2 d +:+ "T"
  +:+ pad 2 (ms / 3600000) +:+ ":" +:+ pad 2 (ms / 60000 mod 60) +:+ ":"
  +:+ pad 2 (ms / 1000 mod 60) +:+ "." +:+ pad 3 (ms mod 1000) +:+ "Z".

(** [new Date(ms).toISOString()]: a RangeError on an invalid date. *)
Definition toISOString (ms : float) : result string :=
  match TimeClip ms with
  | Some t => Ok (isoFormat t)
  | None => Throw RangeError
  end.

End JS.

(** ** The tile's functions *)

Module MultiTenant.
Import JS.

(** [{type: t}] *)
Definition typeEntry (t : string) : value := VObj {[ "type" := VStr t ]}.

(** *** utils *)

(** [Array.isArray(v) ? v : v ? [v] : []], as the sequence of its elements. *)
Definition asArray (v : value) : list value :=
  match v with
  | VArr l _ => l
  | _ => if ToBoolean v then [v] else []
  end.

(** [JSON.parse(JSON.stringify(obj))]: serialising undefined yields
    undefined, which JSON.parse rejects. *)
Definition deepClone (obj : value) : result value :=
  match jsonClone obj with
  | Some c => Ok c
  | None => Throw SyntaxError
  end.

Record Response : Type := {
  records : list value;
  types : list value;
  metadata : value;
  metrics : list value;
}.

Definition normalize (json : value) : Response :=
  let r := nullish_else (nullish_else (get json "result") json) (VObj ∅) in
  {| records := asArray (get r "records");
     types := asArray (get r "types");
     metadata := nullish_else (get r "metadata") (VObj ∅);
     metrics := asArray (get r "metrics") |}.

(** [/^\d+$/.test(s)] *)
Definition is_digit (c : Ascii.ascii) : bool :=
  (48 <=? Ascii.N_of_ascii c)%N && (Ascii.N_of_ascii c <=? 57)%N.

Definition all_digits (s : string) : bool :=
  negb (String.eqb s "") && forallb is_digit (String.list_ascii_of_string s).

Definition is_number (v : value) : bool :=
  match v with VNum _ => true | _ => false end.

(** [typeof v === "object"] *)
Definition is_object (v : value) : bool :=
  match v with VNull | VArr _ _ | VObj _ => true | _ => false end.

Section WithHost.
Context `{Host}.

Definition parseTs (s : value) : result float :=
  match s with
  | VStr str => mret (Date_parse str)
  | _ => ToNumber s
  end.

(** The body of the loop of [globalTimeframe]: the state is
    [(minS, maxE)]. *)
Definition scanRecord (acc : float * float) (rec : value)
  : result (float * float) :=
  s ← parseTs (get (get rec "timeframe") "start");
  e ← parseTs (get (get rec "timeframe") "end");
  mret (if isFinite s then Math_min acc.1 s else acc.1,
        if isFinite e then Math_max acc.2 e else acc.2).

Definition globalTimeframe (records : list value) (baseMeta : value)
  : result value :=
  '(minS, maxE) ← foldM scanRecord records (infinity, neg_infinity);
  let grail := nullish_else (get baseMeta "grail") (VObj ∅) in
  analysisTimeframe ←
    (if isFinite minS && isFinite maxE
     then s ← toISOString minS; e ← toISOString maxE;
          mret (VObj {[ "start" := VStr s; "end" := VStr e ]})
     else mret (get grail "analysisTimeframe"));
  mret (VObj (<["grail" :=
                 VObj (<["analysisTimeframe" := analysisTimeframe]>
                         (ownProps grail))]>
                (ownProps baseMeta))).

(** The type entry of an array [v] of elements [l]. *)
Definition arrayEntry (l : list value) : value :=
  let eltType := default VUndefined (find (λ x, negb (is_nullish x)) l) in
  VObj {[ "type" := VStr "array";
          "types" := arr [
            VObj {[ "indexRange" :=
                      arr [VNum 0;
                           VNum (Math_max 0 (num_of_nat (length l) - 1))];
                    "mappings" :=
                      VObj {[ "element" :=
                        typeEntry (if is_number eltType
                                   then "double" else "string") ]} ]} ] ]}.

(** The type entry that [inferTypesFromRecord] gives to the field [k] of
    value [v]: the chain of conditions of the loop body.  [String(v)] is
    evaluated for the field [interval] alone, when it is not a number. *)
Definition inferMapping (k : string) (v : value) : result value :=
  if String.eqb k "timeframe" && ToBoolean v && is_object v
     && has_prop "start" v && has_prop "end" v
  then mret (typeEntry "timeframe")
  else
    duration ←
      (if String.eqb k "interval"
       then if is_number v then mret true
            else s ← ToString v; mret (all_digits s)
       else mret false);
    if duration : bool then mret (typeEntry "duration")
    else mret (match v with
               | VArr l _ => arrayEntry l
               | _ => typeEntry "string"
               end).

(** [mappings[k] = x] on a plain object, for an object [x]: the key
    [__proto__] names the prototype of [mappings], so that the assignment
    adds no entry. *)
Definition assign (mappings : gmap string value) (k : string) (x : value)
  : gmap string value :=
  if String.eqb k "__proto__" then mappings else <[k := x]> mappings.

(** The entries are visited in the order of [Object.entries], which the
    result does not depend on: every entry has a key of its own, and the
    body throws on the field [interval] alone. *)
Definition inferTypesFromRecord (sample : value) : result (list value) :=
  mappings ←
    foldM (λ mappings kv, e ← inferMapping kv.1 kv.2;
                          mret (assign mappings kv.1 e))
      (map_to_list (ownProps (nullish_else sample (VObj ∅)))) ∅;
  mret [ VObj {[ "indexRange" := arr [VNum 0; VNum 1];
                 "mappings" := VObj mappings ]} ].

End WithHost.

(** *** The grouping-clause rewrite

    [txt.replace(re, (_m, g1) => ...)] where the expression [re],
    case-insensitive and not global, reads: the letters b, y and a colon,
    any white space, an opening brace, any white space, the captured group
    [g1] of characters other than a closing brace, any white space, a
    closing brace.  The leftmost match is replaced.  The matcher below is
    the backtracking matcher specialised to this expression: the white space
    after the colon is followed by a brace, which is not white space, and the
    greedy group stops at the first closing brace, so the first successful
    path is the one that takes every star to its longest extent. *)

(** WhiteSpace and LineTerminator code units below 256: [\s] and [trim]. *)
Definition is_space (c : Ascii.ascii) : bool :=
  bool_decide (Ascii.N_of_ascii c ∈ [9; 10; 11; 12; 13; 32; 160]%N).

Definition is_b (c : Ascii.ascii) : bool := Ascii.eqb c "b"%char || Ascii.eqb c "B"%char.
Definition is_y (c : Ascii.ascii) : bool := Ascii.eqb c "y"%char || Ascii.eqb c "Y"%char.

(** Skipping white space, greedily. *)
Fixpoint skip_ws (s : string) : string :=
  match s with
  | String c s' => if is_space c then skip_ws s' else s
  | EmptyString => EmptyString
  end.

(** The group up to the first closing brace, and the text after the brace. *)
Fixpoint until_brace (s : string) : option (string * string) :=
  match s with
  | EmptyString => None
  | String c s' =>
      if Ascii.eqb c "}"%char then Some (EmptyString, s')
      else match until_brace s' with
           | Some (g1, rest) => Some (String c g1, rest)
           | None => None
           end
  end.

(** A match of the whole expression at the start of [s]. *)
Definition match_by (s : string) : option (string * string) :=
  match s with
  | String b (String y (String colon s1)) =>
      if is_b b && is_y y && Ascii.eqb colon ":"%char then
        match skip_ws s1 with
        | String brace s2 =>
            if Ascii.eqb brace "{"%char then until_brace (skip_ws s2) else None
        | EmptyString => None
        end
      else None
  | _ => None
  end.

(** [g1.split(",")] *)
Fixpoint split_comma (s : string) : list string :=
  match s with
  | EmptyString => [EmptyString]
  | String c s' =>
      if Ascii.eqb c ","%char then EmptyString :: split_comma s'
      else match split_comma s' with
           | p :: ps => String c p :: ps
           | [] => [String c EmptyString]
           end
  end.

Fixpoint trim_end (s : string) : string :=
  match s with
  | EmptyString => EmptyString
  | String c s' =>
      match trim_end s' with
      | EmptyString => if is_space c then EmptyString else String c EmptyString
      | t => String c t
      end
  end.

Definition trim (s : string) : string := trim_end (skip_ws s).

Definition nonempty (s : string) : bool := negb (String.eqb s "").

(** [g1.split(",").map((s) => s.trim()).filter(Boolean)] *)
Definition by_fields (g1 : string) : list string :=
  filter (λ s, nonempty s = true) (trim <$> split_comma g1).

(** The replacement callback. *)
Definition by_replacement (g1 : string) : string :=
  let parts := by_fields g1 in
  let parts := if bool_decide ("tenant" ∈ parts) then parts
               else parts ++ ["tenant"] in
  "by:{" +:+ String.concat ", " parts +:+ "}".

(** [String.prototype.replace] with this expression and callback. *)
Fixpoint replace_by (s : string) : string :=
  match match_by s with
  | Some (g1, rest) => by_replacement g1 +:+ rest
  | None =>
      match s with
      | String c s' => String c (replace_by s')
      | EmptyString => EmptyString
      end
  end.

Definition addTenantToBy (txt : value) : value :=
  match txt with
  | VStr s => VStr (replace_by s)
  | _ => txt
  end.

(** *** The merger *)

Record TenantResponse : Type := { tenant : string; json : value }.

(** An element of [normalized]. *)
Record Normalized : Type := {
  n_tenant : string;
  n_records : list value;
  n_types : list value;
  n_metadata : value;
  n_metrics : list value;
}.

(** [{ ...r, tenant }] *)
Definition withTenant (tenant : string) (r : value) : value :=
  VObj (<["tenant" := VStr tenant]> (ownProps r)).

Definition normalizeTenant (resp : TenantResponse) : Normalized :=
  let n := normalize (json resp) in
  {| n_tenant := tenant resp;
     n_records := withTenant (tenant resp) <$> records n;
     n_types := types n;
     n_metadata := metadata n;
     n_metrics := metrics n |}.

Record Totals : Type := {
  scannedRecords : float;
  scannedBytes : float;
  scannedDataPoints : float;
  executionTimeMilliseconds : float;
}.

(** [types0] of the merger: the clone of the first tenant's first
    descriptor, or the inferred one, with the tenant mapping. *)
Definition mergedType `{Host} (n0 : Normalized) (allRecords : list value)
  : result value :=
  let baseTypes0 := default VUndefined (head (n_types n0)) in
  types0 ←
    (if ToBoolean baseTypes0
     then types0 ← deepClone baseTypes0;
          m ← getT types0 "mappings";
          setT types0 "mappings" (or_else m (VObj ∅))
     else inferred ← inferTypesFromRecord
                       (default VUndefined (head allRecords));
          mret (default VUndefined (head inferred)));
  types0 ←
    (if negb (ToBoolean (get types0 "mappings"))
     then setT types0 "mappings" (VObj ∅)
     else mret types0);
  mappings ← getT types0 "mappings";
  if negb (ToBoolean (get mappings "tenant"))
  then mappings ← setT mappings "tenant" (typeEntry "string");
       setT types0 "mappings" mappings
  else mret types0.

Section Merge.
Context `{Host}.

(** The body of the [forEach]: the state is [(totals, perTenant)]. *)
Definition tally (st : Totals * gmap string value) (n : Normalized)
  : result (Totals * gmap string value) :=
  let '(totals, perTenant) := st in
  let g := or_else (get (n_metadata n) "grail") (VObj ∅) in
  let tag := n_tenant n in
  sr ← ToNumber (or_else (get g "scannedRecords") (VNum 0));
  sb ← ToNumber (or_else (get g "scannedBytes") (VNum 0));
  sdp ← ToNumber (or_else (get g "scannedDataPoints") (VNum 0));
  etm ← ToNumber (or_else (or_else (get (n_metadata n)
                                      "executionTimeMilliseconds")
                             (get g "executionTimeMilliseconds"))
                    (VNum 0));
  mret ({| scannedRecords := scannedRecords totals + sr;
           scannedBytes := scannedBytes totals + sb;
           scannedDataPoints := scannedDataPoints totals + sdp;
           executionTimeMilliseconds :=
             executionTimeMilliseconds totals + etm |},
        <["executionTimeMilliseconds-" +:+ tag := VNum etm]>
          (<["scannedDataPoints-" +:+ tag := VNum sdp]>
             (<["scannedBytes-" +:+ tag := VNum sb]>
                (<["scannedRecords-" +:+ tag := VNum sr]> perTenant)))).

Definition zeroTotals : Totals :=
  {| scannedRecords := 0; scannedBytes := 0; scannedDataPoints := 0;
     executionTimeMilliseconds := 0 |}.

(** [z === "Z"] *)
Definition is_Z (z : value) : bool :=
  match z with VStr s => String.eqb s "Z" | _ => false end.

(** [normalized.map(...).find((z) => z && z !== "Z")] *)
Definition tzCandidate (normalized : list Normalized) : value :=
  default VUndefined
    (find (λ z, ToBoolean z && negb (is_Z z))
       ((λ n, get (get (n_metadata n) "grail") "timezone") <$> normalized)).

(** The object literal bound to [metadata]: the widened metadata, its grail
    overlaid with the timezone, the three scanned totals and the per-tenant
    breakdown, and the total execution time at the top level. *)
Definition mergedMetadata (widened tz baseGrail : value) (totals : Totals)
    (perTenant : gmap string value) : value :=
  VObj (<["executionTimeMilliseconds" :=
            VNum (executionTimeMilliseconds totals)]>
          (<["grail" :=
               VObj (perTenant ∪
                 <["scannedDataPoints" := VNum (scannedDataPoints totals)]>
                   (<["scannedBytes" := VNum (scannedBytes totals)]>
                      (<["scannedRecords" := VNum (scannedRecords totals)]>
                         (<["timezone" :=
                              or_else (or_else tz (get baseGrail "timezone"))
                                (VStr "Z")]>
                            (ownProps
                               (or_else (get widened "grail") (VObj ∅)))))))]>
             (ownProps widened))).

(** [metadata.grail.k = addTenantToBy(metadata.grail.k)] *)
Definition rewriteQuery (k : string) (metadata : value) : result value :=
  grail ← getT metadata "grail";
  grail ← setT grail k (addTenantToBy (get grail k));
  setT metadata "grail" grail.

Definition mergeMultiTenant (responses : list TenantResponse)
  : result Response :=
  match normalizeTenant <$> responses with
  | [] => mret {| records := []; types := []; metadata := VObj ∅;
                  metrics := [] |}
  | (n0 :: _) as normalized =>
      let allRecords := normalized ≫= n_records in
      types0 ← mergedType n0 allRecords;
      let baseMeta := or_else (n_metadata n0) (VObj ∅) in
      let baseGrail := or_else (get baseMeta "grail") (VObj ∅) in
      '(totals, perTenant) ← foldM tally normalized (zeroTotals, ∅);
      widened ← globalTimeframe allRecords baseMeta;
      let metadata :=
        mergedMetadata widened (tzCandidate normalized) baseGrail totals
          perTenant in
      metadata ←
        (if ToBoolean (get metadata "grail")
         then metadata ← rewriteQuery "canonicalQuery" metadata;
              rewriteQuery "query" metadata
         else mret metadata);
      mret {| records := allRecords; types := [types0]; metadata := metadata;
              metrics := n_metrics n0 |}
  end.

End Merge.

End MultiTenant.

(** ** Properties *)

Import JS MultiTenant.

(** An object literal and an element of [responses]. *)
Definition obj (l : list (string * value)) : value := VObj (list_to_map l).
Definition resp (t : string) (j : value) : TenantResponse :=
  {| tenant := t; json := j |}.

(** The records of one tenant after stamping. *)
Definition stamped (r : TenantResponse) : list value :=
  withTenant (tenant r) <$> records (normalize (json r)).

(** The payload that [normalize] reads: the value under [result] when
    there is one, else the response itself, else an empty object. *)
Definition payload (json : value) : value :=
  match get json "result" with
  | VUndefined | VNull =>
      match json with VUndefined | VNull => VObj ∅ | _ => json end
  | r => r
  end.

(** The coercion to a sequence, by cases on the field. *)
Definition sequenceOf (v : value) : list value :=
  match v with
  | VUndefined | VNull => []
  | VArr l _ => l
  | VBool false => []
  | VNum n => if PrimFloat.eqb n 0 || PrimFloat.is_nan n then [] else [v]
  | VStr s => if String.eqb s "" then [] else [v]
  | v => [v]
  end.

(** The coercion as the specification words it: every scalar or object
    becomes a one-element sequence. *)
Definition sequenceOf_stated (v : value) : list value :=
  match v with
  | VUndefined | VNull => []
  | VArr l _ => l
  | v => [v]
  end.

Definition normalize_stated (json : value) : Prop :=
  records (normalize json) = sequenceOf_stated (get (payload json) "records")
  ∧ types (normalize json) = sequenceOf_stated (get (payload json) "types")
  ∧ metrics (normalize json) = sequenceOf_stated (get (payload json) "metrics")
  ∧ metadata (normalize json) =
      nullish_else (get (payload json) "metadata") (VObj ∅).

Lemma payload_eq json :
  nullish_else (nullish_else (get json "result") json) (VObj ∅) = payload json.
Proof.
  unfold payload, nullish_else.
  destruct (get json "result") eqn:E; simpl; try reflexivity;
    destruct json; reflexivity.
Qed.

Lemma asArray_sequenceOf v : asArray v = sequenceOf v.
Proof.
  destruct v as [| |[]|n|s|l e|o]; simpl; try reflexivity.
  - destruct (PrimFloat.eqb n 0 || PrimFloat.is_nan n); reflexivity.
  - destruct (String.eqb s ""); reflexivity.
Qed.

(** C2, as stated, fails on the payload [{records: 0}]: the falsy scalar
    becomes the empty sequence, not a one-element one. *)
Lemma normalize_stated_fails :
  ¬ normalize_stated (obj [("records", VNum 0)]).
Proof.
  intros (Hrec & _). vm_compute in Hrec. discriminate Hrec.
Qed.

(** C2 (amended): [normalize] is a total function; each of [records],
    [types] and [metrics] of the (possibly [result]-wrapped) payload becomes
    the empty sequence when it is null, undefined or another falsy scalar
    (false, 0, NaN, the empty string), the one-element sequence when it is a
    truthy scalar or an object, and the sequence itself when it is one;
    [metadata] defaults to the empty mapping when it is null or undefined. *)
Theorem normalize_fields json :
  normalize json =
    {| records := sequenceOf (get (payload json) "records");
       types := sequenceOf (get (payload json) "types");
       metadata := if is_nullish (get (payload json) "metadata")
                   then VObj ∅ else get (payload json) "metadata";
       metrics := sequenceOf (get (payload json) "metrics") |}.
Proof.
  unfold normalize. rewrite payload_eq, !asArray_sequenceOf. reflexivity.
Qed.

(** ** Dates *)

Section Dates.
Local Open Scope Z_scope.

(** [YearFromDay] is ECMA-262's YearFromTime: the largest year whose first
    day is not after the given day. *)
Lemma YearFromDay_bounds d :
  DayFromYear (YearFromDay d) <= d < DayFromYear (YearFromDay d + 1).
Proof.
  unfold YearFromDay.
  destruct (Z.ltb_spec d (DayFromYear (1970 + d * 400 / 146097))) as [H1|H1];
    [|destruct (Z.leb_spec (DayFromYear (1970 + d * 400 / 146097 + 1)) d)
        as [H2|H2]];
    unfold DayFromYear in *; Z.div_mod_to_equations; lia.
Qed.

Lemma DayFromYear_mono y y' : y <= y' → DayFromYear y <= DayFromYear y'.
Proof. unfold DayFromYear. intros. Z.div_mod_to_equations. lia. Qed.

Lemma YearFromDay_largest d y : DayFromYear y <= d → y <= YearFromDay d.
Proof.
  intros Hy. destruct (Z.le_gt_cases y (YearFromDay d)) as [|Hgt]; [done|].
  pose proof (YearFromDay_bounds d) as [_ Hd].
  pose proof (DayFromYear_mono (YearFromDay d + 1) y ltac:(lia)). lia.
Qed.

(** The day within the year is a day of that year. *)
Lemma DayWithinYear_bounds d :
  0 <= d - DayFromYear (YearFromDay d)
     < if InLeapYear (YearFromDay d) then 366 else 365.
Proof.
  pose proof (YearFromDay_bounds d) as [Hlo Hhi].
  split; [lia|]. revert Hhi. generalize (YearFromDay d) as y. intros y.
  unfold InLeapYear, DayFromYear.
  destruct (Z.eqb_spec (y mod 4) 0), (Z.eqb_spec (y mod 100) 0),
    (Z.eqb_spec (y mod 400) 0); cbn [andb orb negb];
    intros; Z.div_mod_to_equations; lia.
Qed.

End Dates.

(** ** Numbers: the order of the finite numbers *)

Section Numbers.

Ltac cmp_cases :=
  repeat match goal with
  | |- context [Pos.compare_cont Eq ?a ?b] =>
      change (Pos.compare_cont Eq a b) with (Pos.compare a b)
  | |- context [Z.compare ?a ?b] => destruct (Z.compare_spec a b); subst
  | |- context [Pos.compare ?a ?b] => destruct (Pos.compare_spec a b); subst
  end.

Ltac sf_cases :=
  unfold SFltb, SFeqb, SFcompare;
  repeat match goal with x : spec_float |- _ => destruct x end;
  repeat match goal with s : bool |- _ => destruct s end;
  cbn; try congruence; cmp_cases; cbn; try congruence; try lia.

Lemma SFltb_neg_trans a b c :
  a ≠ S754_nan → b ≠ S754_nan → c ≠ S754_nan →
  SFltb a b = false → SFltb b c = false → SFltb a c = false.
Proof. sf_cases. Qed.

Lemma SFltb_irrefl a : SFltb a a = false.
Proof. sf_cases. Qed.

Lemma SFltb_asym a b : SFltb a b = true → SFltb b a = false.
Proof. sf_cases. Qed.

Lemma SFeqb_refl a : a ≠ S754_nan → SFeqb a a = true.
Proof. sf_cases. Qed.

Lemma is_nan_spec x : PrimFloat.is_nan x = false ↔ Prim2SF x ≠ S754_nan.
Proof.
  unfold PrimFloat.is_nan. rewrite FloatAxioms.eqb_spec. split.
  - intros E Hn. rewrite Hn in E. discriminate E.
  - intros Hn. by rewrite SFeqb_refl.
Qed.

Lemma isFinite_not_nan x : isFinite x = true → PrimFloat.is_nan x = false.
Proof. unfold isFinite. by destruct (PrimFloat.is_nan x). Qed.

Lemma ltb_irrefl x : PrimFloat.ltb x x = false.
Proof. rewrite ltb_spec. apply SFltb_irrefl. Qed.

Lemma ltb_asym x y : PrimFloat.ltb x y = true → PrimFloat.ltb y x = false.
Proof. rewrite !ltb_spec. apply SFltb_asym. Qed.

Lemma ltb_neg_trans x y z :
  PrimFloat.is_nan x = false → PrimFloat.is_nan y = false →
  PrimFloat.is_nan z = false →
  PrimFloat.ltb x y = false → PrimFloat.ltb y z = false →
  PrimFloat.ltb x z = false.
Proof. rewrite !is_nan_spec, !ltb_spec. apply SFltb_neg_trans. Qed.

Lemma ltb_finite_infinity x :
  isFinite x = true → PrimFloat.ltb x infinity = true.
Proof.
  unfold isFinite, PrimFloat.is_nan, PrimFloat.is_infinity.
  rewrite ltb_spec, !FloatAxioms.eqb_spec, abs_spec.
  change (Prim2SF infinity) with (S754_infinity false).
  destruct (Prim2SF x) as [s|s| |s m e]; try destruct s; cbn; congruence.
Qed.

Lemma ltb_neg_infinity_finite x :
  isFinite x = true → PrimFloat.ltb neg_infinity x = true.
Proof.
  unfold isFinite, PrimFloat.is_nan, PrimFloat.is_infinity.
  rewrite ltb_spec, !FloatAxioms.eqb_spec, abs_spec.
  change (Prim2SF neg_infinity) with (S754_infinity true).
  change (Prim2SF infinity) with (S754_infinity false).
  destruct (Prim2SF x) as [s|s| |s m e]; try destruct s; cbn; congruence.
Qed.

(** [Math.min] of two numbers is one of them and is greater than
    neither; dually for [Math.max]. *)
Lemma Math_min_spec a b :
  PrimFloat.is_nan a = false → PrimFloat.is_nan b = false →
  (Math_min a b = a ∨ Math_min a b = b)
  ∧ PrimFloat.ltb a (Math_min a b) = false
  ∧ PrimFloat.ltb b (Math_min a b) = false.
Proof.
  intros Ha Hb. unfold Math_min. rewrite Ha, Hb. cbn [orb].
  destruct (PrimFloat.ltb a b) eqn:Hab.
  { split_and!; [by left|apply ltb_irrefl|by apply ltb_asym]. }
  destruct (PrimFloat.ltb b a) eqn:Hba.
  { split_and!; [by right|done|apply ltb_irrefl]. }
  destruct (is_neg_zero a).
  - split_and!; [by left|apply ltb_irrefl|done].
  - split_and!; [by right|done|apply ltb_irrefl].
Qed.

Lemma Math_max_spec a b :
  PrimFloat.is_nan a = false → PrimFloat.is_nan b = false →
  (Math_max a b = a ∨ Math_max a b = b)
  ∧ PrimFloat.ltb (Math_max a b) a = false
  ∧ PrimFloat.ltb (Math_max a b) b = false.
Proof.
  intros Ha Hb. unfold Math_max. rewrite Ha, Hb. cbn [orb].
  destruct (PrimFloat.ltb a b) eqn:Hab.
  { split_and!; [by right|by apply ltb_asym|apply ltb_irrefl]. }
  destruct (PrimFloat.ltb b a) eqn:Hba.
  { split_and!; [by left|apply ltb_irrefl|done]. }
  destruct (is_neg_zero a).
  - split_and!; [by right|done|apply ltb_irrefl].
  - split_and!; [by left|apply ltb_irrefl|done].
Qed.

Lemma fold_min_spec l acc :
  PrimFloat.is_nan acc = false →
  Forall (λ x, PrimFloat.is_nan x = false) l →
  fold_left Math_min l acc ∈ acc :: l
  ∧ ∀ x, x ∈ acc :: l → PrimFloat.ltb x (fold_left Math_min l acc) = false.
Proof.
  intros Hacc Hl. revert acc Hacc.
  induction Hl as [|y l Hy Hl IH]; intros acc Hacc; cbn [fold_left].
  - split; [left|]. intros x ->%list_elem_of_singleton. apply ltb_irrefl.
  - destruct (Math_min_spec acc y Hacc Hy) as (Hm & Hma & Hmy).
    assert (PrimFloat.is_nan (Math_min acc y) = false) as Hnan
      by (destruct Hm as [-> | ->]; assumption).
    destruct (IH _ Hnan) as [Hin Hle]. split.
    + apply elem_of_cons in Hin as [Hin|Hin].
      * rewrite Hin. destruct Hm as [-> | ->]; [left|right; left].
      * by do 2 right.
    + assert (PrimFloat.is_nan (fold_left Math_min l (Math_min acc y)) = false)
        as Hfold.
      { apply elem_of_cons in Hin as [->|Hin]; [done|].
        by apply (proj1 (Forall_forall _ _) Hl). }
      pose proof (Hle _ (list_elem_of_here _ _)) as Hmin.
      intros x [->|[->|Hx]%elem_of_cons]%elem_of_cons.
      * by apply (ltb_neg_trans _ (Math_min acc y)).
      * by apply (ltb_neg_trans _ (Math_min acc y)).
      * apply Hle. by right.
Qed.

Lemma fold_max_spec l acc :
  PrimFloat.is_nan acc = false →
  Forall (λ x, PrimFloat.is_nan x = false) l →
  fold_left Math_max l acc ∈ acc :: l
  ∧ ∀ x, x ∈ acc :: l → PrimFloat.ltb (fold_left Math_max l acc) x = false.
Proof.
  intros Hacc Hl. revert acc Hacc.
  induction Hl as [|y l Hy Hl IH]; intros acc Hacc; cbn [fold_left].
  - split; [left|]. intros x ->%list_elem_of_singleton. apply ltb_irrefl.
  - destruct (Math_max_spec acc y Hacc Hy) as (Hm & Hma & Hmy).
    assert (PrimFloat.is_nan (Math_max acc y) = false) as Hnan
      by (destruct Hm as [-> | ->]; assumption).
    destruct (IH _ Hnan) as [Hin Hle]. split.
    + apply elem_of_cons in Hin as [Hin|Hin].
      * rewrite Hin. destruct Hm as [-> | ->]; [left|right; left].
      * by do 2 right.
    + assert (PrimFloat.is_nan (fold_left Math_max l (Math_max acc y)) = false)
        as Hfold.
      { apply elem_of_cons in Hin as [->|Hin]; [done|].
        by apply (proj1 (Forall_forall _ _) Hl). }
      pose proof (Hle _ (list_elem_of_here _ _)) as Hmax.
      intros x [->|[->|Hx]%elem_of_cons]%elem_of_cons.
      * by apply (ltb_neg_trans _ (Math_max acc y)).
      * by apply (ltb_neg_trans _ (Math_max acc y)).
      * apply Hle. by right.
Qed.

End Numbers.

(** ** The grouping-clause rewrite *)

Section ByClause.

Fixpoint blank (s : string) : bool :=
  match s with
  | EmptyString => true
  | String c s' => is_space c && blank s'
  end.

Fixpoint no_brace (s : string) : bool :=
  match s with
  | EmptyString => true
  | String c s' => negb (Ascii.eqb c "}"%char) && no_brace s'
  end.

(** A grouping clause: [by:] in either case, white space, an opening brace,
    white space, the [body] free of closing braces, a closing brace. *)
Definition by_clause (clause body : string) : Prop :=
  ∃ b y ws1 ws2,
    is_b b = true ∧ is_y y = true ∧ blank ws1 = true ∧ blank ws2 = true
    ∧ no_brace body = true
    ∧ clause =
        String b (String y (String ":"
          (ws1 +:+ String "{" (ws2 +:+ body +:+ "}")))).


(** The fields of the rewritten clause: the listed ones in their order,
    then [tenant] unless it is listed. *)
Definition with_tenant (fields : list string) : list string :=
  if bool_decide ("tenant" ∈ fields) then fields else fields ++ ["tenant"].

Lemma app_cons c s t : String c s +:+ t = String c (s +:+ t).
Proof. reflexivity. Qed.

Lemma app_empty_l t : "" +:+ t = t.
Proof. reflexivity. Qed.

Lemma app_assoc' s t u : (s +:+ t) +:+ u = s +:+ t +:+ u.
Proof. induction s as [|c s IH]; [reflexivity|]. by rewrite !app_cons, IH. Qed.

Lemma length_app' s t :
  String.length (s +:+ t) = String.length s + String.length t.
Proof.
  induction s as [|c s IH]; [reflexivity|].
  rewrite app_cons. cbn [String.length]. by rewrite IH.
Qed.

Lemma replace_by_eq s :
  replace_by s =
    match match_by s with
    | Some (g1, rest) => by_replacement g1 +:+ rest
    | None => match s with
              | String c s' => String c (replace_by s')
              | EmptyString => EmptyString
              end
    end.
Proof. destruct s; reflexivity. Qed.

Lemma skip_ws_blank ws s : blank ws = true → skip_ws (ws +:+ s) = skip_ws s.
Proof.
  induction ws as [|c ws IH]; [reflexivity|]. cbn [blank].
  intros [Hc Hws]%andb_prop. rewrite app_cons. cbn [skip_ws].
  rewrite Hc. by apply IH.
Qed.

Lemma skip_ws_split s : ∃ ws, blank ws = true ∧ s = ws +:+ skip_ws s.
Proof.
  induction s as [|c s (ws & Hws & IH)].
  - by exists "".
  - cbn [skip_ws]. destruct (is_space c) eqn:Hc.
    + exists (String c ws). cbn [blank]. rewrite Hc, Hws, app_cons, <- IH. done.
    + by exists "".
Qed.

Lemma skip_ws_stop s c r :
  is_space c = false → skip_ws (s +:+ String c r) = skip_ws s +:+ String c r.
Proof.
  intros Hc. induction s as [|d s IH].
  - rewrite !app_empty_l. cbn [skip_ws]. by rewrite Hc.
  - rewrite app_cons. cbn [skip_ws]. destruct (is_space d); [exact IH|].
    by rewrite app_cons.
Qed.

Lemma no_brace_skip_ws s : no_brace s = true → no_brace (skip_ws s) = true.
Proof.
  induction s as [|c s IH]; [done|]. cbn [skip_ws no_brace].
  intros [Hc Hs]%andb_prop. destruct (is_space c); [by apply IH|].
  cbn [no_brace]. by rewrite Hc, Hs.
Qed.

Lemma until_brace_Some s g rest :
  until_brace s = Some (g, rest) ↔ no_brace g = true ∧ s = g +:+ String "}" rest.
Proof.
  revert g. induction s as [|c s IH]; intros g; cbn [until_brace].
  - split; [done|]. intros [_ Hs]. by destruct g.
  - destruct (Ascii.eqb c "}") eqn:Hc.
    + apply Ascii.eqb_eq in Hc as ->. split.
      * intros [= <- <-]. done.
      * intros [Hg Hs]. destruct g as [|d g]; [by injection Hs as ->|].
        rewrite app_cons in Hs. injection Hs as <- _.
        cbn [no_brace] in Hg. by rewrite Ascii.eqb_refl in Hg.
    + destruct (until_brace s) as [[g' rest']|] eqn:Hu; rewrite <- Hu in IH.
      * split.
        -- intros [= <- <-]. apply IH in Hu as [Hg' ->].
           cbn [no_brace]. by rewrite Hc, Hg'.
        -- intros [Hg Hs]. destruct g as [|d g].
           ++ rewrite app_empty_l in Hs. injection Hs as -> _.
              by rewrite Ascii.eqb_refl in Hc.
           ++ rewrite app_cons in Hs. injection Hs as <- Hs.
              cbn [no_brace] in Hg. apply andb_prop in Hg as [_ Hg].
              assert (until_brace s = Some (g, rest)) as Hu' by by apply IH.
              congruence.
      * split; [done|]. intros [Hg Hs]. destruct g as [|d g].
        -- rewrite app_empty_l in Hs. injection Hs as -> _.
           by rewrite Ascii.eqb_refl in Hc.
        -- rewrite app_cons in Hs. injection Hs as <- Hs.
           cbn [no_brace] in Hg. apply andb_prop in Hg as [_ Hg].
           assert (until_brace s = Some (g, rest)) as Hu' by by apply IH.
           congruence.
Qed.

Lemma by_clause_app b y ws1 ws2 body rest :
  String b (String y (String ":"
    (ws1 +:+ String "{" (ws2 +:+ body +:+ "}")))) +:+ rest
  = String b (String y (String ":"
      (ws1 +:+ String "{" (ws2 +:+ body +:+ String "}" rest)))).
Proof.
  rewrite !app_cons. do 3 f_equal.
  rewrite app_assoc', app_cons. do 2 f_equal.
  rewrite !app_assoc'. reflexivity.
Qed.

(** A match at the start of [s] is a grouping clause followed by the
    rest. *)
Lemma match_by_Some s g1 rest :
  match_by s = Some (g1, rest) →
  ∃ clause, by_clause clause g1 ∧ s = clause +:+ rest.
Proof.
  destruct s as [|b [|y [|colon s1]]]; try discriminate. cbn [match_by].
  destruct (is_b b && is_y y && Ascii.eqb colon ":") eqn:Hk; [|discriminate].
  apply andb_prop in Hk as [[Hb Hy]%andb_prop ->%Ascii.eqb_eq].
  destruct (skip_ws s1) as [|brace s2] eqn:Hs1; [discriminate|].
  destruct (Ascii.eqb brace "{") eqn:Hbrace; [|discriminate].
  apply Ascii.eqb_eq in Hbrace as ->.
  intros [Hg Hs2]%until_brace_Some.
  destruct (skip_ws_split s1) as (ws1 & Hws1 & Es1).
  destruct (skip_ws_split s2) as (ws2 & Hws2 & Es2).
  rewrite Hs1 in Es1. rewrite Hs2 in Es2.
  eexists. split.
  - exists b, y, ws1, ws2. repeat split; try eassumption.
  - rewrite by_clause_app, Es1, Es2. reflexivity.
Qed.

(** A grouping clause at the start of a text is matched; the group is the
    body without the white space in front of it. *)
Lemma match_by_clause clause body post :
  by_clause clause body →
  match_by (clause +:+ post) = Some (skip_ws body, post).
Proof.
  intros (b & y & ws1 & ws2 & Hb & Hy & Hws1 & Hws2 & Hbody & ->).
  rewrite by_clause_app. cbn [match_by].
  rewrite Hb, Hy, Ascii.eqb_refl. cbn [andb].
  rewrite skip_ws_blank by exact Hws1. cbn [skip_ws].
  change (is_space "{") with false. cbv iota. rewrite Ascii.eqb_refl.
  rewrite skip_ws_blank by exact Hws2.
  rewrite skip_ws_stop by reflexivity.
  apply until_brace_Some. split; [by apply no_brace_skip_ws|reflexivity].
Qed.

(** The replacement rewrites the leftmost match and nothing else. *)
Lemma replace_by_spec txt :
  (∃ pre s g1 rest,
     txt = pre +:+ s ∧ match_by s = Some (g1, rest)
     ∧ replace_by txt = pre +:+ by_replacement g1 +:+ rest)
  ∨ ((∀ pre s, txt = pre +:+ s → match_by s = None) ∧ replace_by txt = txt).
Proof.
  induction txt as [|c t IH].
  - right. split; [|reflexivity].
    intros pre s Hs. destruct pre; [|discriminate].
    change ("" = s) in Hs. by subst s.
  - rewrite replace_by_eq.
    destruct (match_by (String c t)) as [[g1 rest]|] eqn:Hm.
    + left. by exists "", (String c t), g1, rest.
    + destruct IH as [(pre & s & g1 & rest & -> & Hs & Hr)|[Hnone Hr]].
      * left. exists (String c pre), s, g1, rest.
        rewrite Hr, !app_cons. done.
      * right. rewrite Hr. split; [|reflexivity].
        intros [|d pre] s Hs.
        -- change (String c t = s) in Hs. by subst s.
        -- change (String c t = String d (pre +:+ s)) in Hs.
           injection Hs as _ Hs. by apply (Hnone pre).
Qed.


End ByClause.

(** ** The loops, by the values of their conversions

    A loop of the tile stops at the first conversion that throws.  When
    none does, it computes what the functions of this section say: they are
    the loop bodies with every conversion replaced by its value. *)

Section Loops.
Context `{Host}.

Lemma foldM_guard {A B : Type} (f : B → A → result B) (ok : A → bool)
    (g : B → A → B) (e : error) (l : list A) (b : B) :
  (∀ b a, f b a = if ok a then Ok (g b a) else Throw e) →
  foldM f l b = if forallb ok l then Ok (fold_left g l b) else Throw e.
Proof.
  intros Hf. revert b. induction l as [|a l IH]; intros b; [reflexivity|].
  cbn [foldM forallb fold_left]. rewrite Hf.
  destruct (ok a); cbn [mbind result_bind andb]; [apply IH|reflexivity].
Qed.

(** *** The timeframe of the records *)

(** The number that [parseTs] returns. *)
Definition parsed (s : value) : float :=
  match s with
  | VStr str => Date_parse str
  | _ => NumberOf s
  end.

Lemma parseTs_eq s :
  parseTs s = if convertible s then Ok (parsed s) else Throw TypeError.
Proof. by destruct s. Qed.

(** The parsed bounds of a record. *)
Definition startOf (rec : value) : float :=
  parsed (get (get rec "timeframe") "start").
Definition endOf (rec : value) : float :=
  parsed (get (get rec "timeframe") "end").

(** Both bounds of the record can be parsed. *)
Definition timeframeOk (rec : value) : bool :=
  convertible (get (get rec "timeframe") "start")
  && convertible (get (get rec "timeframe") "end").

(** One iteration of the loop of [globalTimeframe] over the pair
    [(minS, maxE)]. *)
Definition widen (acc : float * float) (rec : value) : float * float :=
  (if isFinite (startOf rec) then Math_min acc.1 (startOf rec) else acc.1,
   if isFinite (endOf rec) then Math_max acc.2 (endOf rec) else acc.2).

Definition bounds (records : list value) : float * float :=
  fold_left widen records (infinity, neg_infinity).

Lemma scanRecord_eq acc rec :
  scanRecord acc rec =
    if timeframeOk rec then Ok (widen acc rec) else Throw TypeError.
Proof.
  unfold scanRecord, timeframeOk, widen, startOf, endOf.
  rewrite !parseTs_eq.
  destruct (convertible (get (get rec "timeframe") "start"));
    [|reflexivity].
  destruct (convertible (get (get rec "timeframe") "end")); reflexivity.
Qed.

(** The loop of [globalTimeframe] returns the bounds when every bound of
    every record can be parsed, and throws a TypeError otherwise. *)
Lemma scan_bounds recs :
  foldM scanRecord recs (infinity, neg_infinity) =
    if forallb timeframeOk recs then Ok (bounds recs) else Throw TypeError.
Proof. apply foldM_guard, scanRecord_eq. Qed.

(** *** The counters *)

(** The four counters that the [forEach] reads from one tenant. *)
Definition counters (n : Normalized) : Totals :=
  let g := or_else (get (n_metadata n) "grail") (VObj ∅) in
  {| scannedRecords := NumberOf (or_else (get g "scannedRecords") (VNum 0));
     scannedBytes := NumberOf (or_else (get g "scannedBytes") (VNum 0));
     scannedDataPoints :=
       NumberOf (or_else (get g "scannedDataPoints") (VNum 0));
     executionTimeMilliseconds :=
       NumberOf (or_else (or_else (get (n_metadata n) "executionTimeMilliseconds")
                            (get g "executionTimeMilliseconds"))
                   (VNum 0)) |}.

(** The four counters of the tenant can be converted. *)
Definition countersOk (n : Normalized) : bool :=
  let g := or_else (get (n_metadata n) "grail") (VObj ∅) in
  convertible (or_else (get g "scannedRecords") (VNum 0))
  && convertible (or_else (get g "scannedBytes") (VNum 0))
  && convertible (or_else (get g "scannedDataPoints") (VNum 0))
  && convertible (or_else (or_else (get (n_metadata n)
                                      "executionTimeMilliseconds")
                             (get g "executionTimeMilliseconds"))
                    (VNum 0)).

(** The body of the [forEach] on the state [(totals, perTenant)]. *)
Definition accumulate (st : Totals * gmap string value) (n : Normalized)
  : Totals * gmap string value :=
  let '(totals, perTenant) := st in
  let c := counters n in
  let tag := n_tenant n in
  ({| scannedRecords := scannedRecords totals + scannedRecords c;
      scannedBytes := scannedBytes totals + scannedBytes c;
      scannedDataPoints := scannedDataPoints totals + scannedDataPoints c;
      executionTimeMilliseconds :=
        executionTimeMilliseconds totals + executionTimeMilliseconds c |},
   <["executionTimeMilliseconds-" +:+ tag := VNum (executionTimeMilliseconds c)]>
     (<["scannedDataPoints-" +:+ tag := VNum (scannedDataPoints c)]>
        (<["scannedBytes-" +:+ tag := VNum (scannedBytes c)]>
           (<["scannedRecords-" +:+ tag := VNum (scannedRecords c)]>
              perTenant)))).

Lemma tally_eq st n :
  tally st n = if countersOk n then Ok (accumulate st n) else Throw TypeError.
Proof.
  destruct st as [totals perTenant].
  unfold tally, countersOk, accumulate, counters, ToNumber. cbn zeta.
  repeat match goal with
         | |- context [convertible ?v] =>
             destruct (convertible v); cbn [mbind result_bind andb];
             [|reflexivity]
         end.
  reflexivity.
Qed.

(** The [forEach] returns the accumulated state when every counter of
    every tenant can be converted, and throws a TypeError otherwise. *)
Lemma tally_fold l st :
  foldM tally l st =
    if forallb countersOk l then Ok (fold_left accumulate l st)
    else Throw TypeError.
Proof. apply foldM_guard, tally_eq. Qed.

(** *** The inferred mappings *)

(** The type entry of the field [k] of value [v]. *)
Definition inferredEntry (k : string) (v : value) : value :=
  if String.eqb k "timeframe" && ToBoolean v && is_object v
     && has_prop "start" v && has_prop "end" v
  then typeEntry "timeframe"
  else if String.eqb k "interval" && (is_number v || all_digits (StringOf v))
  then typeEntry "duration"
  else match v with
       | VArr l _ => arrayEntry l
       | _ => typeEntry "string"
       end.

(** The field [k] is not a field [interval] whose conversion to a string
    throws. *)
Definition entryOk (k : string) (v : value) : bool :=
  negb (String.eqb k "interval") || is_number v || convertible v.

Lemma inferMapping_eq k v :
  inferMapping k v =
    if entryOk k v then Ok (inferredEntry k v) else Throw TypeError.
Proof.
  unfold inferMapping, inferredEntry, entryOk, ToString.
  destruct (String.eqb k "interval") eqn:Ek.
  - apply String.eqb_eq in Ek as ->.
    cbn [String.eqb Ascii.eqb Bool.eqb andb negb orb mbind result_bind mret
         result_ret].
    destruct (is_number v); cbn [orb mbind result_bind]; [reflexivity|].
    destruct (convertible v); cbn [mbind result_bind]; [|reflexivity].
    destruct (all_digits (StringOf v)); reflexivity.
  - cbn [negb orb andb mbind result_bind mret result_ret].
    destruct (String.eqb k "timeframe" && ToBoolean v && is_object v
              && has_prop "start" v && has_prop "end" v); reflexivity.
Qed.

(** The mappings of the inferred descriptor: an entry for every property of
    the sample's own other than [__proto__]. *)
Definition inferredMappings (sample : value) : gmap string value :=
  map_imap (λ k v, Some (inferredEntry k v))
    (delete "__proto__" (ownProps (nullish_else sample (VObj ∅)))).

Definition inferredDescriptor (sample : value) : value :=
  VObj {[ "indexRange" := arr [VNum 0; VNum 1];
          "mappings" := VObj (inferredMappings sample) ]}.

(** The field [interval] of the sample, when there is one, is a number or
    can be converted to a string. *)
Definition intervalOk (sample : value) : bool :=
  match ownProps (nullish_else sample (VObj ∅)) !! "interval" with
  | Some v => is_number v || convertible v
  | None => true
  end.

Lemma fold_assign_lookup (h : string → value → value)
    (l : list (string * value)) (m0 : gmap string value) (j : string) :
  NoDup l.*1 →
  fold_left (λ m kv, assign m kv.1 (h kv.1 kv.2)) l m0 !! j =
    match (if String.eqb j "__proto__" then None
           else (list_to_map l : gmap string value) !! j) with
    | Some v => Some (h j v)
    | None => m0 !! j
    end.
Proof.
  revert m0. induction l as [|[k v] l IH]; intros m0 Hnd.
  - cbn. rewrite lookup_empty. by destruct (String.eqb j "__proto__").
  - apply NoDup_cons in Hnd as [Hk Hnd]. cbn [fold_left fst snd].
    rewrite IH by exact Hnd. cbn [list_to_map foldr uncurry fmap list_fmap].
    change (foldr (λ p, <[p.1:=p.2]>) ∅ l) with (list_to_map l : gmap _ _).
    destruct (String.eqb j "__proto__") eqn:Ej.
    + apply String.eqb_eq in Ej as ->. unfold assign.
      destruct (String.eqb k "__proto__") eqn:Ek; [reflexivity|].
      apply String.eqb_neq in Ek. by rewrite lookup_insert_ne.
    + destruct (decide (j = k)) as [->|Hjk].
      * rewrite lookup_insert_eq.
        rewrite (not_elem_of_list_to_map_1 _ _ Hk).
        unfold assign. rewrite Ej. by rewrite lookup_insert_eq.
      * rewrite (lookup_insert_ne _ k j) by done.
        destruct (list_to_map l !! j); [reflexivity|].
        unfold assign. destruct (String.eqb k "__proto__"); [reflexivity|].
        by rewrite lookup_insert_ne.
Qed.

Lemma forallb_entries (m : gmap string value) :
  forallb (λ kv, entryOk kv.1 kv.2) (map_to_list m) =
    match m !! "interval" with
    | Some v => is_number v || convertible v
    | None => true
    end.
Proof.
  apply eq_true_iff_eq. rewrite forallb_forall. split.
  - intros Hall. destruct (m !! "interval") as [v|] eqn:E; [|reflexivity].
    apply (Hall ("interval", v)), list_elem_of_In, elem_of_map_to_list, E.
  - intros Hi [k v] Hkv%list_elem_of_In%elem_of_map_to_list.
    unfold entryOk. cbn [fst snd].
    destruct (String.eqb k "interval") eqn:Ek; [|reflexivity].
    apply String.eqb_eq in Ek as ->. by rewrite Hkv in Hi.
Qed.

(** [inferTypesFromRecord] returns one descriptor, or throws the TypeError
    of the conversion of the field [interval]. *)
Lemma inferTypesFromRecord_eq sample :
  inferTypesFromRecord sample =
    if intervalOk sample then Ok [inferredDescriptor sample]
    else Throw TypeError.
Proof.
  unfold inferTypesFromRecord, intervalOk.
  rewrite (foldM_guard _ (λ kv, entryOk kv.1 kv.2)
             (λ m kv, assign m kv.1 (inferredEntry kv.1 kv.2)) TypeError).
  2:{ intros m [k v]. cbn [fst snd]. rewrite inferMapping_eq.
      by destruct (entryOk k v). }
  rewrite forallb_entries.
  destruct (match _ !! "interval" with Some v => _ | None => true end);
    [|reflexivity].
  cbn [mbind result_bind mret result_ret]. unfold inferredDescriptor.
  match goal with
  | |- context [VObj (fold_left ?f ?l ?m)] =>
      assert (fold_left f l m = inferredMappings sample) as ->;
        [|reflexivity]
  end.
  unfold inferredMappings. apply map_eq. intros j.
  rewrite fold_assign_lookup by apply NoDup_fst_map_to_list.
  rewrite list_to_map_to_list, lookup_empty, map_lookup_imap.
  destruct (String.eqb j "__proto__") eqn:Ej.
  - apply String.eqb_eq in Ej as ->. by rewrite lookup_delete_eq.
  - apply String.eqb_neq in Ej. rewrite lookup_delete_ne by done.
    by destruct (_ !! j).
Qed.

End Loops.
Section MergeFacts.
Context `{Host}.

(** C9: on the empty input the merger returns the canonical empty
    response. *)
Theorem merge_empty :
  mergeMultiTenant [] =
    Ok {| records := []; types := []; metadata := VObj ∅; metrics := [] |}.
Proof. reflexivity. Qed.

Lemma allRecords_stamped (rs : list TenantResponse) :
  (normalizeTenant <$> rs) ≫= n_records = rs ≫= stamped.
Proof.
  induction rs as [|r rs IH]; [reflexivity|].
  rewrite fmap_cons, !bind_cons, IH. reflexivity.
Qed.

(** The merger on a non-empty input, the loops replaced by their values. *)
Lemma merge_cons_eq r rs :
  let normalized := normalizeTenant <$> (r :: rs) in
  let allRecords := (r :: rs) ≫= stamped in
  let baseMeta := or_else (metadata (normalize (json r))) (VObj ∅) in
  let st := fold_left accumulate normalized (zeroTotals, ∅) in
  mergeMultiTenant (r :: rs) =
    types0 ← mergedType (normalizeTenant r) allRecords;
    if forallb countersOk normalized
    then widened ← globalTimeframe allRecords baseMeta;
         metadata ←
           (let md := mergedMetadata widened (tzCandidate normalized)
                        (or_else (get baseMeta "grail") (VObj ∅)) st.1 st.2 in
            if ToBoolean (get md "grail")
            then (rewriteQuery "canonicalQuery" md ≫= rewriteQuery "query")
            else Ok md);
         mret {| records := allRecords; types := [types0];
                 metadata := metadata;
                 metrics := metrics (normalize (json r)) |}
    else Throw TypeError.
Proof.
  cbn zeta. unfold mergeMultiTenant. rewrite fmap_cons.
  rewrite <- (fmap_cons normalizeTenant), allRecords_stamped.
  rewrite fmap_cons. cbn zeta.
  rewrite <- (fmap_cons normalizeTenant).
  destruct (mergedType _ _) as [types0|]; [|reflexivity].
  cbn [mbind result_bind]. rewrite tally_fold.
  destruct (forallb countersOk _); [|reflexivity].
  cbn [mbind result_bind].
  destruct (fold_left accumulate _ _) as [totals perTenant].
  reflexivity.
Qed.

(** What a returning run of the merger on a non-empty input computed. *)
Lemma merge_cons_inv r rs out :
  mergeMultiTenant (r :: rs) = Ok out →
  let normalized := normalizeTenant <$> (r :: rs) in
  let allRecords := (r :: rs) ≫= stamped in
  let baseMeta := or_else (metadata (normalize (json r))) (VObj ∅) in
  let st := fold_left accumulate normalized (zeroTotals, ∅) in
  ∃ types0 widened,
    mergedType (normalizeTenant r) allRecords = Ok types0
    ∧ globalTimeframe allRecords baseMeta = Ok widened
    ∧ records out = allRecords
    ∧ types out = [types0]
    ∧ metrics out = metrics (normalize (json r))
    ∧ (let md := mergedMetadata widened (tzCandidate normalized)
                   (or_else (get baseMeta "grail") (VObj ∅)) st.1 st.2 in
       if ToBoolean (get md "grail")
       then (rewriteQuery "canonicalQuery" md ≫= rewriteQuery "query")
       else Ok md) = Ok (metadata out).
Proof.
  rewrite merge_cons_eq. cbn zeta.
  destruct (mergedType _ _) as [types0|] eqn:Ht; [|discriminate].
  cbn [mbind result_bind].
  destruct (forallb countersOk _); [|discriminate].
  destruct (globalTimeframe _ _) as [widened|] eqn:Hw; [|discriminate].
  cbn [mbind result_bind].
  intros Hout. exists types0, widened.
  split; [reflexivity|]. split; [reflexivity|].
  match type of Hout with
  | context [if ?c then ?a else ?b] =>
      destruct (if c then a else b) as [md|] eqn:Hmd; [|discriminate]
  end.
  cbn in Hout. injection Hout as <-. cbn.
  repeat split; exact Hmd.
Qed.

Lemma merge_records rs out :
  mergeMultiTenant rs = Ok out → records out = rs ≫= stamped.
Proof.
  destruct rs as [|r rs].
  - intros [= <-]. reflexivity.
  - intros Hm. apply merge_cons_inv in Hm as (? & ? & _ & _ & Hr & _).
    exact Hr.
Qed.

Lemma length_stamped_all (rs : list TenantResponse) :
  length (rs ≫= stamped) =
    sum_list ((λ r, length (records (normalize (json r)))) <$> rs).
Proof.
  induction rs as [|r rs IH]; [reflexivity|].
  rewrite bind_cons, length_app, IH, fmap_cons. cbn [sum_list].
  unfold stamped at 1. rewrite length_fmap. reflexivity.
Qed.

(** C8: the merged records are the tenants' stamped records, each tenant's
    in its own order and the tenants in input order; their number is the sum
    of the numbers of records that [normalize] finds in the payloads. *)
Theorem merge_records_conserved rs out :
  mergeMultiTenant rs = Ok out →
  records out =
    concat ((λ r, withTenant (tenant r) <$> records (normalize (json r))) <$> rs)
  ∧ length (records out) =
      sum_list ((λ r, length (records (normalize (json r)))) <$> rs).
Proof.
  intros Hm. apply merge_records in Hm. rewrite Hm. split.
  - clear. induction rs as [|r rs IH]; [reflexivity|].
    rewrite bind_cons, fmap_cons, IH. reflexivity.
  - apply length_stamped_all.
Qed.

Lemma withTenant_tenant t row : get (withTenant t row) "tenant" = VStr t.
Proof. unfold withTenant, get. rewrite lookup_insert_eq. reflexivity. Qed.

Lemma withTenant_other t row k :
  k ≠ "tenant" → ownProps (withTenant t row) !! k = ownProps row !! k.
Proof. intros Hk. unfold withTenant. cbn [ownProps]. by rewrite lookup_insert_ne. Qed.

(** C4: every merged record is a row of some tenant's payload, stamped with
    that tenant's identifier under [tenant] (whatever the row held there),
    all the other fields of the row being carried over unchanged. *)
Theorem merge_records_tenant rs out rec :
  mergeMultiTenant rs = Ok out →
  rec ∈ records out →
  ∃ r row,
    r ∈ rs ∧ row ∈ records (normalize (json r))
    ∧ rec = withTenant (tenant r) row
    ∧ get rec "tenant" = VStr (tenant r)
    ∧ ∀ k, k ≠ "tenant" → ownProps rec !! k = ownProps row !! k.
Proof.
  intros Hm Hin. apply merge_records in Hm. rewrite Hm in Hin.
  apply list_elem_of_bind in Hin as (r & Hrec & Hr).
  unfold stamped in Hrec. apply list_elem_of_fmap in Hrec as (row & -> & Hrow).
  exists r, row. repeat split; try assumption.
  - apply withTenant_tenant.
  - intros k Hk. by apply withTenant_other.
Qed.

(** *** The counters *)

(** The four keys of one tenant's breakdown. *)
Definition breakdownKeys (t : string) : list string :=
  [ "scannedRecords-" +:+ t; "scannedBytes-" +:+ t;
    "scannedDataPoints-" +:+ t; "executionTimeMilliseconds-" +:+ t ].

Ltac key_neq :=
  let E := fresh in intros E; cbn in E; simplify_eq.

Lemma accumulate_lookup st n k :
  (accumulate st n).2 !! k =
    if decide (k = "executionTimeMilliseconds-" +:+ n_tenant n)
    then Some (VNum (executionTimeMilliseconds (counters n)))
    else if decide (k = "scannedDataPoints-" +:+ n_tenant n)
    then Some (VNum (scannedDataPoints (counters n)))
    else if decide (k = "scannedBytes-" +:+ n_tenant n)
    then Some (VNum (scannedBytes (counters n)))
    else if decide (k = "scannedRecords-" +:+ n_tenant n)
    then Some (VNum (scannedRecords (counters n)))
    else st.2 !! k.
Proof.
  destruct st as [totals perTenant]. cbn [accumulate snd].
  repeat (rewrite lookup_insert; case_decide; subst;
          [rewrite ?decide_True by reflexivity; reflexivity
          |rewrite decide_False by congruence]).
  reflexivity.
Qed.

Lemma accumulate_lookup_other st n k :
  k ∉ breakdownKeys (n_tenant n) → (accumulate st n).2 !! k = st.2 !! k.
Proof.
  intros Hk. rewrite accumulate_lookup. unfold breakdownKeys in Hk.
  repeat (case_decide; [subst; exfalso; apply Hk; set_solver|]).
  reflexivity.
Qed.

(** A key of the breakdown is a breakdown key of some tenant. *)
Lemma perTenant_keys l st k v :
  (fold_left accumulate l st).2 !! k = Some v →
  st.2 !! k = Some v ∨ ∃ n, n ∈ l ∧ k ∈ breakdownKeys (n_tenant n).
Proof.
  revert st. induction l as [|n l IH]; intros st; cbn [fold_left].
  - by left.
  - intros Hk. apply IH in Hk as [Hk|(n' & Hn' & Hk)].
    + destruct (decide (k ∈ breakdownKeys (n_tenant n))) as [Hin|Hin].
      * right. exists n. split; [left|assumption].
      * left. by rewrite accumulate_lookup_other in Hk.
    + right. exists n'. split; [by right|assumption].
Qed.

(** The breakdown keys of the last tenant with a given identifier hold that
    tenant's counters. *)
Lemma perTenant_last l1 n l2 st :
  (∀ n', n' ∈ l2 → n_tenant n' ≠ n_tenant n) →
  let p := (fold_left accumulate (l1 ++ n :: l2) st).2 in
  p !! ("scannedRecords-" +:+ n_tenant n)
    = Some (VNum (scannedRecords (counters n)))
  ∧ p !! ("scannedBytes-" +:+ n_tenant n)
    = Some (VNum (scannedBytes (counters n)))
  ∧ p !! ("scannedDataPoints-" +:+ n_tenant n)
    = Some (VNum (scannedDataPoints (counters n)))
  ∧ p !! ("executionTimeMilliseconds-" +:+ n_tenant n)
    = Some (VNum (executionTimeMilliseconds (counters n))).
Proof.
  intros Hl2. cbn zeta. rewrite fold_left_app. cbn [fold_left].
  generalize (fold_left accumulate l1 st). intros st1.
  assert (Hkeep : ∀ k, k ∈ breakdownKeys (n_tenant n) → ∀ st',
            (fold_left accumulate l2 st').2 !! k = st'.2 !! k).
  { intros k Hk. induction l2 as [|n' l2 IH]; intros st'; [reflexivity|].
    cbn [fold_left]. rewrite IH by (intros; apply Hl2; by right).
    apply accumulate_lookup_other. intros Hk'.
    assert (n_tenant n' ≠ n_tenant n) as Hne by (apply Hl2; left).
    apply Hne. unfold breakdownKeys in Hk, Hk'.
    set_unfold. cbn in Hk, Hk'.
    destruct Hk as [->|[->|[->|[->|[]]]]];
      destruct Hk' as [Hk'|[Hk'|[Hk'|[Hk'|[]]]]]; simplify_eq; reflexivity. }
  rewrite !Hkeep by (unfold breakdownKeys; set_solver).
  rewrite !accumulate_lookup.
  repeat split; repeat case_decide; try reflexivity;
    repeat match goal with
           | E : _ +:+ _ = _ +:+ _ |- _ => cbn in E; simplify_eq
           end;
    congruence.
Qed.

(** The running totals are the left-to-right sums of the tenants'
    counters. *)
Definition sumNumbers (l : list float) : float :=
  fold_left PrimFloat.add l 0%float.

Lemma totals_fold (proj : Totals → float) l st :
  (∀ st n, proj (accumulate st n).1 = (proj st.1 + proj (counters n))%float) →
  proj (fold_left accumulate l st).1 =
    fold_left PrimFloat.add ((λ n, proj (counters n)) <$> l) (proj st.1).
Proof.
  intros Hp. revert st. induction l as [|n l IH]; intros st; [reflexivity|].
  cbn [fold_left fmap list_fmap]. rewrite IH, Hp. reflexivity.
Qed.

Lemma accumulate_totals st n :
  scannedRecords (accumulate st n).1
    = (scannedRecords st.1 + scannedRecords (counters n))%float
  ∧ scannedBytes (accumulate st n).1
    = (scannedBytes st.1 + scannedBytes (counters n))%float
  ∧ scannedDataPoints (accumulate st n).1
    = (scannedDataPoints st.1 + scannedDataPoints (counters n))%float
  ∧ executionTimeMilliseconds (accumulate st n).1
    = (executionTimeMilliseconds st.1
       + executionTimeMilliseconds (counters n))%float.
Proof. destruct st. repeat split. Qed.

(** *** The shape of the merged metadata *)

Lemma globalTimeframe_inv recs baseMeta widened :
  globalTimeframe recs baseMeta = Ok widened →
  ∃ tf,
    widened =
      VObj (<["grail" :=
                VObj (<["analysisTimeframe" := tf]>
                        (ownProps (nullish_else (get baseMeta "grail") (VObj ∅))))]>
              (ownProps baseMeta)).
Proof.
  unfold globalTimeframe. rewrite scan_bounds.
  destruct (forallb timeframeOk recs); [|discriminate].
  cbn [mbind result_bind]. destruct (bounds recs) as [minS maxE].
  destruct (isFinite minS && isFinite maxE).
  - destruct (toISOString minS) as [s|]; [|discriminate].
    destruct (toISOString maxE) as [e|]; [|discriminate].
    cbn. intros [= <-]. eexists. reflexivity.
  - cbn. intros [= <-]. eexists. reflexivity.
Qed.

Lemma rewriteQuery_obj k M G :
  M !! "grail" = Some (VObj G) →
  rewriteQuery k (VObj M) =
    Ok (VObj (<["grail" :=
                 VObj (<[k := addTenantToBy (default VUndefined (G !! k))]> G)]> M)).
Proof.
  intros HG. unfold rewriteQuery, getT, get. cbn. rewrite HG. reflexivity.
Qed.

(** The grail of the merged metadata before the rewrite of the query
    texts: [base] stands for the own properties of the widened grail. *)
Definition grailLiteral (base : gmap string value) (tz : value)
    (totals : Totals) (perTenant : gmap string value) : gmap string value :=
  perTenant ∪
    <["scannedDataPoints" := VNum (scannedDataPoints totals)]>
      (<["scannedBytes" := VNum (scannedBytes totals)]>
         (<["scannedRecords" := VNum (scannedRecords totals)]>
            (<["timezone" := tz]> base))).

(** The grail after the rewrite. *)
Definition grailRewritten (G : gmap string value) : gmap string value :=
  <["query" := addTenantToBy (default VUndefined (G !! "query"))]>
    (<["canonicalQuery" :=
         addTenantToBy (default VUndefined (G !! "canonicalQuery"))]> G).

Lemma merge_metadata r rs out :
  mergeMultiTenant (r :: rs) = Ok out →
  let normalized := normalizeTenant <$> (r :: rs) in
  let baseMeta := or_else (metadata (normalize (json r))) (VObj ∅) in
  let baseGrail := or_else (get baseMeta "grail") (VObj ∅) in
  let st := fold_left accumulate normalized (zeroTotals, ∅) in
  let tz := or_else (or_else (tzCandidate normalized)
                       (get baseGrail "timezone")) (VStr "Z") in
  ∃ tf M,
    let base := <["analysisTimeframe" := tf]>
                  (ownProps (nullish_else (get baseMeta "grail") (VObj ∅))) in
    globalTimeframe ((r :: rs) ≫= stamped) baseMeta =
      Ok (VObj (<["grail" := VObj base]> (ownProps baseMeta)))
    ∧ metadata out = VObj M
    ∧ M !! "grail" = Some (VObj (grailRewritten (grailLiteral base tz st.1 st.2)))
    ∧ M !! "executionTimeMilliseconds"
        = Some (VNum (executionTimeMilliseconds st.1))
    ∧ ∀ k, k ≠ "grail" → k ≠ "executionTimeMilliseconds" →
           M !! k = ownProps baseMeta !! k.
Proof.
  intros Hm. apply merge_cons_inv in Hm as (t0 & w & _ & Hw & _ & _ & _ & Hmd).
  cbn zeta in *.
  destruct (globalTimeframe_inv _ _ _ Hw) as [tf ->].
  exists tf. unfold mergedMetadata in Hmd.
  set (st := fold_left accumulate _ _) in *.
  cbn [get or_else ToBoolean ownProps] in Hmd.
  rewrite !lookup_insert_eq in Hmd. cbn [default ToBoolean ownProps] in Hmd.
  rewrite lookup_insert_ne, lookup_insert_eq in Hmd by done.
  cbn [default ToBoolean] in Hmd.
  erewrite rewriteQuery_obj in Hmd
    by (rewrite lookup_insert_ne by done; apply lookup_insert_eq).
  cbn [mbind result_bind] in Hmd.
  erewrite rewriteQuery_obj in Hmd by apply lookup_insert_eq.
  injection Hmd as Hmd. eexists. split; [exact Hw|]. split; [symmetry; exact Hmd|].
  rewrite !insert_insert_eq.
  split; [|split].
  - rewrite lookup_insert_eq. unfold grailRewritten, grailLiteral.
    rewrite (lookup_insert_ne _ "canonicalQuery" "query") by done.
    reflexivity.
  - rewrite lookup_insert_ne, lookup_insert_eq by done. reflexivity.
  - intros k Hk1 Hk2. rewrite !lookup_insert_ne by done. reflexivity.
Qed.

Ltac not_breakdown :=
  unfold breakdownKeys; set_unfold; cbn; intros; intuition simplify_eq.

Lemma perTenant_plain l k :
  (∀ t, k ∉ breakdownKeys t) →
  (fold_left accumulate l (zeroTotals, ∅)).2 !! k = None.
Proof.
  intros Hk. destruct (_ !! k) as [v|] eqn:E; [|reflexivity].
  apply perTenant_keys in E as [E|(n & _ & Hn)].
  - cbn in E. by rewrite lookup_empty in E.
  - by apply Hk in Hn.
Qed.

Lemma perTenant_mono l st k :
  is_Some (st.2 !! k) → is_Some ((fold_left accumulate l st).2 !! k).
Proof.
  revert st. induction l as [|n l IH]; intros st Hs; [exact Hs|].
  cbn [fold_left]. apply IH. rewrite accumulate_lookup.
  repeat (case_decide; [eexists; reflexivity|]). exact Hs.
Qed.

Lemma perTenant_present l st n k :
  n ∈ l → k ∈ breakdownKeys (n_tenant n) →
  is_Some ((fold_left accumulate l st).2 !! k).
Proof.
  intros Hn Hk. revert st. induction Hn as [n l|n n' l Hn IH]; intros st.
  - cbn [fold_left]. apply perTenant_mono. rewrite accumulate_lookup.
    unfold breakdownKeys in Hk. set_unfold.
    repeat (case_decide; [eexists; reflexivity|]).
    exfalso. intuition congruence.
  - cbn [fold_left]. by apply IH.
Qed.

Lemma grailRewritten_other G k :
  k ≠ "query" → k ≠ "canonicalQuery" → grailRewritten G !! k = G !! k.
Proof. intros. unfold grailRewritten. by rewrite !lookup_insert_ne. Qed.

Lemma grailRewritten_mono G k : is_Some (G !! k) → is_Some (grailRewritten G !! k).
Proof.
  intros HG. unfold grailRewritten.
  rewrite !lookup_insert. repeat (case_decide; [eexists; reflexivity|]). exact HG.
Qed.

Lemma grailLiteral_breakdown base tz totals perTenant k v :
  perTenant !! k = Some v → grailLiteral base tz totals perTenant !! k = Some v.
Proof. intros Hk. unfold grailLiteral. by apply lookup_union_Some_l. Qed.

Lemma grailLiteral_plain base tz totals perTenant k :
  perTenant !! k = None →
  grailLiteral base tz totals perTenant !! k =
    (<["scannedDataPoints" := VNum (scannedDataPoints totals)]>
       (<["scannedBytes" := VNum (scannedBytes totals)]>
          (<["scannedRecords" := VNum (scannedRecords totals)]>
             (<["timezone" := tz]> base)))) !! k.
Proof. intros Hk. unfold grailLiteral. by rewrite lookup_union_r. Qed.

(** C10: on a non-empty input the merged metadata is a mapping whose
    [grail] is a mapping holding [timezone], [scannedRecords],
    [scannedBytes] and [scannedDataPoints] and, for every input tenant, the
    four tenant-suffixed breakdown keys; the top level holds
    [executionTimeMilliseconds]. *)
Theorem merge_metadata_keys rs out :
  rs ≠ [] →
  mergeMultiTenant rs = Ok out →
  ∃ M G,
    metadata out = VObj M
    ∧ M !! "grail" = Some (VObj G)
    ∧ is_Some (M !! "executionTimeMilliseconds")
    ∧ is_Some (G !! "timezone")
    ∧ is_Some (G !! "scannedRecords")
    ∧ is_Some (G !! "scannedBytes")
    ∧ is_Some (G !! "scannedDataPoints")
    ∧ ∀ r, r ∈ rs →
        is_Some (G !! ("scannedRecords-" +:+ tenant r))
        ∧ is_Some (G !! ("scannedBytes-" +:+ tenant r))
        ∧ is_Some (G !! ("scannedDataPoints-" +:+ tenant r))
        ∧ is_Some (G !! ("executionTimeMilliseconds-" +:+ tenant r)).
Proof.
  intros Hne Hm. destruct rs as [|r0 rs]; [done|].
  apply merge_metadata in Hm as (tf & M & _ & HM & HG & He & _).
  cbn zeta in HG, He. eexists M, _. split; [exact HM|]. split; [exact HG|].
  split; [by rewrite He|].
  set (st := fold_left accumulate _ _) in *.
  repeat split.
  1-4: apply grailRewritten_mono; rewrite grailLiteral_plain
         by (apply perTenant_plain; not_breakdown);
       rewrite ?(lookup_insert_ne _ _ _ _) by done;
       rewrite lookup_insert_eq; by eexists.
  all: apply grailRewritten_mono;
       match goal with
       | |- is_Some (_ !! ?k) =>
           destruct (perTenant_present (normalizeTenant <$> (r0 :: rs))
                       (zeroTotals, ∅) (normalizeTenant r) k) as [v Hv]
       end;
       [ by apply list_elem_of_fmap_2
       | unfold breakdownKeys; cbn [n_tenant normalizeTenant];
         repeat first [apply list_elem_of_here | apply list_elem_of_further]
       | eexists; apply grailLiteral_breakdown; exact Hv ].
Qed.

(** *** Reading the counters *)

(** A counter as the merger reads it: a falsy value (missing, null, 0, NaN,
    the empty string, false) counts for zero, any other value for its
    conversion to a number. *)
Definition counterOf (v : value) : float :=
  if ToBoolean v then NumberOf v else 0%float.

(** The counters of one tenant, read from the metadata of its normalized
    payload: the three scanned counters under [grail], the execution time at
    the top level when it is truthy there and under [grail] otherwise. *)
Definition tenantCounters (r : TenantResponse) : Totals :=
  let md := metadata (normalize (json r)) in
  let g := get md "grail" in
  {| scannedRecords := counterOf (get g "scannedRecords");
     scannedBytes := counterOf (get g "scannedBytes");
     scannedDataPoints := counterOf (get g "scannedDataPoints");
     executionTimeMilliseconds :=
       if ToBoolean (get md "executionTimeMilliseconds")
       then NumberOf (get md "executionTimeMilliseconds")
       else counterOf (get g "executionTimeMilliseconds") |}.

Lemma get_obj_lookup M k v : M !! k = Some v → get (VObj M) k = v.
Proof. intros E. unfold get. by rewrite E. Qed.

Lemma get_or_else_obj v k : get (or_else v (VObj ∅)) k = get v k.
Proof.
  unfold or_else. destruct (ToBoolean v) eqn:E; [reflexivity|].
  destruct v; try discriminate E; reflexivity.
Qed.

Lemma NumberOf_or_else_zero v : NumberOf (or_else v (VNum 0)) = counterOf v.
Proof. unfold or_else, counterOf. by destruct (ToBoolean v). Qed.

Lemma counters_tenant r : counters (normalizeTenant r) = tenantCounters r.
Proof.
  unfold counters, tenantCounters. cbn [n_metadata normalizeTenant].
  rewrite !get_or_else_obj, !NumberOf_or_else_zero. f_equal.
  unfold or_else.
  destruct (ToBoolean (get (metadata (normalize (json r)))
                         "executionTimeMilliseconds")) eqn:E;
    [|reflexivity].
  unfold counterOf. by rewrite E.
Qed.

Lemma merge_totals (proj : Totals → float) (rs : list TenantResponse) :
  proj zeroTotals = 0%float →
  (∀ st n, proj (accumulate st n).1 = (proj st.1 + proj (counters n))%float) →
  proj (fold_left accumulate (normalizeTenant <$> rs) (zeroTotals, ∅)).1 =
    sumNumbers ((λ r, proj (tenantCounters r)) <$> rs).
Proof.
  intros H0 Hp. rewrite (totals_fold proj) by exact Hp. cbn [fst]. rewrite H0.
  unfold sumNumbers. f_equal. rewrite <- list_fmap_compose.
  apply list_fmap_ext. intros _ r _. cbn. by rewrite counters_tenant.
Qed.

(** The claim C3 as stated, the counters being read as the code reads
    them: all four sums are totals under [grail], next to the per-tenant
    keys. *)
Definition counters_stated (rs : list TenantResponse) (out : Response) : Prop :=
  let g := get (metadata out) "grail" in
  get g "scannedRecords"
    = VNum (sumNumbers ((λ r, scannedRecords (tenantCounters r)) <$> rs))
  ∧ get g "scannedBytes"
    = VNum (sumNumbers ((λ r, scannedBytes (tenantCounters r)) <$> rs))
  ∧ get g "scannedDataPoints"
    = VNum (sumNumbers ((λ r, scannedDataPoints (tenantCounters r)) <$> rs))
  ∧ get g "executionTimeMilliseconds"
    = VNum (sumNumbers
              ((λ r, executionTimeMilliseconds (tenantCounters r)) <$> rs))
  ∧ ∀ r, r ∈ rs →
      get g ("scannedRecords-" +:+ tenant r)
        = VNum (scannedRecords (tenantCounters r))
      ∧ get g ("executionTimeMilliseconds-" +:+ tenant r)
        = VNum (executionTimeMilliseconds (tenantCounters r)).

(** C3 (amended): on a non-empty input the merged [grail] holds the sums,
    over the tenants in input order, of the three scanned counters, the
    merged metadata holds the sum of the execution times at its top level
    (not under [grail]), and [grail] holds at the same time, for every
    tenant, the four keys [<counter>-<tenant>] with the counters of that
    tenant (of its last occurrence when an identifier occurs more than
    once); every counter is read as [tenantCounters] says. *)
Theorem merge_counters rs out :
  rs ≠ [] →
  mergeMultiTenant rs = Ok out →
  let g := get (metadata out) "grail" in
  get g "scannedRecords"
    = VNum (sumNumbers ((λ r, scannedRecords (tenantCounters r)) <$> rs))
  ∧ get g "scannedBytes"
    = VNum (sumNumbers ((λ r, scannedBytes (tenantCounters r)) <$> rs))
  ∧ get g "scannedDataPoints"
    = VNum (sumNumbers ((λ r, scannedDataPoints (tenantCounters r)) <$> rs))
  ∧ get (metadata out) "executionTimeMilliseconds"
    = VNum (sumNumbers
              ((λ r, executionTimeMilliseconds (tenantCounters r)) <$> rs))
  ∧ ∀ l1 r l2,
      rs = l1 ++ r :: l2 →
      (∀ r', r' ∈ l2 → tenant r' ≠ tenant r) →
      get g ("scannedRecords-" +:+ tenant r)
        = VNum (scannedRecords (tenantCounters r))
      ∧ get g ("scannedBytes-" +:+ tenant r)
        = VNum (scannedBytes (tenantCounters r))
      ∧ get g ("scannedDataPoints-" +:+ tenant r)
        = VNum (scannedDataPoints (tenantCounters r))
      ∧ get g ("executionTimeMilliseconds-" +:+ tenant r)
        = VNum (executionTimeMilliseconds (tenantCounters r)).
Proof.
  intros Hne Hm. destruct rs as [|r0 rs]; [done|].
  apply merge_metadata in Hm as (tf & M & _ & HM & HG & He & _).
  cbn zeta in HG, He |- *. rewrite HM.
  rewrite (get_obj_lookup _ _ _ HG), (get_obj_lookup _ _ _ He).
  set (st := fold_left accumulate _ _) in *.
  split_and!.
  - apply get_obj_lookup.
    rewrite grailRewritten_other, grailLiteral_plain
      by first [done | apply perTenant_plain; not_breakdown].
    rewrite !lookup_insert_ne, lookup_insert_eq by done.
    do 2 f_equal. apply (merge_totals scannedRecords); [reflexivity|].
    intros; apply accumulate_totals.
  - apply get_obj_lookup.
    rewrite grailRewritten_other, grailLiteral_plain
      by first [done | apply perTenant_plain; not_breakdown].
    rewrite !lookup_insert_ne, lookup_insert_eq by done.
    do 2 f_equal. apply (merge_totals scannedBytes); [reflexivity|].
    intros; apply accumulate_totals.
  - apply get_obj_lookup.
    rewrite grailRewritten_other, grailLiteral_plain
      by first [done | apply perTenant_plain; not_breakdown].
    rewrite lookup_insert_eq.
    do 2 f_equal. apply (merge_totals scannedDataPoints); [reflexivity|].
    intros; apply accumulate_totals.
  - f_equal. apply (merge_totals executionTimeMilliseconds); [reflexivity|].
    intros; apply accumulate_totals.
  - intros l1 r l2 Hrs Hlast.
    assert (Hn : normalizeTenant <$> r0 :: rs =
                 (normalizeTenant <$> l1) ++ normalizeTenant r
                   :: (normalizeTenant <$> l2)).
    { rewrite Hrs, fmap_app, fmap_cons. reflexivity. }
    destruct (perTenant_last (normalizeTenant <$> l1) (normalizeTenant r)
                (normalizeTenant <$> l2) (zeroTotals, ∅))
      as (H1 & H2 & H3 & H4).
    { intros n' Hn'. apply list_elem_of_fmap in Hn' as (r' & -> & Hr').
      cbn [n_tenant normalizeTenant]. by apply Hlast. }
    cbn zeta in H1, H2, H3, H4. rewrite <- Hn in H1, H2, H3, H4.
    cbn [n_tenant normalizeTenant] in H1, H2, H3, H4.
    rewrite counters_tenant in H1, H2, H3, H4.
    split_and!; apply get_obj_lookup;
      (rewrite grailRewritten_other by key_neq);
      apply grailLiteral_breakdown; assumption.
Qed.

(** *** The timezone *)

(** The timezone that a tenant reports. *)
Definition tzOf (r : TenantResponse) : value :=
  get (get (metadata (normalize (json r))) "grail") "timezone".

(** A reported timezone that is truthy and not the sentinel: the test
    [z && z !== "Z"] of the merger. *)
Definition meaningful (z : value) : bool := ToBoolean z && negb (is_Z z).

(** The claim C6 as stated: a timezone is present when the tenant reports
    one, that is when it is neither undefined nor null. *)
Definition present (z : value) : bool := negb (is_nullish z).

Definition timezone_stated (rs : list TenantResponse) (out : Response) : Prop :=
  let tz := get (get (metadata out) "grail") "timezone" in
  (∀ l1 r l2,
     rs = l1 ++ r :: l2 →
     present (tzOf r) && negb (is_Z (tzOf r)) = true →
     (∀ r', r' ∈ l1 → present (tzOf r') && negb (is_Z (tzOf r')) = false) →
     tz = tzOf r)
  ∧ ((∀ r, r ∈ rs → present (tzOf r) && negb (is_Z (tzOf r)) = false) →
     ∀ r0, head rs = Some r0 →
       tz = if present (tzOf r0) then tzOf r0 else VStr "Z").

Lemma find_first {A} (f : A → bool) (l1 : list A) (x : A) (l2 : list A) :
  f x = true → (∀ y, y ∈ l1 → f y = false) →
  find f (l1 ++ x :: l2) = Some x.
Proof.
  intros Hx. induction l1 as [|y l1 IH]; intros Hl1; cbn.
  - by rewrite Hx.
  - rewrite (Hl1 y) by left. apply IH. intros; apply Hl1; by right.
Qed.

Lemma find_none_all {A} (f : A → bool) (l : list A) :
  (∀ y, y ∈ l → f y = false) → find f l = None.
Proof.
  induction l as [|y l IH]; intros Hl; cbn; [reflexivity|].
  rewrite (Hl y) by left. apply IH. intros; apply Hl; by right.
Qed.

Lemma merge_timezone_eq r0 rs out :
  mergeMultiTenant (r0 :: rs) = Ok out →
  get (get (metadata out) "grail") "timezone" =
    or_else (or_else (default VUndefined
                        (find meaningful (tzOf <$> r0 :: rs)))
               (tzOf r0))
      (VStr "Z").
Proof.
  intros Hm. apply merge_metadata in Hm as (tf & M & _ & HM & HG & _).
  cbn zeta in HG. rewrite HM, (get_obj_lookup _ _ _ HG).
  apply get_obj_lookup.
  rewrite grailRewritten_other, grailLiteral_plain
    by first [done | apply perTenant_plain; not_breakdown].
  rewrite !lookup_insert_ne, lookup_insert_eq by done.
  rewrite !get_or_else_obj. unfold tzCandidate.
  rewrite <- list_fmap_compose. reflexivity.
Qed.

(** C6 (amended): on a non-empty input the merged timezone is the timezone
    of the first tenant, in input order, that reports a truthy one other
    than ["Z"]; when no tenant does, it is the timezone of the first tenant
    if that one is truthy, and ["Z"] if it is not.  A timezone that is
    reported but falsy (the empty string, 0, false) counts as missing. *)
Theorem merge_timezone rs out :
  rs ≠ [] →
  mergeMultiTenant rs = Ok out →
  let tz := get (get (metadata out) "grail") "timezone" in
  (∀ l1 r l2,
     rs = l1 ++ r :: l2 →
     meaningful (tzOf r) = true →
     (∀ r', r' ∈ l1 → meaningful (tzOf r') = false) →
     tz = tzOf r)
  ∧ ((∀ r, r ∈ rs → meaningful (tzOf r) = false) →
     ∀ r0, head rs = Some r0 →
       tz = if ToBoolean (tzOf r0) then tzOf r0 else VStr "Z").
Proof.
  intros Hne Hm. destruct rs as [|r0 rs]; [done|].
  apply merge_timezone_eq in Hm. cbn zeta. rewrite Hm. split.
  - intros l1 r l2 -> Hr Hl1.
    rewrite fmap_app, fmap_cons.
    rewrite (find_first meaningful _ (tzOf r)); [|exact Hr|].
    + change (default VUndefined (Some (tzOf r))) with (tzOf r).
      unfold meaningful in Hr.
      apply andb_prop in Hr as [Hr _].
      unfold or_else. rewrite Hr. cbv iota. by rewrite Hr.
    + intros z Hz. apply list_elem_of_fmap in Hz as (r' & -> & Hr').
      by apply Hl1.
  - intros Hall r0' [= <-].
    rewrite find_none_all.
    + reflexivity.
    + intros z Hz. apply list_elem_of_fmap in Hz as (r' & -> & Hr').
      by apply Hall.
Qed.

(** *** The merged type descriptor *)

Ltac simpl_default :=
  repeat match goal with
  | |- context [default ?d (Some ?x)] => change (default d (Some x)) with x
  | |- context [default ?d None] => change (default d None) with d
  | |- context [default ?d (head [?x])] => change (default d (head [x])) with x
  end.

Lemma getT_Ok v k x : getT v k = Ok x → x = get v k.
Proof. unfold getT. destruct (is_nullish v); congruence. Qed.

Lemma get_setT_eq o k x o' : setT o k x = Ok o' → get o' k = x.
Proof.
  destruct o; try discriminate; intros [= <-]; unfold get;
    by rewrite lookup_insert_eq.
Qed.

Lemma inferred_tenant_entry (sample : option value) :
  (∀ s, sample = Some s → ∃ t row, s = withTenant t row) →
  let d := inferredDescriptor (default VUndefined sample) in
  ToBoolean (get d "mappings") = true
  ∧ (get (get d "mappings") "tenant" = typeEntry "string"
     ∨ get (get d "mappings") "tenant" = VUndefined).
Proof.
  intros Hs. cbn zeta. unfold inferredDescriptor.
  erewrite get_obj_lookup
    by (rewrite lookup_insert_ne by done; apply lookup_insert_eq).
  split; [reflexivity|].
  unfold get, inferredMappings.
  rewrite map_lookup_imap, lookup_delete_ne by done.
  destruct sample as [s|].
  - destruct (Hs s eq_refl) as (t & row & ->). left.
    simpl_default. cbn [nullish_else withTenant is_nullish ownProps].
    rewrite lookup_insert_eq. reflexivity.
  - right. simpl_default. cbn [nullish_else is_nullish ownProps].
    rewrite lookup_empty. reflexivity.
Qed.

(** The tenant entry of the descriptor that [mergedType] returns: the one
    of the deep copy of the first descriptor when that copy has a truthy
    one, [{type: "string"}] otherwise. *)
Lemma mergedType_tenant n0 recs d :
  (∀ s, head recs = Some s → ∃ t row, s = withTenant t row) →
  mergedType n0 recs = Ok d →
  let entry := get (get d "mappings") "tenant" in
  ToBoolean entry = true
  ∧ match head (n_types n0) with
    | Some b =>
        if ToBoolean b
        then ∃ c, deepClone b = Ok c
                  ∧ entry = or_else (get (get c "mappings") "tenant")
                              (typeEntry "string")
        else entry = typeEntry "string"
    | None => entry = typeEntry "string"
    end.
Proof.
  intros Hrecs. unfold mergedType.
  (* the last two statements of the computation, from a descriptor whose
     mappings are truthy *)
  assert (Hfin : ∀ t0 d, ToBoolean (get t0 "mappings") = true →
    ((if negb (ToBoolean (get t0 "mappings"))
      then setT t0 "mappings" (VObj ∅) else mret t0) ≫= λ types0,
       getT types0 "mappings" ≫= λ mappings,
         if negb (ToBoolean (get mappings "tenant"))
         then setT mappings "tenant" (typeEntry "string") ≫= λ mappings,
                setT types0 "mappings" mappings
         else mret types0) = Ok d →
    ToBoolean (get (get d "mappings") "tenant") = true
    ∧ get (get d "mappings") "tenant" =
        or_else (get (get t0 "mappings") "tenant") (typeEntry "string")).
  { intros t0 d' Ht0. rewrite Ht0. cbn [negb mbind result_bind mret result_ret].
    unfold getT. destruct (is_nullish t0); [discriminate|].
    cbn [mbind result_bind]. unfold or_else.
    destruct (ToBoolean (get (get t0 "mappings") "tenant")) eqn:Hown;
      cbn [negb].
    - intros [= <-]. by rewrite Hown.
    - destruct (setT (get t0 "mappings") "tenant" _) as [m'|] eqn:Hm';
        [|discriminate].
      cbn [mbind result_bind]. intros Hd.
      apply get_setT_eq in Hd. rewrite Hd.
      apply get_setT_eq in Hm'. by rewrite Hm'. }
  (* the inferred descriptor *)
  assert (Hinf :
    ((inferTypesFromRecord (default VUndefined (head recs)) ≫= λ inferred,
        mret (default VUndefined (head inferred)))
       ≫= λ types0,
       (if negb (ToBoolean (get types0 "mappings"))
        then setT types0 "mappings" (VObj ∅) else mret types0) ≫= λ types0,
         getT types0 "mappings" ≫= λ mappings,
           if negb (ToBoolean (get mappings "tenant"))
           then setT mappings "tenant" (typeEntry "string") ≫= λ mappings,
                  setT types0 "mappings" mappings
           else mret types0) = Ok d →
    ToBoolean (get (get d "mappings") "tenant") = true
    ∧ get (get d "mappings") "tenant" = typeEntry "string").
  { rewrite inferTypesFromRecord_eq.
    destruct (intervalOk _); [|discriminate].
    cbn [mbind result_bind mret result_ret]. simpl_default. intros Hd.
    destruct (inferred_tenant_entry (head recs) Hrecs) as [Hm Hentry].
    apply Hfin in Hd as [Htrue Hd]; [|exact Hm].
    split; [exact Htrue|]. rewrite Hd.
    cbn zeta in Hentry. destruct Hentry as [-> | ->]; reflexivity. }
  destruct (head (n_types n0)) as [b0|]; simpl_default;
    [destruct (ToBoolean b0) eqn:Hb|]; [|exact Hinf..].
  (* the first tenant's own descriptor *)
  destruct (deepClone b0) as [c|] eqn:Hc;
    [|cbn [mbind result_bind]; discriminate].
  cbn [mbind result_bind].
  destruct (getT c "mappings") as [m|] eqn:Hgm;
    [|cbn [mbind result_bind]; discriminate].
  apply getT_Ok in Hgm as ->. cbn [mbind result_bind].
  destruct (setT c "mappings" _) as [t0|] eqn:Ht0;
    [|cbn [mbind result_bind]; discriminate].
  cbn [mbind result_bind]. intros Hd.
  pose proof (get_setT_eq _ _ _ _ Ht0) as Hget.
  apply Hfin in Hd as [Htrue Hentry].
  - split; [exact Htrue|]. exists c. split; [reflexivity|].
    cbn zeta. rewrite Hentry, Hget, get_or_else_obj. reflexivity.
  - rewrite Hget. unfold or_else.
    by destruct (ToBoolean (get c "mappings")) eqn:E.
Qed.

Lemma stamped_head (rs : list TenantResponse) s :
  head (rs ≫= stamped) = Some s → ∃ t row, s = withTenant t row.
Proof.
  intros Hs. apply head_Some_elem_of in Hs.
  apply list_elem_of_bind in Hs as (r & Hs & _).
  apply list_elem_of_fmap in Hs as (row & -> & _). eauto.
Qed.

(** The claim C1 as stated: the tenant entry of the merged descriptor is
    always [{type: "string"}]. *)
Definition tenant_entry_stated (rs : list TenantResponse) : Prop :=
  ∀ out, mergeMultiTenant rs = Ok out →
    ∃ d, types out = [d]
         ∧ get (get d "mappings") "tenant" = typeEntry "string".

(** C1 (amended): on a non-empty input the merged [types] is a sequence of
    exactly one descriptor whose [mappings] holds a tenant entry: the entry
    that the deep copy of the first tenant's first descriptor already holds
    when it holds a truthy one, and [{type: "string"}] in every other
    case. *)
Theorem merge_types_tenant rs out :
  rs ≠ [] →
  mergeMultiTenant rs = Ok out →
  ∃ d,
    types out = [d]
    ∧ ToBoolean (get (get d "mappings") "tenant") = true
    ∧ ∀ r0, head rs = Some r0 →
        match head (types (normalize (json r0))) with
        | Some b =>
            if ToBoolean b
            then ∃ c, deepClone b = Ok c
                      ∧ get (get d "mappings") "tenant" =
                          or_else (get (get c "mappings") "tenant")
                            (typeEntry "string")
            else get (get d "mappings") "tenant" = typeEntry "string"
        | None => get (get d "mappings") "tenant" = typeEntry "string"
        end.
Proof.
  intros Hne Hm. destruct rs as [|r0 rs]; [done|].
  apply merge_cons_inv in Hm as (d & w & Hd & _ & _ & Ht & _).
  cbn zeta in Hd. exists d. split; [exact Ht|].
  apply mergedType_tenant in Hd as [Htrue Hd]; [|apply stamped_head].
  split; [exact Htrue|]. intros r0' [= <-]. exact Hd.
Qed.

(** *** The rewrite of the query texts *)

Lemma ownProps_nullish_else v : ownProps (nullish_else v (VObj ∅)) = ownProps v.
Proof. by destruct v. Qed.



(** *** The timeframe widener *)

Lemma length_pad w n : String.length (pad w n) = w.
Proof.
  revert n. induction w as [|w IH]; intros n; [reflexivity|].
  cbn [pad]. rewrite length_app', IH. cbn. lia.
Qed.

(** The text of a time value ends with the time of day to the millisecond
    and the UTC designator. *)
Lemma isoFormat_shape t :
  ∃ date hh mm ss sss,
    isoFormat t =
      date +:+ "T" +:+ hh +:+ ":" +:+ mm +:+ ":" +:+ ss +:+ "." +:+ sss +:+ "Z"
    ∧ String.length hh = 2 ∧ String.length mm = 2
    ∧ String.length ss = 2 ∧ String.length sss = 3.
Proof.
  unfold isoFormat.
  destruct (MonthDate _ _) as [mo d].
  eexists (isoYear _ +:+ "-" +:+ pad 2 mo +:+ "-" +:+ pad 2 d), _, _, _, _.
  split; [|split_and!; apply length_pad].
  rewrite !app_assoc'. reflexivity.
Qed.

(** The bounds are the least finite parsed start and the greatest finite
    parsed end. *)
Lemma bounds_fold recs acc :
  fold_left widen recs acc =
    (fold_left Math_min (filter (λ x, isFinite x = true) (startOf <$> recs)) acc.1,
     fold_left Math_max (filter (λ x, isFinite x = true) (endOf <$> recs)) acc.2).
Proof.
  revert acc. induction recs as [|rec recs IH]; intros [minS maxE];
    [reflexivity|].
  cbn [fold_left fmap list_fmap]. rewrite IH. unfold widen.
  cbn [fst snd]. rewrite !filter_cons.
  destruct (isFinite (startOf rec)) eqn:Es, (isFinite (endOf rec)) eqn:Ee;
    rewrite ?decide_True by done; rewrite ?decide_False by done;
    reflexivity.
Qed.

Lemma bounds_eq recs :
  bounds recs =
    (fold_left Math_min (filter (λ x, isFinite x = true) (startOf <$> recs))
       infinity,
     fold_left Math_max (filter (λ x, isFinite x = true) (endOf <$> recs))
       neg_infinity).
Proof. apply bounds_fold. Qed.

Lemma finite_filtered (l : list float) :
  Forall (λ x, isFinite x = true) (filter (λ x, isFinite x = true) l).
Proof. apply Forall_forall. by intros x [Hx _]%list_elem_of_filter. Qed.

Lemma fold_min_finite l :
  Forall (λ x, isFinite x = true) l →
  (isFinite (fold_left Math_min l infinity) = true ↔ l ≠ [])
  ∧ (l ≠ [] →
     fold_left Math_min l infinity ∈ l
     ∧ ∀ x, x ∈ l → PrimFloat.ltb x (fold_left Math_min l infinity) = false).
Proof.
  intros Hl.
  destruct (fold_min_spec l infinity eq_refl) as [Hin Hle].
  { eapply Forall_impl; [exact Hl|]. intros x. apply isFinite_not_nan. }
  assert (l ≠ [] → fold_left Math_min l infinity ∈ l) as Hmem.
  { intros Hne. apply elem_of_cons in Hin as [Heq|Hin]; [|done].
    destruct l as [|x l]; [done|]. exfalso.
    pose proof (Hle x ltac:(right; left)) as Hx. rewrite Heq in Hx.
    rewrite ltb_finite_infinity in Hx; [done|].
    by apply Forall_cons in Hl as [Hl _]. }
  split_and!.
  - split.
    + intros Hfin ->. cbn in Hfin. discriminate Hfin.
    + intros Hne. apply (proj1 (Forall_forall _ _) Hl). by apply Hmem.
  - intros Hne. split; [by apply Hmem|]. intros x Hx. apply Hle. by right.
Qed.

Lemma fold_max_finite l :
  Forall (λ x, isFinite x = true) l →
  (isFinite (fold_left Math_max l neg_infinity) = true ↔ l ≠ [])
  ∧ (l ≠ [] →
     fold_left Math_max l neg_infinity ∈ l
     ∧ ∀ x, x ∈ l →
         PrimFloat.ltb (fold_left Math_max l neg_infinity) x = false).
Proof.
  intros Hl.
  destruct (fold_max_spec l neg_infinity eq_refl) as [Hin Hle].
  { eapply Forall_impl; [exact Hl|]. intros x. apply isFinite_not_nan. }
  assert (l ≠ [] → fold_left Math_max l neg_infinity ∈ l) as Hmem.
  { intros Hne. apply elem_of_cons in Hin as [Heq|Hin]; [|done].
    destruct l as [|x l]; [done|]. exfalso.
    pose proof (Hle x ltac:(right; left)) as Hx. rewrite Heq in Hx.
    rewrite ltb_neg_infinity_finite in Hx; [done|].
    by apply Forall_cons in Hl as [Hl _]. }
  split_and!.
  - split.
    + intros Hfin ->. cbn in Hfin. discriminate Hfin.
    + intros Hne. apply (proj1 (Forall_forall _ _) Hl). by apply Hmem.
  - intros Hne. split; [by apply Hmem|]. intros x Hx. apply Hle. by right.
Qed.

(** X3: the bounds of the widener.  The loop of [globalTimeframe] leaves
    [bounds recs] in [(minS, maxE)] when every bound of every record can be
    parsed, and throws a TypeError otherwise.  The lower bound is finite
    exactly when some record has a finite parsed start, and it is then the
    least of the finite parsed starts: one of them, and none is below it.
    Dually, the upper bound is the greatest of the finite parsed ends. *)
Theorem bounds_extremal recs :
  let starts := filter (λ x, isFinite x = true) (startOf <$> recs) in
  let ends := filter (λ x, isFinite x = true) (endOf <$> recs) in
  foldM scanRecord recs (infinity, neg_infinity) =
    (if forallb timeframeOk recs then Ok (bounds recs) else Throw TypeError)
  ∧ (isFinite (bounds recs).1 = true ↔ starts ≠ [])
  ∧ (starts ≠ [] →
     (bounds recs).1 ∈ starts
     ∧ ∀ x, x ∈ starts → PrimFloat.ltb x (bounds recs).1 = false)
  ∧ (isFinite (bounds recs).2 = true ↔ ends ≠ [])
  ∧ (ends ≠ [] →
     (bounds recs).2 ∈ ends
     ∧ ∀ x, x ∈ ends → PrimFloat.ltb (bounds recs).2 x = false).
Proof.
  cbn zeta. split; [apply scan_bounds|]. rewrite bounds_eq. cbn [fst snd].
  destruct (fold_min_finite _ (finite_filtered (startOf <$> recs))) as [H1 H2].
  destruct (fold_max_finite _ (finite_filtered (endOf <$> recs))) as [H3 H4].
  split_and!; assumption.
Qed.

(** The widener, by cases: it throws a TypeError when a bound of a record
    cannot be parsed; otherwise it returns the base metadata with
    [grail.analysisTimeframe] rewritten when both bounds are finite and valid
    time values, with [grail.analysisTimeframe] as the base has it when a
    bound is not finite, and throws when a finite bound is not a valid time
    value. *)
Lemma globalTimeframe_cases recs baseMeta :
  let grail := nullish_else (get baseMeta "grail") (VObj ∅) in
  let result tf :=
    Ok (VObj (<["grail" := VObj (<["analysisTimeframe" := tf]> (ownProps grail))]>
                (ownProps baseMeta))) in
  globalTimeframe recs baseMeta =
    if forallb timeframeOk recs
    then if isFinite (bounds recs).1 && isFinite (bounds recs).2
         then match TimeClip (bounds recs).1, TimeClip (bounds recs).2 with
              | Some s, Some e =>
                  result (VObj {[ "start" := VStr (isoFormat s);
                                  "end" := VStr (isoFormat e) ]})
              | _, _ => Throw RangeError
              end
         else result (get grail "analysisTimeframe")
    else Throw TypeError.
Proof.
  cbn zeta. unfold globalTimeframe. rewrite scan_bounds.
  destruct (forallb timeframeOk recs); [|reflexivity].
  cbn [mbind result_bind]. destruct (bounds recs) as [minS maxE].
  cbn [fst snd]. destruct (isFinite minS && isFinite maxE); [|reflexivity].
  unfold toISOString.
  destruct (TimeClip minS), (TimeClip maxE); reflexivity.
Qed.

(** X1: the widener on valid bounds, its fallback, and its failure on a
    bound that cannot be parsed.  When every bound of every record can be
    parsed: if both bounds are finite and valid time values,
    [grail.analysisTimeframe] becomes their ISO texts; if a bound is not
    finite, [grail.analysisTimeframe] is the one of the base metadata; in
    both cases every other field of the base metadata and of its [grail] is
    preserved.  When a bound of a record cannot be parsed (it is an object
    with a property [toString] of its own), the widener throws a
    TypeError. *)
Theorem globalTimeframe_widens recs baseMeta :
  let preserved w :=
    (∀ k, k ≠ "grail" → ownProps w !! k = ownProps baseMeta !! k)
    ∧ (∀ k, k ≠ "analysisTimeframe" →
         ownProps (get w "grail") !! k = ownProps (get baseMeta "grail") !! k) in
  (∀ s e,
     forallb timeframeOk recs = true →
     isFinite (bounds recs).1 && isFinite (bounds recs).2 = true →
     TimeClip (bounds recs).1 = Some s → TimeClip (bounds recs).2 = Some e →
     ∃ w, globalTimeframe recs baseMeta = Ok w
          ∧ get (get w "grail") "analysisTimeframe" =
              VObj {[ "start" := VStr (isoFormat s);
                      "end" := VStr (isoFormat e) ]}
          ∧ preserved w)
  ∧ (forallb timeframeOk recs = true →
     isFinite (bounds recs).1 && isFinite (bounds recs).2 = false →
     ∃ w, globalTimeframe recs baseMeta = Ok w
          ∧ get (get w "grail") "analysisTimeframe" =
              get (get baseMeta "grail") "analysisTimeframe"
          ∧ preserved w)
  ∧ (forallb timeframeOk recs = false →
     globalTimeframe recs baseMeta = Throw TypeError).
Proof.
  cbn zeta.
  assert (Hpres : ∀ tf,
    let w := VObj (<["grail" :=
                      VObj (<["analysisTimeframe" := tf]>
                              (ownProps (nullish_else (get baseMeta "grail")
                                           (VObj ∅))))]>
                     (ownProps baseMeta)) in
    get (get w "grail") "analysisTimeframe" = tf
    ∧ (∀ k, k ≠ "grail" → ownProps w !! k = ownProps baseMeta !! k)
    ∧ (∀ k, k ≠ "analysisTimeframe" →
         ownProps (get w "grail") !! k = ownProps (get baseMeta "grail") !! k)).
  { intros tf w. subst w.
    erewrite (get_obj_lookup _ "grail") by apply lookup_insert_eq.
    split_and!.
    - apply get_obj_lookup, lookup_insert_eq.
    - intros k Hk. cbn [ownProps]. by rewrite lookup_insert_ne.
    - intros k Hk. cbn [ownProps]. rewrite lookup_insert_ne by done.
      by rewrite ownProps_nullish_else. }
  rewrite globalTimeframe_cases. cbn zeta. split_and!.
  - intros s e -> -> -> ->. eexists. split; [reflexivity|]. apply Hpres.
  - intros -> ->. eexists. split; [reflexivity|].
    destruct (Hpres (get (nullish_else (get baseMeta "grail") (VObj ∅))
                       "analysisTimeframe")) as (H1 & H2 & H3).
    split_and!; [|exact H2|exact H3].
    rewrite H1. by destruct (get baseMeta "grail").
  - intros ->. reflexivity.
Qed.

(** *** When the merger returns *)

Definition is_objlike (v : value) : bool :=
  match v with VObj _ | VArr _ _ => true | _ => false end.

(** The first tenant's first type descriptor, when there is a truthy one,
    is an object (or array) whose [mappings], when truthy, is an object (or
    array) too. *)
Definition typesOk (rs : list TenantResponse) : bool :=
  match rs with
  | r0 :: _ =>
      match head (types (normalize (json r0))) with
      | Some b =>
          if ToBoolean b
          then match jsonClone b with
               | Some c =>
                   is_objlike c
                   && (negb (ToBoolean (get c "mappings"))
                       || is_objlike (get c "mappings"))
               | None => false
               end
          else true
      | None => true
      end
  | [] => true
  end.

(** When the descriptor is inferred, that is when the first tenant has no
    truthy first descriptor, the field [interval] of the first merged
    record, if there is one, is a number or can be converted to a string. *)
Definition inferenceOk (rs : list TenantResponse) : bool :=
  match rs with
  | r0 :: _ =>
      ToBoolean (default VUndefined (head (types (normalize (json r0)))))
      || intervalOk (default VUndefined (head (rs ≫= stamped)))
  | [] => true
  end.

(** Every conversion of a run returns: the one of the inference, the ones
    of the four counters of every tenant, and the ones of the two bounds of
    every merged record. *)
Definition conversionsOk (rs : list TenantResponse) : bool :=
  inferenceOk rs
  && forallb countersOk (normalizeTenant <$> rs)
  && forallb timeframeOk (rs ≫= stamped).

(** The bounds of the merged records, when both finite, are valid time
    values. *)
Definition timeOk (rs : list TenantResponse) : bool :=
  let b := bounds (rs ≫= stamped) in
  negb (isFinite b.1 && isFinite b.2)
  || (bool_decide (is_Some (TimeClip b.1))
      && bool_decide (is_Some (TimeClip b.2))).

Lemma setT_objlike o k x : is_objlike o = true → ∃ o', setT o k x = Ok o' ∧ is_objlike o' = true.
Proof. destruct o; try discriminate; intros _; eexists; split; reflexivity. Qed.

Lemma inferredDescriptor_mappings sample :
  get (inferredDescriptor sample) "mappings" = VObj (inferredMappings sample).
Proof.
  unfold inferredDescriptor. apply get_obj_lookup.
  rewrite lookup_insert_ne by done. apply lookup_insert_eq.
Qed.

Lemma mergedType_returns r0 rs recs :
  typesOk (r0 :: rs) = true →
  ToBoolean (default VUndefined (head (types (normalize (json r0)))))
  || intervalOk (default VUndefined (head recs)) = true →
  ∃ d, mergedType (normalizeTenant r0) recs = Ok d.
Proof.
  unfold typesOk, mergedType. cbn [n_types normalizeTenant].
  assert (Hfin : ∀ t0, is_objlike t0 = true →
    ToBoolean (get t0 "mappings") = true →
    is_objlike (get t0 "mappings") = true →
    ∃ d, ((if negb (ToBoolean (get t0 "mappings"))
           then setT t0 "mappings" (VObj ∅) else mret t0) ≫= λ types0,
            getT types0 "mappings" ≫= λ mappings,
              if negb (ToBoolean (get mappings "tenant"))
              then setT mappings "tenant" (typeEntry "string") ≫= λ mappings,
                     setT types0 "mappings" mappings
              else mret types0) = Ok d).
  { intros t0 Ht0 Hm Hmo. rewrite Hm.
    cbn [negb mbind result_bind mret result_ret]. unfold getT.
    destruct t0; try discriminate Ht0; cbn [is_nullish mbind result_bind];
      (destruct (ToBoolean (get _ "tenant")); cbn [negb];
       [by eexists|];
       destruct (setT_objlike _ "tenant" (typeEntry "string") Hmo)
         as (m' & -> & _); cbn [mbind result_bind]; by eexists). }
  assert (Hinf : intervalOk (default VUndefined (head recs)) = true →
    ∃ d, ((inferTypesFromRecord (default VUndefined (head recs))
             ≫= λ inferred, mret (default VUndefined (head inferred)))
          ≫= λ types0,
            (if negb (ToBoolean (get types0 "mappings"))
             then setT types0 "mappings" (VObj ∅) else mret types0)
            ≫= λ types0,
              getT types0 "mappings" ≫= λ mappings,
                if negb (ToBoolean (get mappings "tenant"))
                then setT mappings "tenant" (typeEntry "string")
                       ≫= λ mappings, setT types0 "mappings" mappings
                else mret types0) = Ok d).
  { intros Hi. rewrite inferTypesFromRecord_eq, Hi.
    cbn [mbind result_bind mret result_ret]. simpl_default.
    apply Hfin; [reflexivity|..]; rewrite inferredDescriptor_mappings;
      reflexivity. }
  destruct (head (types (normalize (json r0)))) as [b|]; simpl_default.
  - destruct (ToBoolean b) eqn:Hb.
    + unfold deepClone. destruct (jsonClone b) as [c|]; [|discriminate].
      intros [Hc Hm]%andb_prop _. cbn [mbind result_bind].
      assert (getT c "mappings" = Ok (get c "mappings")) as ->
        by (destruct c; done).
      cbn [mbind result_bind].
      destruct (setT_objlike c "mappings"
                  (or_else (get c "mappings") (VObj ∅)) Hc)
        as (t0 & Ht0 & Hobj).
      rewrite Ht0. cbn [mbind result_bind].
      pose proof (get_setT_eq _ _ _ _ Ht0) as Hget.
      apply Hfin; [exact Hobj|rewrite Hget..]; unfold or_else;
        destruct (ToBoolean (get c "mappings")) eqn:E;
        first [reflexivity | assumption].
    + intros _ Hi. cbn [orb] in Hi. by apply Hinf.
  - intros _ Hi. cbn [ToBoolean orb] in Hi. by apply Hinf.
Qed.

Lemma get_truthy_objlike v k : ToBoolean (get v k) = true → is_objlike v = true.
Proof. by destruct v. Qed.

Lemma setT_Ok_objlike o k x o' : setT o k x = Ok o' → is_objlike o = true.
Proof. by destruct o. Qed.

Lemma mergedType_Ok_typesOk r0 rs recs d :
  mergedType (normalizeTenant r0) recs = Ok d → typesOk (r0 :: rs) = true.
Proof.
  unfold typesOk, mergedType. cbn [n_types normalizeTenant].
  destruct (head (types (normalize (json r0)))) as [b|]; simpl_default;
    [|done].
  destruct (ToBoolean b) eqn:Hb; [|done].
  unfold deepClone. destruct (jsonClone b) as [c|];
    [|cbn [mbind result_bind]; discriminate].
  cbn [mbind result_bind].
  destruct (getT c "mappings") as [m|] eqn:Hgm;
    [|cbn [mbind result_bind]; discriminate].
  apply getT_Ok in Hgm as ->. cbn [mbind result_bind].
  destruct (setT c "mappings" _) as [t0|] eqn:Ht0;
    [|cbn [mbind result_bind]; discriminate].
  pose proof (setT_Ok_objlike _ _ _ _ Ht0) as Hc. rewrite Hc.
  pose proof (get_setT_eq _ _ _ _ Ht0) as Hget.
  cbn [mbind result_bind andb].
  assert (ToBoolean (get t0 "mappings") = true) as Hm.
  { rewrite Hget. unfold or_else.
    by destruct (ToBoolean (get c "mappings")) eqn:E. }
  rewrite Hm. cbn [negb mbind result_bind mret result_ret].
  unfold getT. destruct (is_nullish t0); [discriminate|].
  cbn [mbind result_bind]. rewrite Hget.
  intros Hd.
  assert (is_objlike (or_else (get c "mappings") (VObj ∅)) = true) as Hobj.
  { destruct (ToBoolean (get (or_else (get c "mappings") (VObj ∅)) "tenant"))
      eqn:Et.
    - by apply get_truthy_objlike in Et.
    - cbn [negb] in Hd.
      destruct (setT (or_else (get c "mappings") (VObj ∅)) "tenant" _)
        as [m'|] eqn:Hm'; [|discriminate].
      by apply setT_Ok_objlike in Hm'. }
  unfold or_else in Hobj.
  destruct (ToBoolean (get c "mappings")); [by rewrite Hobj|reflexivity].
Qed.

(** A returning inference converted the field [interval]. *)
Lemma mergedType_Ok_inference r0 recs d :
  mergedType (normalizeTenant r0) recs = Ok d →
  ToBoolean (default VUndefined (head (types (normalize (json r0)))))
  || intervalOk (default VUndefined (head recs)) = true.
Proof.
  unfold mergedType. cbn [n_types normalizeTenant].
  destruct (ToBoolean (default VUndefined
                         (head (types (normalize (json r0))))));
    [reflexivity|].
  rewrite inferTypesFromRecord_eq.
  destruct (intervalOk _); [reflexivity|discriminate].
Qed.

(** The descriptor is computed exactly when the first descriptor is well
    formed and the inference, when there is one, converts the field
    [interval]. *)
Lemma mergedType_Ok_iff r0 rs :
  (∃ d, mergedType (normalizeTenant r0) ((r0 :: rs) ≫= stamped) = Ok d)
  ↔ typesOk (r0 :: rs) = true ∧ inferenceOk (r0 :: rs) = true.
Proof.
  split.
  - intros [d Hd]. split.
    + by eapply mergedType_Ok_typesOk.
    + by eapply mergedType_Ok_inference.
  - intros [Ht Hi]. by eapply mergedType_returns.
Qed.

(** The widener returns exactly when every bound can be parsed and the
    bounds, when both finite, are valid time values. *)
Lemma globalTimeframe_Ok_iff rs baseMeta :
  (∃ w, globalTimeframe (rs ≫= stamped) baseMeta = Ok w)
  ↔ forallb timeframeOk (rs ≫= stamped) = true ∧ timeOk rs = true.
Proof.
  unfold timeOk. cbn zeta. rewrite globalTimeframe_cases. cbn zeta.
  destruct (forallb timeframeOk _).
  2:{ split; [intros [w Hw]; discriminate|intros [? _]; discriminate]. }
  destruct (isFinite (bounds (rs ≫= stamped)).1
            && isFinite (bounds (rs ≫= stamped)).2); cbn [negb orb].
  - destruct (TimeClip (bounds (rs ≫= stamped)).1) as [s|],
      (TimeClip (bounds (rs ≫= stamped)).2) as [e|].
    + split; [intros _; split; [reflexivity|]|intros _; by eexists].
      rewrite !bool_decide_eq_true_2 by (by eexists). reflexivity.
    + split; [intros [w Hw]; discriminate|intros [_ Hb]].
      apply andb_prop in Hb as [_ Hb].
      apply bool_decide_eq_true in Hb as [? Hb]. discriminate.
    + split; [intros [w Hw]; discriminate|intros [_ Hb]].
      apply andb_prop in Hb as [Hb _].
      apply bool_decide_eq_true in Hb as [? Hb]. discriminate.
    + split; [intros [w Hw]; discriminate|intros [_ Hb]].
      apply andb_prop in Hb as [Hb _].
      apply bool_decide_eq_true in Hb as [? Hb]. discriminate.
  - split; [intros _; by split|intros _; by eexists].
Qed.

(** The literal of the merged metadata always has a [grail], and the
    rewrite of its query texts returns. *)
Lemma rewrite_returns widened tz baseGrail totals perTenant :
  ∃ md',
    (let md := mergedMetadata widened tz baseGrail totals perTenant in
     if ToBoolean (get md "grail")
     then (rewriteQuery "canonicalQuery" md ≫= rewriteQuery "query")
     else Ok md) = Ok md'.
Proof.
  cbn zeta. unfold mergedMetadata.
  erewrite (get_obj_lookup _ "grail")
    by (rewrite lookup_insert_ne by done; apply lookup_insert_eq).
  cbn [ToBoolean].
  erewrite rewriteQuery_obj
    by (rewrite lookup_insert_ne by done; apply lookup_insert_eq).
  cbn [mbind result_bind].
  erewrite rewriteQuery_obj by apply lookup_insert_eq.
  by eexists.
Qed.

(** X2: the merger returns exactly when the first descriptor is well
    formed, every conversion returns (the one of the inferred field
    [interval], the ones of every tenant's counters and the ones of every
    record's bounds), and the bounds of the records are valid time
    values. *)
Theorem merge_returns_iff rs :
  (∃ out, mergeMultiTenant rs = Ok out)
  ↔ typesOk rs = true ∧ conversionsOk rs = true ∧ timeOk rs = true.
Proof.
  destruct rs as [|r0 rs].
  { split; [intros _; split_and!; reflexivity|intros _; by eexists]. }
  pose proof (mergedType_Ok_iff r0 rs) as Hty.
  pose proof (globalTimeframe_Ok_iff (r0 :: rs)
                (or_else (metadata (normalize (json r0))) (VObj ∅))) as Htime.
  unfold conversionsOk. rewrite merge_cons_eq. cbn zeta.
  set (recs := (r0 :: rs) ≫= stamped) in *.
  set (normalized := normalizeTenant <$> r0 :: rs) in *.
  destruct (mergedType _ _) as [d|] eqn:Hd.
  2:{ split; [intros [out Hm]; discriminate|].
      intros (Ht & [[Hi _]%andb_prop _]%andb_prop & _).
      destruct (proj2 Hty (conj Ht Hi)) as [d' Hd']. discriminate. }
  destruct (proj1 Hty (ex_intro _ d eq_refl)) as [-> ->].
  cbn [mbind result_bind andb].
  destruct (forallb countersOk _).
  2:{ split; [intros [out Hm]; discriminate|].
      intros (_ & Hc & _). discriminate. }
  cbn [andb].
  destruct (globalTimeframe _ _) as [w|] eqn:Hw.
  - destruct (proj1 Htime (ex_intro _ w eq_refl)) as [-> ->].
    split; [done|intros _]. cbn [mbind result_bind].
    edestruct rewrite_returns as [md' Hmd]. cbn zeta in Hmd.
    rewrite Hmd. by eexists.
  - split; [intros [out Hm]; discriminate|].
    intros (_ & Hf & Hto).
    destruct (proj2 Htime (conj Hf Hto)) as [w Hw']. discriminate.
Qed.

End MergeFacts.

(** ** Examples *)

(** A host for the examples: [Number] converts strings of decimal digits,
    [Date.parse] reads the text YYYY-MM-DDTHH:mm:ss.sssZ that [toISOString]
    writes, and neither recognises anything else. *)
Definition num_of_Z (z : Z) : float :=
  if (z <? 0)%Z then (- PrimFloat.of_uint63 (Uint63.of_Z (- z)))%float
  else PrimFloat.of_uint63 (Uint63.of_Z z).

Definition digitsToNumber (s : string) : float :=
  fold_left (λ acc c, acc * 10 + num_of_nat (Ascii.nat_of_ascii c - 48))%float
    (String.list_ascii_of_string s) 0%float.

Definition digitsToZ (s : string) : Z :=
  fold_left (λ acc c, acc * 10 + Z.of_nat (Ascii.nat_of_ascii c - 48))%Z
    (String.list_ascii_of_string s) 0%Z.

Definition DayInYear (leap : bool) (month day : Z) : Z :=
  let l : Z := (if leap then 1 else 0)%Z in
  (nth (Z.to_nat (month - 1))
     [0; 31; 59 + l; 90 + l; 120 + l; 151 + l; 181 + l; 212 + l; 243 + l;
      273 + l; 304 + l; 334 + l] 0 + day - 1)%Z.

Definition isoParse (s : string) : float :=
  let part n m := String.substring n m s in
  if (String.length s =? 24)%nat
     && forallb all_digits
          [part 0 4; part 5 2; part 8 2; part 11 2; part 14 2; part 17 2;
           part 20 3]
     && String.eqb (part 4 1 +:+ part 7 1 +:+ part 10 1 +:+ part 13 1
                    +:+ part 16 1 +:+ part 19 1 +:+ part 23 1) "--T::.Z"
  then
    let y := digitsToZ (part 0 4) in
    let mo := digitsToZ (part 5 2) in
    let d := digitsToZ (part 8 2) in
    let hh := digitsToZ (part 11 2) in
    let mm := digitsToZ (part 14 2) in
    let ss := digitsToZ (part 17 2) in
    let sss := digitsToZ (part 20 3) in
    let day := (DayFromYear y + DayInYear (InLeapYear y) mo d)%Z in
    num_of_Z (day * msPerDay + hh * 3600000 + mm * 60000 + ss * 1000 + sss)%Z
  else nan.

Definition testHost : Host :=
  {| StringToNumber := λ s, if all_digits s then digitsToNumber s else nan;
     NumberToString := λ _, "NaN";
     Date_parse := isoParse |}.

Section Examples.
#[local] Existing Instance testHost.

Example isoParse_before_epoch :
  isoParse "1969-12-31T23:59:59.999Z" = (-1)%float.
Proof. vm_compute. reflexivity. Qed.

Example isoParse_epoch : isoParse "1970-01-01T00:00:00.000Z" = 0%float.
Proof. vm_compute. reflexivity. Qed.

Example isoParse_2024 : isoParse "2024-03-01T10:00:00.000Z" = 1709287200000%float.
Proof. vm_compute. reflexivity. Qed.

Example toISOString_2024 :
  toISOString 1709287200000 = Ok "2024-03-01T10:00:00.000Z".
Proof. vm_compute. reflexivity. Qed.

(** Two tenants of the tile's map: the response of [prod] is wrapped under
    [result] and carries a type descriptor, the one of [qa] is bare and has
    a row with a stale [tenant] field. *)
Definition prodJson : value :=
  obj [("result", obj [
    ("records", arr [
       obj [("timeframe", obj [("start", VStr "2024-03-01T10:00:00.000Z");
                               ("end", VStr "2024-03-01T10:05:00.000Z")]);
            ("interval", VStr "60000000000");
            ("host.name", VStr "web-1");
            ("count(dt.host.cpu.user)", arr [VNum 1; VNum 2; VNull])]]);
    ("types", arr [
       obj [("indexRange", arr [VNum 0; VNum 0]);
            ("mappings", obj [("timeframe", typeEntry "timeframe");
                              ("interval", typeEntry "duration");
                              ("host.name", typeEntry "string")])]]);
    ("metadata", obj [
       ("grail", obj [
          ("query", VStr "timeseries count(dt.host.cpu.user), from:-5m , by: { host.name } | limit 2");
          ("canonicalQuery", VStr "timeseries count(dt.host.cpu.user), from:-5m, by:{host.name} | limit 2");
          ("timezone", VStr "Z");
          ("scannedRecords", VNum 100);
          ("scannedBytes", VNum 2048);
          ("scannedDataPoints", VNum 10);
          ("executionTimeMilliseconds", VNum 12)])]);
    ("metrics", arr [obj [("metric.key", VStr "dt.host.cpu.user")]])])].

Definition qaJson : value :=
  obj [("records", arr [
         obj [("timeframe", obj [("start", VStr "2024-03-01T09:58:00.000Z");
                                 ("end", VStr "2024-03-01T10:03:00.000Z")]);
              ("host.name", VStr "db-1");
              ("tenant", VStr "stale")];
         obj [("timeframe", obj [("start", VStr "2024-03-01T10:01:00.000Z");
                                 ("end", VStr "2024-03-01T10:06:00.000Z")]);
              ("host.name", VStr "db-2")]]);
       ("metadata", obj [
          ("executionTimeMilliseconds", VNum 7);
          ("grail", obj [("timezone", VStr "-04:00");
                         ("scannedRecords", VNum 50);
                         ("scannedBytes", VNum 1024)])])].

Definition prod : TenantResponse := resp "prod" prodJson.
Definition qa : TenantResponse := resp "qa" qaJson.
Definition fetched : list TenantResponse := [prod; qa].

Lemma fetched_merged :
  ∃ out, mergeMultiTenant fetched = Ok out
         ∧ ∃ r0 r1 r2, records out = [r0; r1; r2].
Proof. vm_compute. do 2 eexists; [reflexivity|]. do 3 eexists. reflexivity. Qed.

(** C8 at [fetched]: three records, one of [prod] then two of [qa]. *)
Lemma merge_records_conserved_fetched :
  ∃ out, mergeMultiTenant fetched = Ok out ∧ length (records out) = 3.
Proof.
  destruct fetched_merged as (out & E & _). exists out. split; [exact E|].
  destruct (merge_records_conserved fetched out E) as [_ Hlen].
  rewrite Hlen. reflexivity.
Defined.

(** C4 at [fetched]: the second record, the row of [qa] that held
    [tenant: "stale"], comes out stamped with the identifier of a tenant of
    the input. *)
Lemma merge_records_tenant_fetched :
  ∃ out rec,
    mergeMultiTenant fetched = Ok out
    ∧ records out !! 1 = Some rec
    ∧ ∃ r, r ∈ fetched ∧ get rec "tenant" = VStr (tenant r).
Proof.
  destruct fetched_merged as (out & E & r0 & r1 & r2 & Hrecs).
  exists out, r1. split; [exact E|]. split; [by rewrite Hrecs|].
  destruct (merge_records_tenant fetched out r1 E)
    as (r & row & Hr & _ & _ & Ht & _).
  - rewrite Hrecs. apply list_elem_of_further, list_elem_of_here.
  - exists r. split; assumption.
Defined.

(** C10 on two payloads that carry no metadata at all. *)
Definition bare : list TenantResponse := [resp "prod" (obj []); resp "qa" VNull].

Lemma merge_metadata_keys_bare :
  ∃ out M G,
    mergeMultiTenant bare = Ok out
    ∧ metadata out = VObj M
    ∧ M !! "grail" = Some (VObj G)
    ∧ is_Some (M !! "executionTimeMilliseconds")
    ∧ is_Some (G !! "timezone")
    ∧ is_Some (G !! "scannedDataPoints-qa").
Proof.
  assert (∃ out, mergeMultiTenant bare = Ok out) as [out E]
    by (vm_compute; by eexists).
  destruct (merge_metadata_keys bare out ltac:(discriminate) E)
    as (M & G & HM & HG & He & Htz & _ & _ & _ & Hbreak).
  exists out, M, G. split_and!; try assumption.
  destruct (Hbreak (resp "qa" VNull)) as (_ & _ & Hq & _).
  - apply list_elem_of_further, list_elem_of_here.
  - exact Hq.
Defined.

(** C3 at [fetched]: 100 + 50 scanned records, 12 + 7 milliseconds at the
    top level, and the two breakdown keys of [scannedRecords]. *)
Lemma merge_counters_fetched :
  ∃ out,
    mergeMultiTenant fetched = Ok out
    ∧ get (get (metadata out) "grail") "scannedRecords" = VNum 150
    ∧ get (metadata out) "executionTimeMilliseconds" = VNum 19
    ∧ get (get (metadata out) "grail") "scannedRecords-prod" = VNum 100
    ∧ get (get (metadata out) "grail") "scannedRecords-qa" = VNum 50.
Proof.
  destruct fetched_merged as (out & E & _). exists out. split; [exact E|].
  destruct (merge_counters fetched out ltac:(discriminate) E)
    as (Hsr & _ & _ & Het & Hbreak).
  split; [rewrite Hsr; vm_compute; reflexivity|].
  split; [rewrite Het; vm_compute; reflexivity|].
  split.
  - destruct (Hbreak [] prod [qa] eq_refl) as (Hp & _).
    + intros r' Hr'. apply list_elem_of_singleton in Hr' as ->. discriminate.
    + etransitivity; [exact Hp|]. vm_compute. reflexivity.
  - destruct (Hbreak [prod] qa [] eq_refl) as (Hq & _).
    + intros r' Hr'. apply elem_of_nil in Hr'. destruct Hr'.
    + etransitivity; [exact Hq|]. vm_compute. reflexivity.
Defined.

(** C3, as stated, fails on two tenants that report their execution time
    at the top level of the metadata: the sum is at the top level of the
    merged metadata and [grail] holds no total of the execution time. *)
Definition timed (t : string) (ms : float) : TenantResponse :=
  resp t (obj [("metadata", obj [("executionTimeMilliseconds", VNum ms)])]).

Lemma counters_stated_fails :
  ¬ (∀ out, mergeMultiTenant [timed "prod" 3; timed "qa" 4] = Ok out →
            counters_stated [timed "prod" 3; timed "qa" 4] out).
Proof.
  intros Hs.
  assert (∃ out, mergeMultiTenant [timed "prod" 3; timed "qa" 4] = Ok out
                 ∧ get (get (metadata out) "grail") "executionTimeMilliseconds"
                   = VUndefined) as (out & E & Hu).
  { vm_compute. eexists. split; reflexivity. }
  destruct (Hs out E) as (_ & _ & _ & Het & _).
  rewrite Hu in Het. discriminate Het.
Qed.

(** C6 at [fetched]: [prod] reports ["Z"], [qa] reports ["-04:00"]. *)
Lemma merge_timezone_fetched :
  ∃ out,
    mergeMultiTenant fetched = Ok out
    ∧ get (get (metadata out) "grail") "timezone" = VStr "-04:00".
Proof.
  destruct fetched_merged as (out & E & _). exists out. split; [exact E|].
  destruct (merge_timezone fetched out ltac:(discriminate) E) as [Hfirst _].
  rewrite (Hfirst [prod] qa [] eq_refl).
  - vm_compute. reflexivity.
  - vm_compute. reflexivity.
  - intros r' Hr'. apply list_elem_of_singleton in Hr' as ->.
    vm_compute. reflexivity.
Defined.

(** C6, as stated, fails when the first tenant reports the empty string:
    that timezone is present and is not ["Z"], yet the merger passes it
    over for the timezone of a later tenant. *)
Definition zoned (t : string) (tz : value) : TenantResponse :=
  resp t (obj [("metadata", obj [("grail", obj [("timezone", tz)])])]).

Lemma timezone_stated_fails :
  ¬ (∀ out,
       mergeMultiTenant [zoned "prod" (VStr ""); zoned "qa" (VStr "-04:00")]
         = Ok out →
       timezone_stated [zoned "prod" (VStr ""); zoned "qa" (VStr "-04:00")]
         out).
Proof.
  intros Hs.
  assert (∃ out,
    mergeMultiTenant [zoned "prod" (VStr ""); zoned "qa" (VStr "-04:00")]
      = Ok out
    ∧ get (get (metadata out) "grail") "timezone" = VStr "-04:00")
    as (out & E & Htz).
  { vm_compute. eexists. split; reflexivity. }
  destruct (Hs out E) as [Hfirst _].
  specialize (Hfirst [] (zoned "prod" (VStr "")) [zoned "qa" (VStr "-04:00")]
                eq_refl eq_refl).
  rewrite Htz in Hfirst. discriminate Hfirst.
  intros r' Hr'. by apply elem_of_nil in Hr'.
Qed.

(** Alone, a tenant that reports the empty string gets ["Z"]. *)
Example timezone_empty_alone :
  ∃ out,
    mergeMultiTenant [zoned "prod" (VStr "")] = Ok out
    ∧ get (get (metadata out) "grail") "timezone" = VStr "Z".
Proof. vm_compute. eexists. split; reflexivity. Qed.

(** C1 at [fetched]: the descriptor of [prod] has no tenant entry, the
    merged one has a truthy one. *)
Lemma merge_types_tenant_fetched :
  ∃ out d,
    mergeMultiTenant fetched = Ok out
    ∧ types out = [d]
    ∧ ToBoolean (get (get d "mappings") "tenant") = true.
Proof.
  destruct fetched_merged as (out & E & _).
  destruct (merge_types_tenant fetched out ltac:(discriminate) E)
    as (d & Ht & Htrue & _).
  exists out, d. split_and!; assumption.
Defined.

(** C1, as stated, fails when the first tenant's descriptor already maps
    [tenant] to another kind: the entry is kept. *)
Definition typedLong : TenantResponse :=
  resp "prod"
    (obj [("types",
           arr [obj [("mappings", obj [("tenant", typeEntry "long")])]])]).

Lemma tenant_entry_stated_fails : ¬ tenant_entry_stated [typedLong].
Proof.
  intros Hs.
  assert (∃ out d, mergeMultiTenant [typedLong] = Ok out
                   ∧ types out = [d]
                   ∧ get (get (get d "mappings") "tenant") "type" = VStr "long")
    as (out & d & E & Ht & Hlong).
  { vm_compute. do 2 eexists. split_and!; reflexivity. }
  destruct (Hs out E) as (d' & Ht' & Hstring).
  rewrite Ht in Ht'. injection Ht' as <-.
  rewrite Hstring in Hlong. vm_compute in Hlong. discriminate Hlong.
Qed.

(** C5: the widener throws on a record whose bounds are finite numbers
    beyond the range of time values (8.64e15 ms): [new Date(1e16)] is an
    invalid date and its [toISOString] raises a RangeError, where the claim
    has the timeframe rewritten whenever both bounds exist. *)
Theorem globalTimeframe_range_error :
  globalTimeframe
    [obj [("timeframe", obj [("start", VNum 1e16); ("end", VNum 1e16)])]]
    (obj [("grail", obj [("analysisTimeframe", VStr "kept")])])
  = Throw RangeError.
Proof. vm_compute. reflexivity. Qed.

(** The widened timeframe and the rewritten query texts at [fetched]. *)
Example fetched_metadata :
  ∃ out,
    mergeMultiTenant fetched = Ok out
    ∧ get (get (metadata out) "grail") "analysisTimeframe"
      = obj [("start", VStr "2024-03-01T09:58:00.000Z");
             ("end", VStr "2024-03-01T10:06:00.000Z")]
    ∧ get (get (metadata out) "grail") "query"
      = VStr "timeseries count(dt.host.cpu.user), from:-5m , by:{host.name, tenant} | limit 2"
    ∧ get (get (metadata out) "grail") "canonicalQuery"
      = VStr "timeseries count(dt.host.cpu.user), from:-5m, by:{host.name, tenant} | limit 2".
Proof. vm_compute. eexists. split_and!; reflexivity. Qed.

Example toISOString_epoch : toISOString 0 = Ok "1970-01-01T00:00:00.000Z".
Proof. vm_compute. reflexivity. Qed.

Example toISOString_before_epoch :
  toISOString (-1) = Ok "1969-12-31T23:59:59.999Z".
Proof. vm_compute. reflexivity. Qed.

Example toISOString_truncates :
  toISOString 1.5 = Ok "1970-01-01T00:00:00.001Z".
Proof. vm_compute. reflexivity. Qed.

Example toISOString_leap_day :
  toISOString 951782400000 = Ok "2000-02-29T00:00:00.000Z".
Proof. vm_compute. reflexivity. Qed.

Example toISOString_2100 :
  toISOString 4102444800000 = Ok "2100-01-01T00:00:00.000Z".
Proof. vm_compute. reflexivity. Qed.

Example toISOString_last_four_digit :
  toISOString 253402300799999 = Ok "9999-12-31T23:59:59.999Z".
Proof. vm_compute. reflexivity. Qed.

Example toISOString_expanded_year :
  toISOString 253402300800000 = Ok "+010000-01-01T00:00:00.000Z".
Proof. vm_compute. reflexivity. Qed.

Example toISOString_year_zero :
  toISOString (-62167219200000) = Ok "0000-01-01T00:00:00.000Z".
Proof. vm_compute. reflexivity. Qed.

Example toISOString_negative_year :
  toISOString (-62198755200000) = Ok "-000001-01-01T00:00:00.000Z".
Proof. vm_compute. reflexivity. Qed.

Example toISOString_max :
  toISOString 8.64e15 = Ok "+275760-09-13T00:00:00.000Z".
Proof. vm_compute. reflexivity. Qed.

Example toISOString_min :
  toISOString (-8.64e15) = Ok "-271821-04-20T00:00:00.000Z".
Proof. vm_compute. reflexivity. Qed.

Example toISOString_out_of_range : toISOString 1e16 = Throw RangeError.
Proof. vm_compute. reflexivity. Qed.

Example replace_by_fields :
  replace_by "fetch logs | summarize count(), BY:{ a , tenant,, b } by:{c}"
  = "fetch logs | summarize count(), by:{a, tenant, b} by:{c}".
Proof. vm_compute. reflexivity. Qed.

Example replace_by_unclosed :
  replace_by "fetch logs | summarize by: { host" =
    "fetch logs | summarize by: { host".
Proof. vm_compute. reflexivity. Qed.

(** Two tenants that both report ["Z"]. *)
Example timezone_both_Z :
  ∃ out,
    mergeMultiTenant
      [resp "prod" (obj [("metadata", obj [("grail", obj [("timezone", VStr "Z")])])]);
       resp "qa" (obj [("metadata", obj [("grail", obj [("timezone", VStr "Z")])])])]
    = Ok out
    ∧ get (get (metadata out) "grail") "timezone" = VStr "Z".
Proof. vm_compute. eexists. split; reflexivity. Qed.

(** A first tenant without type descriptor: the descriptor is inferred
    from the first merged record, stamped fields included. *)
Example inferred_descriptor :
  ∃ out d,
    mergeMultiTenant [qa] = Ok out
    ∧ types out = [d]
    ∧ get d "indexRange" = arr [VNum 0; VNum 1]
    ∧ get (get d "mappings") "timeframe" = typeEntry "timeframe"
    ∧ get (get d "mappings") "host.name" = typeEntry "string"
    ∧ get (get d "mappings") "tenant" = typeEntry "string".
Proof. vm_compute. do 2 eexists. split_and!; reflexivity. Qed.

(** A first descriptor that is a primitive: the assignment of [mappings]
    throws. *)
Example primitive_descriptor :
  mergeMultiTenant [resp "prod" (obj [("types", VStr "string")])]
  = Throw TypeError.
Proof. vm_compute. reflexivity. Qed.

(** The union of the timeframes [10,20], [5,15] and [30,40] of records of
    two tenants is [5,40]. *)
Definition framed (s e : float) : value :=
  obj [("timeframe", obj [("start", VNum s); ("end", VNum e)])].

Example timeframe_union :
  ∃ out,
    mergeMultiTenant
      [resp "prod" (obj [("records", arr [framed 10 20; framed 5 15])]);
       resp "qa" (obj [("records", arr [framed 30 40])])]
    = Ok out
    ∧ get (get (metadata out) "grail") "analysisTimeframe"
      = obj [("start", VStr "1970-01-01T00:00:00.005Z");
             ("end", VStr "1970-01-01T00:00:00.040Z")].
Proof. vm_compute. eexists. split; reflexivity. Qed.

(** Without a record that carries a timeframe the first tenant's
    [analysisTimeframe] stays. *)
Example timeframe_fallback :
  ∃ out,
    mergeMultiTenant
      [resp "prod"
         (obj [("records", arr [obj [("host.name", VStr "web-1")]]);
               ("metadata",
                obj [("grail", obj [("analysisTimeframe", VStr "first")])])]);
       resp "qa"
         (obj [("metadata",
                obj [("grail", obj [("analysisTimeframe", VStr "second")])])])]
    = Ok out
    ∧ get (get (metadata out) "grail") "analysisTimeframe" = VStr "first".
Proof. vm_compute. eexists. split; reflexivity. Qed.

(** A counter that is not numeric is not read as zero: an object converts
    to NaN, and so does the total. *)
Example counter_not_numeric :
  ∃ out,
    mergeMultiTenant
      [resp "prod"
         (obj [("metadata", obj [("grail", obj [("scannedRecords", obj [])])])]);
       resp "qa"
         (obj [("metadata", obj [("grail", obj [("scannedRecords", VNum 5)])])])]
    = Ok out
    ∧ get (get (metadata out) "grail") "scannedRecords" = VNum nan
    ∧ get (get (metadata out) "grail") "scannedRecords-prod" = VNum nan.
Proof. vm_compute. eexists. split_and!; reflexivity. Qed.

(** A counter that is an object with a property [toString] of its own
    cannot be converted: the merger throws a TypeError.  A property
    [valueOf] leaves the conversion alone. *)
Example counter_not_convertible :
  mergeMultiTenant
    [resp "prod"
       (obj [("metadata",
              obj [("grail",
                    obj [("scannedRecords", obj [("toString", VNum 1)])])])])]
  = Throw TypeError.
Proof. vm_compute. reflexivity. Qed.

Example counter_valueOf :
  ∃ out,
    mergeMultiTenant
      [resp "prod"
         (obj [("metadata",
                obj [("grail",
                      obj [("scannedRecords", obj [("valueOf", VNum 1)])])])])]
    = Ok out
    ∧ get (get (metadata out) "grail") "scannedRecords" = VNum nan.
Proof. vm_compute. eexists. split; reflexivity. Qed.

(** Likewise for a bound of a record, and for an element of a bound that is
    an array. *)
Example bound_not_convertible :
  globalTimeframe
    [obj [("timeframe", obj [("start", obj [("toString", VNum 1)]);
                             ("end", VNum 1)])]]
    (obj [])
  = Throw TypeError.
Proof. vm_compute. reflexivity. Qed.

Example bound_array_not_convertible :
  globalTimeframe
    [obj [("timeframe",
           obj [("start", arr [VNull; obj [("toString", VNull)]]);
                ("end", VNum 1)])]]
    (obj [])
  = Throw TypeError.
Proof. vm_compute. reflexivity. Qed.

(** The inferencer converts the field [interval] alone. *)
Example interval_not_convertible :
  inferTypesFromRecord
    (obj [("interval", obj [("toString", VStr "1")]); ("host.name", VStr "a")])
  = Throw TypeError.
Proof. vm_compute. reflexivity. Qed.

Example other_field_not_converted :
  ∃ d,
    inferTypesFromRecord (obj [("host.name", obj [("toString", VStr "1")])])
    = Ok [d]
    ∧ get (get d "mappings") "host.name" = typeEntry "string".
Proof. vm_compute. eexists. split; reflexivity. Qed.

(** A field [__proto__] of the sample gets no entry. *)
Example proto_field_no_entry :
  inferTypesFromRecord (obj [("__proto__", VNum 1); ("a", VNum 2)])
  = Ok [obj [("indexRange", arr [VNum 0; VNum 1]);
             ("mappings", obj [("a", typeEntry "string")])]].
Proof. vm_compute. reflexivity. Qed.

(** An execution time of 0 at the top level gives way to the one under
    [grail]. *)
Example execution_time_falsy_top_level :
  ∃ out,
    mergeMultiTenant
      [resp "prod"
         (obj [("metadata",
                obj [("executionTimeMilliseconds", VNum 0);
                     ("grail", obj [("executionTimeMilliseconds", VNum 5)])])])]
    = Ok out
    ∧ get (metadata out) "executionTimeMilliseconds" = VNum 5.
Proof. vm_compute. eexists. split; reflexivity. Qed.

End Examples.

(** ** Further properties of the tile *)

(** *** The type inferencer *)

Section Inference.
Context `{Host}.

(** The kinds that the inferencer assigns at the top level. *)
Definition inferredKinds : list string :=
  ["timeframe"; "duration"; "array"; "string"].

Lemma inferredEntry_kind k v :
  ∃ t, get (inferredEntry k v) "type" = VStr t ∧ t ∈ inferredKinds.
Proof.
  unfold inferredEntry, inferredKinds.
  destruct (String.eqb k "timeframe" && ToBoolean v && is_object v
            && has_prop "start" v && has_prop "end" v).
  { exists "timeframe". split; [reflexivity|set_solver]. }
  destruct (String.eqb k "interval" && (is_number v || all_digits (StringOf v))).
  { exists "duration". split; [reflexivity|set_solver]. }
  destruct v; try (exists "string"; split; [reflexivity|set_solver]).
  exists "array". split; [|set_solver].
  apply get_obj_lookup. apply lookup_insert_eq.
Qed.

Lemma dom_inferredMappings sample :
  dom (inferredMappings sample) = dom (ownProps sample) ∖ {["__proto__"]}.
Proof.
  unfold inferredMappings. rewrite ownProps_nullish_else, <- dom_delete_L.
  apply dom_imap_L. intros k. rewrite elem_of_dom. split.
  - intros [v Hv]. exists v. split; [exact Hv|]. by eexists.
  - intros (v & Hv & _). by exists v.
Qed.

(** X4: the inferencer throws a TypeError when the sample has a field
    [interval] that is not a number and cannot be converted to a string (an
    object with a property [toString] of its own), and returns otherwise.
    It then returns exactly one descriptor, with the fixed index range
    [0, 1]; its mappings have one entry for every own property of the sample
    other than [__proto__], whose assignment sets the prototype of the
    mappings, and no other entry (none at all for a null or undefined
    sample); every entry is of kind timeframe, duration, array or string. *)
Theorem inferTypesFromRecord_shape sample :
  (intervalOk sample = true →
   ∃ d M,
     inferTypesFromRecord sample = Ok [d]
     ∧ get d "indexRange" = arr [VNum 0; VNum 1]
     ∧ get d "mappings" = VObj M
     ∧ dom M = dom (ownProps sample) ∖ {["__proto__"]}
     ∧ ∀ k e, M !! k = Some e →
         ∃ t, get e "type" = VStr t ∧ t ∈ inferredKinds)
  ∧ (intervalOk sample = false →
     inferTypesFromRecord sample = Throw TypeError).
Proof.
  rewrite inferTypesFromRecord_eq. split; intros ->; [|reflexivity].
  eexists _, _. split; [reflexivity|].
  split; [apply get_obj_lookup, lookup_insert_eq|].
  split; [apply inferredDescriptor_mappings|].
  split; [apply dom_inferredMappings|].
  intros k e. unfold inferredMappings. rewrite map_lookup_imap.
  destruct (delete "__proto__" _ !! k) as [v|]; [|discriminate].
  cbn. intros [= <-]. apply inferredEntry_kind.
Qed.

End Inference.

(** *** Property names and indices *)

(** A property name that does not start with a digit: not an array
    index. *)
Definition is_name (k : string) : bool :=
  match k with
  | String c _ => negb (is_digit c)
  | EmptyString => true
  end.

Section Names.

Lemma pretty_N_char_digit x : is_digit (pretty_N_char x) = true.
Proof.
  unfold pretty_N_char. by repeat case_match.
Qed.

Lemma pretty_N_go_digit x s :
  (0 < x)%N → is_name (pretty_N_go x s) = false.
Proof.
  revert s. induction (N.lt_wf_0 x) as [x _ IH]; intros s Hx.
  rewrite pretty_N_go_step by done.
  destruct (decide (x `div` 10 = 0)%N) as [->|Hd].
  - rewrite pretty_N_go_0. cbn [is_name].
    by rewrite pretty_N_char_digit.
  - apply IH; [apply N.div_lt; lia|by apply N.neq_0_lt_0].
Qed.

Lemma pretty_nat_digit (i : nat) : is_name (pretty i) = false.
Proof.
  unfold pretty, pretty_nat, pretty, pretty_N.
  case_decide; [reflexivity|]. apply pretty_N_go_digit. lia.
Qed.

(** No element of an array or code unit of a string is found under a
    name. *)
Lemma indexed_name l k : is_name k = true → indexed l !! k = None.
Proof.
  intros Hk. unfold indexed. apply not_elem_of_list_to_map_1.
  intros Hin. apply list_elem_of_fmap in Hin as ([k' x] & -> & Hin).
  apply elem_of_lookup_imap in Hin as (i & y & [= -> ->] & _).
  cbn [fst] in Hk. by rewrite pretty_nat_digit in Hk.
Qed.

(** Under a name, [{...v}.k] is [v?.k]. *)
Lemma ownProps_get v k :
  is_name k = true → default VUndefined (ownProps v !! k) = get v k.
Proof.
  intros Hk. destruct v; cbn [ownProps get]; rewrite ?lookup_empty;
    try reflexivity.
  - by rewrite indexed_name.
  - rewrite lookup_union, indexed_name by done.
    by destruct (extra !! k).
Qed.

End Names.

(** *** The merged descriptor *)

Section MergedTypes.
Context `{Host}.

Ltac simpl_default :=
  repeat match goal with
  | |- context [default ?d (Some ?x)] => change (default d (Some x)) with x
  | |- context [default ?d None] => change (default d None) with d
  | |- context [default ?d (head [?x])] => change (default d (head [x])) with x
  end.

(** The merged descriptor when the first tenant brings none: the inferred
    descriptor of the first merged record, to which the tenant entry is
    added when there is no record; a TypeError when the inference throws. *)
Lemma mergedType_inferred n0 recs :
  ToBoolean (default VUndefined (head (n_types n0))) = false →
  (∀ s, head recs = Some s → ∃ t row, s = withTenant t row) →
  mergedType n0 recs =
    if intervalOk (default VUndefined (head recs))
    then Ok (VObj {[ "indexRange" := arr [VNum 0; VNum 1];
                     "mappings" :=
                       VObj (<["tenant" := typeEntry "string"]>
                               (inferredMappings
                                  (default VUndefined (head recs)))) ]})
    else Throw TypeError.
Proof.
  intros Hb Hrecs. unfold mergedType. rewrite Hb.
  rewrite inferTypesFromRecord_eq.
  destruct (intervalOk _); [|reflexivity].
  cbn [mbind result_bind mret result_ret]. simpl_default.
  rewrite inferredDescriptor_mappings.
  cbn [ToBoolean negb mbind result_bind mret result_ret getT is_nullish
       inferredDescriptor].
  rewrite inferredDescriptor_mappings.
  cbn [mbind result_bind]. unfold inferredDescriptor.
  destruct (head recs) as [s|] eqn:Hs; simpl_default.
  - destruct (Hrecs s eq_refl) as (t & row & ->).
    assert (inferredMappings (withTenant t row) !! "tenant"
            = Some (typeEntry "string")) as Ht.
    { unfold inferredMappings.
      rewrite map_lookup_imap, lookup_delete_ne by done.
      cbn [nullish_else is_nullish withTenant ownProps].
      rewrite lookup_insert_eq. reflexivity. }
    rewrite (get_obj_lookup _ _ _ Ht). cbn [ToBoolean typeEntry negb].
    cbn [mret result_ret]. rewrite (insert_id _ _ _ Ht). reflexivity.
  - assert (inferredMappings VUndefined = ∅) as ->.
    { unfold inferredMappings. cbn [nullish_else is_nullish ownProps].
      rewrite delete_empty. apply map_imap_empty. }
    unfold get at 1. rewrite lookup_empty. simpl_default.
    cbn [ToBoolean negb setT mbind result_bind].
    reflexivity.
Qed.

(** X5: when the first tenant brings no (truthy) type descriptor, the merged
    descriptor is inferred from the first merged record: its index range is
    [0, 1] and its mappings hold the tenant entry [{type: "string"}] and the
    inferred entry of every field of that record other than [__proto__],
    and nothing else; with no record at all the mappings hold the tenant
    entry alone. *)
Theorem merge_types_inferred r0 rs out :
  ToBoolean (default VUndefined (head (types (normalize (json r0))))) = false →
  mergeMultiTenant (r0 :: rs) = Ok out →
  let first := default VUndefined (head (records out)) in
  ∃ M,
    types out = [VObj {[ "indexRange" := arr [VNum 0; VNum 1];
                         "mappings" := VObj M ]}]
    ∧ M !! "tenant" = Some (typeEntry "string")
    ∧ dom M = {["tenant"]} ∪ (dom (ownProps first) ∖ {["__proto__"]})
    ∧ ∀ k v, k ≠ "__proto__" → ownProps first !! k = Some v →
        M !! k = Some (inferredEntry k v).
Proof.
  intros Hb Hm. apply merge_cons_inv in Hm as (d & w & Hd & _ & Hr & Ht & _).
  cbn zeta in *. rewrite Hr, Ht.
  rewrite mergedType_inferred in Hd by (exact Hb || apply stamped_head).
  destruct (intervalOk _); [|discriminate].
  injection Hd as <-. eexists. split; [reflexivity|].
  set (recs := (r0 :: rs) ≫= stamped) in *.
  split; [apply lookup_insert_eq|]. split.
  - rewrite dom_insert_L. f_equal. apply dom_inferredMappings.
  - intros k v Hproto Hk. destruct (decide (k = "tenant")) as [->|Hne].
    + rewrite lookup_insert_eq.
      destruct (head recs) as [s|] eqn:Hs.
      * apply stamped_head in Hs as (t & row & ->).
        change (default VUndefined (Some (withTenant t row)))
          with (withTenant t row) in Hk.
        cbn [withTenant ownProps] in Hk. rewrite lookup_insert_eq in Hk.
        injection Hk as <-. reflexivity.
      * cbn in Hk. by rewrite lookup_empty in Hk.
    + rewrite lookup_insert_ne by done. unfold inferredMappings.
      rewrite map_lookup_imap, lookup_delete_ne by done.
      rewrite ownProps_nullish_else.
      change (ownProps (default VUndefined (head recs)) !! k
                ≫= (λ v0, Some (inferredEntry k v0))
              = Some (inferredEntry k v)).
      rewrite Hk. reflexivity.
Qed.

Lemma ownProps_or_else v : ownProps (or_else v (VObj ∅)) = ownProps v.
Proof.
  unfold or_else. destruct (ToBoolean v) eqn:Hv; [reflexivity|].
  destruct v; try reflexivity; try discriminate.
  cbn in Hv. apply negb_false_iff, String.eqb_eq in Hv as ->. reflexivity.
Qed.

Lemma ownProps_setT o k x o' k' :
  setT o k x = Ok o' → k' ≠ k → ownProps o' !! k' = ownProps o !! k'.
Proof.
  intros Ho Hne. destruct o; try discriminate; injection Ho as <-;
    cbn [ownProps].
  - by rewrite !lookup_union, lookup_insert_ne.
  - by rewrite lookup_insert_ne.
Qed.

(** The merged descriptor when the first tenant brings one. *)
Lemma mergedType_cloned n0 recs b d :
  head (n_types n0) = Some b → ToBoolean b = true →
  mergedType n0 recs = Ok d →
  ∃ c m,
    deepClone b = Ok c
    ∧ setT c "mappings" m = Ok d
    ∧ get m "tenant" = or_else (get (get c "mappings") "tenant")
                         (typeEntry "string")
    ∧ ∀ k, k ≠ "tenant" → ownProps m !! k = ownProps (get c "mappings") !! k.
Proof.
  intros Hh Hb. unfold mergedType. rewrite Hh. simpl_default. rewrite Hb.
  destruct (deepClone b) as [c|] eqn:Hc;
    [|cbn [mbind result_bind]; discriminate].
  cbn [mbind result_bind].
  destruct (getT c "mappings") as [m|] eqn:Hgm;
    [|cbn [mbind result_bind]; discriminate].
  apply getT_Ok in Hgm as ->. cbn [mbind result_bind].
  destruct (setT c "mappings" _) as [t0|] eqn:Ht0;
    [|cbn [mbind result_bind]; discriminate].
  cbn [mbind result_bind].
  pose proof (get_setT_eq _ _ _ _ Ht0) as Hget.
  assert (ToBoolean (get t0 "mappings") = true) as Hm.
  { rewrite Hget. unfold or_else.
    by destruct (ToBoolean (get c "mappings")) eqn:E. }
  rewrite Hm. cbn [negb mbind result_bind mret result_ret].
  unfold getT. destruct (is_nullish t0); [discriminate|].
  cbn [mbind result_bind]. rewrite Hget.
  set (m := or_else (get c "mappings") (VObj ∅)) in *.
  assert (get m "tenant" = get (get c "mappings") "tenant") as Hmt
    by apply get_or_else_obj.
  destruct (ToBoolean (get m "tenant")) eqn:Et; cbn [negb].
  - intros [= <-]. exists c, m. split_and!; [reflexivity|exact Ht0| |].
    + unfold or_else. rewrite <- Hmt, Et. reflexivity.
    + intros k _. apply (f_equal (λ o, o !! k)), ownProps_or_else.
  - destruct (setT m "tenant" _) as [m'|] eqn:Hm'; [|discriminate].
    cbn [mbind result_bind]. intros Hd. exists c, m'.
    split_and!; [reflexivity| | |].
    + destruct c; try discriminate; injection Ht0 as <-;
        cbn [setT] in Hd |- *; rewrite insert_insert_eq in Hd; exact Hd.
    + rewrite (get_setT_eq _ _ _ _ Hm'). unfold or_else.
      rewrite <- Hmt, Et. reflexivity.
    + intros k Hk. rewrite (ownProps_setT _ _ _ _ _ Hm' Hk).
      apply (f_equal (λ o, o !! k)), ownProps_or_else.
Qed.

(** X6: when the first tenant brings a (truthy) first type descriptor, the
    merged descriptor is the deep copy of that descriptor with its
    [mappings] replaced: every other property of the copy is kept, and the
    new mappings are the copy's own, entry by entry, except for [tenant],
    which is the copy's entry when truthy and [{type: "string"}]
    otherwise. *)
Theorem merge_types_cloned r0 rs out b :
  head (types (normalize (json r0))) = Some b →
  ToBoolean b = true →
  mergeMultiTenant (r0 :: rs) = Ok out →
  ∃ c m d,
    deepClone b = Ok c
    ∧ types out = [d]
    ∧ setT c "mappings" m = Ok d
    ∧ get m "tenant" = or_else (get (get c "mappings") "tenant")
                         (typeEntry "string")
    ∧ (∀ k, k ≠ "tenant" → ownProps m !! k = ownProps (get c "mappings") !! k)
    ∧ (∀ k, k ≠ "mappings" → ownProps d !! k = ownProps c !! k).
Proof.
  intros Hh Hb Hm. apply merge_cons_inv in Hm as (d & w & Hd & _ & _ & Ht & _).
  cbn zeta in Hd.
  apply (mergedType_cloned _ _ b) in Hd as (c & m & Hc & Hset & Hten & Hm);
    [|exact Hh|exact Hb].
  exists c, m, d. split_and!; try assumption.
  intros k Hk. by apply (ownProps_setT _ _ _ _ _ Hset).
Qed.

(** *** What the merger keeps of the first tenant *)

(** The keys of [grail] that the merger writes, the breakdown apart. *)
Definition mergedGrailKeys : list string :=
  ["analysisTimeframe"; "timezone"; "scannedRecords"; "scannedBytes";
   "scannedDataPoints"; "canonicalQuery"; "query"].

Lemma perTenant_foreign (rs : list TenantResponse) k :
  (∀ r, r ∈ rs → k ∉ breakdownKeys (tenant r)) →
  (fold_left accumulate (normalizeTenant <$> rs) (zeroTotals, ∅)).2 !! k = None.
Proof.
  intros Hk. destruct (_ !! k) as [v|] eqn:E; [|reflexivity].
  apply perTenant_keys in E as [E|(n & Hn & Hin)].
  - cbn in E. by rewrite lookup_empty in E.
  - apply list_elem_of_fmap in Hn as (r & -> & Hr). by apply Hk in Hin.
Qed.

(** X7: the merged [metrics] are the first tenant's; so is every top-level
    field of the merged metadata other than [grail] and
    [executionTimeMilliseconds], and every field of its [grail] other than
    the ones the merger writes (the timeframe, the timezone, the three
    scanned totals, the two query texts and the tenants' breakdown keys). *)
Theorem merge_keeps_first r0 rs out :
  mergeMultiTenant (r0 :: rs) = Ok out →
  let first := normalize (json r0) in
  metrics out = metrics first
  ∧ (∀ k, k ≠ "grail" → k ≠ "executionTimeMilliseconds" →
       ownProps (metadata out) !! k = ownProps (metadata first) !! k)
  ∧ (∀ k, k ∉ mergedGrailKeys →
       (∀ r, r ∈ r0 :: rs → k ∉ breakdownKeys (tenant r)) →
       ownProps (get (metadata out) "grail") !! k =
         ownProps (get (metadata first) "grail") !! k).
Proof.
  intros Hm. cbn zeta. split.
  { apply merge_cons_inv in Hm as (? & ? & _ & _ & _ & _ & Hmet & _).
    exact Hmet. }
  apply merge_metadata in Hm as (tf & M & _ & HM & HG & _ & Hother).
  cbn zeta in HG, Hother. rewrite HM. split.
  - intros k Hk1 Hk2. cbn [ownProps]. rewrite (Hother k Hk1 Hk2).
    apply (f_equal (λ o, o !! k)), ownProps_or_else.
  - intros k Hk Hbk. rewrite (get_obj_lookup _ _ _ HG). cbn [ownProps].
    unfold mergedGrailKeys in Hk.
    rewrite grailRewritten_other by (intros ->; apply Hk; set_solver).
    rewrite grailLiteral_plain by (by apply perTenant_foreign).
    rewrite !lookup_insert_ne by (intros <-; apply Hk; set_solver).
    rewrite ownProps_nullish_else, get_or_else_obj. reflexivity.
Qed.

(** *** The exceptions of the merger *)

Lemma mergedType_throws n0 recs e : mergedType n0 recs = Throw e → e = TypeError.
Proof.
  unfold mergedType.
  assert (Hset : ∀ o k x e', setT o k x = Throw e' → e' = TypeError).
  { intros o k x e'. destruct o; cbn; congruence. }
  assert (Hget : ∀ o k e', getT o k = Throw e' → e' = TypeError).
  { intros o k e'. unfold getT. destruct (is_nullish o); congruence. }
  assert (Hfin : ∀ t0,
    ((if negb (ToBoolean (get t0 "mappings"))
      then setT t0 "mappings" (VObj ∅) else mret t0) ≫= λ types0,
       getT types0 "mappings" ≫= λ mappings,
         if negb (ToBoolean (get mappings "tenant"))
         then setT mappings "tenant" (typeEntry "string") ≫= λ mappings,
                setT types0 "mappings" mappings
         else mret types0) = Throw e → e = TypeError).
  { intros t0.
    destruct (if negb _ then _ else _) as [t1|e1] eqn:E1;
      cbn [mbind result_bind].
    2:{ intros [= <-]. destruct (negb (ToBoolean (get t0 "mappings"))); [by eapply Hset|cbn [mret result_ret] in E1; discriminate]. }
    destruct (getT t1 "mappings") as [m|e2] eqn:E2; cbn [mbind result_bind].
    2:{ intros [= <-]. by eapply Hget. }
    destruct (negb (ToBoolean (get m "tenant"))); [|cbn [mret result_ret]; discriminate].
    destruct (setT m "tenant" _) as [m'|e3] eqn:E3; cbn [mbind result_bind].
    - by apply Hset.
    - intros [= <-]. by eapply Hset. }
  destruct (ToBoolean (default VUndefined (head (n_types n0)))) eqn:Hb.
  - unfold deepClone.
    destruct (jsonClone _) as [c|] eqn:Hc.
    2:{ destruct (default VUndefined (head (n_types n0)));
          discriminate. }
    cbn [mbind result_bind].
    destruct (getT c "mappings") as [m|e2] eqn:E2; cbn [mbind result_bind].
    2:{ intros [= <-]. by eapply Hget. }
    destruct (setT c "mappings" _) as [t0|e3] eqn:E3; cbn [mbind result_bind].
    2:{ intros [= <-]. by eapply Hset. }
    apply Hfin.
  - rewrite inferTypesFromRecord_eq.
    destruct (intervalOk _); cbn [mbind result_bind mret result_ret];
      [apply Hfin|by intros [= <-]].
Qed.

(** The widener throws the TypeError of a bound that cannot be parsed, or
    else the RangeError of a time value that is not valid. *)
Lemma globalTimeframe_throws recs baseMeta e :
  globalTimeframe recs baseMeta = Throw e →
  (e = TypeError ∧ forallb timeframeOk recs = false)
  ∨ (e = RangeError ∧ forallb timeframeOk recs = true).
Proof.
  rewrite globalTimeframe_cases. cbn zeta.
  destruct (forallb timeframeOk recs); [|intros [= <-]; by left].
  destruct (isFinite _ && isFinite _); [|discriminate].
  destruct (TimeClip _); [|intros [= <-]; by right].
  destruct (TimeClip _); [discriminate|intros [= <-]; by right].
Qed.

(** The merger on a non-empty input, step by step: an exception of the
    descriptor, of a counter or of the widener ends it, and nothing else
    does. *)
Lemma merge_cons_steps r0 rs :
  let recs := (r0 :: rs) ≫= stamped in
  let baseMeta := or_else (metadata (normalize (json r0))) (VObj ∅) in
  let normalized := normalizeTenant <$> r0 :: rs in
  (∀ e, mergedType (normalizeTenant r0) recs = Throw e →
        mergeMultiTenant (r0 :: rs) = Throw e)
  ∧ (∀ d, mergedType (normalizeTenant r0) recs = Ok d →
        forallb countersOk normalized = false →
        mergeMultiTenant (r0 :: rs) = Throw TypeError)
  ∧ (∀ d e, mergedType (normalizeTenant r0) recs = Ok d →
        forallb countersOk normalized = true →
        globalTimeframe recs baseMeta = Throw e →
        mergeMultiTenant (r0 :: rs) = Throw e)
  ∧ (∀ d w, mergedType (normalizeTenant r0) recs = Ok d →
        forallb countersOk normalized = true →
        globalTimeframe recs baseMeta = Ok w →
        ∃ out, mergeMultiTenant (r0 :: rs) = Ok out).
Proof.
  cbn zeta. rewrite merge_cons_eq. cbn zeta. split_and!.
  - intros e ->. reflexivity.
  - intros d -> ->. reflexivity.
  - intros d e -> -> ->. reflexivity.
  - intros d w -> -> ->. cbn [mbind result_bind].
    edestruct rewrite_returns as [md' Hmd]. cbn zeta in Hmd.
    rewrite Hmd. by eexists.
Qed.

(** X8: the exceptions of the merger.  It throws a TypeError exactly when
    the first tenant's first descriptor is ill formed (a truthy value whose
    deep copy is not an object, or whose [mappings] is a truthy primitive)
    or a conversion throws (of the inferred field [interval], of a counter
    or of a bound of a record: an object with a property [toString] of its
    own); a RangeError exactly when the descriptor is well formed, every
    conversion returns and the bounds of the records' timeframes are finite
    but not valid time values; and nothing else: the deep copy itself never
    fails, since only a truthy value is copied. *)
Theorem merge_throws rs e :
  mergeMultiTenant rs = Throw e
  ↔ (e = TypeError ∧ (typesOk rs = false ∨ conversionsOk rs = false))
    ∨ (e = RangeError ∧ typesOk rs = true ∧ conversionsOk rs = true
       ∧ timeOk rs = false).
Proof.
  destruct rs as [|r0 rs].
  { split; [discriminate|].
    intros [[_ [?|?]]|(_ & _ & _ & ?)]; discriminate. }
  pose proof (mergedType_Ok_iff r0 rs) as Hty.
  pose proof (globalTimeframe_Ok_iff (r0 :: rs)
                (or_else (metadata (normalize (json r0))) (VObj ∅))) as Htime.
  unfold conversionsOk. rewrite merge_cons_eq. cbn zeta.
  set (recs := (r0 :: rs) ≫= stamped) in *.
  set (normalized := normalizeTenant <$> r0 :: rs) in *.
  destruct (mergedType _ _) as [d|e1] eqn:Hd.
  2:{ pose proof (mergedType_throws _ _ _ Hd) as ->.
      cbn [mbind result_bind]. split.
      - intros [= <-]. left. split; [reflexivity|].
        destruct (typesOk (r0 :: rs)) eqn:Et; [right|by left].
        destruct (inferenceOk (r0 :: rs)) eqn:Ei; [|reflexivity].
        destruct (proj2 Hty (conj eq_refl eq_refl)) as [d' Hd'].
        discriminate.
      - intros [[-> _]|(_ & Ht & [[Hi _]%andb_prop _]%andb_prop & _)];
          [reflexivity|].
        destruct (proj2 Hty (conj Ht Hi)) as [d' Hd']. discriminate. }
  destruct (proj1 Hty (ex_intro _ d eq_refl)) as [-> ->].
  cbn [mbind result_bind andb].
  destruct (forallb countersOk normalized).
  2:{ split.
      - intros [= <-]. left. split; [reflexivity|by right].
      - intros [[-> _]|(_ & _ & ? & _)]; [reflexivity|discriminate]. }
  cbn [andb].
  destruct (globalTimeframe recs _) as [w|e2] eqn:Hw.
  - destruct (proj1 Htime (ex_intro _ w eq_refl)) as [-> ->].
    cbn [mbind result_bind].
    edestruct rewrite_returns as [md' Hmd]. cbn zeta in Hmd.
    rewrite Hmd. split; [discriminate|].
    intros [[_ [?|?]]|(_ & _ & _ & ?)]; discriminate.
  - cbn [mbind result_bind].
    destruct (globalTimeframe_throws _ _ _ Hw) as [[-> Hf]|[-> Hf]];
      rewrite Hf.
    + split; [intros [= <-]; left; split; [reflexivity|by right]|].
      intros [[-> _]|(_ & _ & ? & _)]; [reflexivity|discriminate].
    + assert (timeOk (r0 :: rs) = false) as ->.
      { destruct (timeOk (r0 :: rs)) eqn:Eto; [|reflexivity].
        destruct (proj2 Htime (conj Hf eq_refl)) as [w Hw'].
        discriminate. }
      split; [intros [= <-]; right; done|].
      intros [[_ [?|?]]|(-> & _)]; [discriminate..|reflexivity].
Qed.

End MergedTypes.

(** *** The deep copy *)

(** The size of a value, for inductions over nested values. *)
Fixpoint value_size (v : value) : nat :=
  match v with
  | VArr l extra =>
      S (sum_list (value_size <$> l)
         + map_fold (λ _ n acc, n + acc) 0 (value_size <$> extra))
  | VObj o => S (map_fold (λ _ n acc, n + acc) 0 (value_size <$> o))
  | _ => 1
  end.

(** A value as [JSON.parse] yields them: no undefined, no number that is
    infinite, NaN or -0, no named property on an array. *)
Fixpoint isJSON (v : value) : bool :=
  match v with
  | VUndefined => false
  | VNull | VBool _ | VStr _ => true
  | VNum n => isFinite n && negb (is_neg_zero n)
  | VArr l extra => forallb isJSON l && bool_decide (extra = ∅)
  | VObj o => bool_decide (map_Forall (λ _ b, b = true) (isJSON <$> o))
  end.

Section DeepClone.

Lemma map_fold_sum_lookup (m : gmap string nat) k n :
  m !! k = Some n → n ≤ map_fold (λ _ n acc, n + acc) 0 m.
Proof.
  intros Hk. rewrite <- (insert_delete_id m k n Hk).
  rewrite map_fold_insert_L.
  - lia.
  - intros; lia.
  - apply lookup_delete_eq.
Qed.

Lemma sum_list_elem (l : list nat) n : n ∈ l → n ≤ sum_list l.
Proof.
  induction 1 as [|? ? ? _ IH]; simpl; lia.
Qed.

Lemma value_size_elem l extra x :
  x ∈ l → value_size x < value_size (VArr l extra).
Proof.
  intros Hx. cbn [value_size].
  assert (value_size x ≤ sum_list (value_size <$> l))
    by (apply sum_list_elem, list_elem_of_fmap; eauto).
  lia.
Qed.

Lemma value_size_lookup o k x :
  o !! k = Some x → value_size x < value_size (VObj o).
Proof.
  intros Hk. cbn [value_size].
  assert (value_size x ≤ map_fold (λ _ n acc, n + acc) 0 (value_size <$> o)).
  { apply (map_fold_sum_lookup _ k). by rewrite lookup_fmap, Hk. }
  lia.
Qed.

(** Induction on the values nested in a value. *)
Lemma value_ind' (P : value → Prop) :
  P VUndefined → P VNull → (∀ b, P (VBool b)) → (∀ n, P (VNum n)) →
  (∀ s, P (VStr s)) →
  (∀ l extra, (∀ x, x ∈ l → P x) → P (VArr l extra)) →
  (∀ o, (∀ k x, o !! k = Some x → P x) → P (VObj o)) →
  ∀ v, P v.
Proof.
  intros HU HN HB HNum HS HA HO v.
  revert v.
  assert (∀ n v, value_size v < n → P v) as Hall.
  { induction n as [|n IHn]; intros v Hv; [lia|].
    destruct v; auto.
    - apply HA. intros x Hx. apply IHn.
      pose proof (value_size_elem l extra x Hx). lia.
    - apply HO. intros k x Hk. apply IHn.
      pose proof (value_size_lookup o k x Hk). lia. }
  intros v. apply (Hall (S (value_size v))). lia.
Qed.

Lemma isJSON_obj o :
  isJSON (VObj o) = true ↔ ∀ k x, o !! k = Some x → isJSON x = true.
Proof.
  cbn [isJSON]. rewrite bool_decide_eq_true, map_Forall_fmap.
  unfold map_Forall. reflexivity.
Qed.

Lemma isJSON_arr l extra :
  isJSON (VArr l extra) = true ↔ (∀ x, x ∈ l → isJSON x = true) ∧ extra = ∅.
Proof.
  cbn [isJSON]. rewrite andb_true_iff, bool_decide_eq_true, forallb_forall.
  split; intros [Hl ->]; (split; [|reflexivity]); intros x Hx; apply Hl.
  - by apply list_elem_of_In.
  - by apply list_elem_of_In.
Qed.

(** A number equal to zero is 0 or -0. *)
Lemma eqb_zero n :
  PrimFloat.eqb n 0 = true → is_neg_zero n = false → n = 0%float.
Proof.
  rewrite FloatAxioms.eqb_spec. unfold is_neg_zero.
  rewrite FloatAxioms.classify_spec. intros He Hz.
  apply FloatAxioms.Prim2SF_inj.
  change (Prim2SF 0) with (S754_zero false) in *.
  destruct (Prim2SF n) as [[|]|[|]| |[|] ? ?]; cbn in *; try discriminate;
    reflexivity.
Qed.

Lemma neg_zero_eqb n : is_neg_zero n = true → PrimFloat.eqb n 0 = true.
Proof.
  rewrite FloatAxioms.eqb_spec. unfold is_neg_zero.
  rewrite FloatAxioms.classify_spec.
  change (Prim2SF 0) with (S754_zero false).
  destruct (Prim2SF n) as [[|]|[|]| |[|] m e]; cbn; try discriminate;
    try reflexivity.
  all: intros Hz; exfalso;
    match type of Hz with
    | context [if ?c then NNormal else NSubn] => destruct c
    | context [if ?c then PNormal else PSubn] => destruct c
    end; discriminate.
Qed.

Lemma jsonClone_json v : isJSON v = true → jsonClone v = Some v.
Proof.
  induction v as [| | | | |l extra IH|o IH] using value_ind';
    try reflexivity; try discriminate.
  - cbn [isJSON jsonClone]. intros [Hf Hz]%andb_true_iff.
    apply negb_true_iff in Hz. rewrite Hf.
    destruct (PrimFloat.eqb n 0) eqn:He; [|reflexivity].
    by rewrite (eqb_zero n He Hz).
  - intros [Hl ->]%isJSON_arr. cbn [jsonClone]. unfold arr. do 2 f_equal.
    induction l as [|x l IHl]; [reflexivity|]. cbn [map]. f_equal.
    + rewrite (IH x) by (left || apply Hl; left). reflexivity.
    + apply IHl; intros y Hy; [apply IH|apply Hl]; by right.
  - intros Hj. pose proof (proj1 (isJSON_obj o) Hj) as Ho.
    cbn [jsonClone]. do 2 f_equal.
    apply map_eq. intros k. rewrite lookup_omap.
    destruct (o !! k) as [x|] eqn:Hk; [|reflexivity].
    cbn. eauto.
Qed.

Lemma jsonClone_isJSON v c : jsonClone v = Some c → isJSON c = true.
Proof.
  revert c.
  induction v as [| | | | |l extra IH|o IH] using value_ind'; intros c;
    try (intros [= <-]; reflexivity); try discriminate.
  - cbn [jsonClone]. intros [= <-].
    destruct (isFinite n) eqn:Hf; [|reflexivity].
    destruct (PrimFloat.eqb n 0) eqn:He; [reflexivity|].
    cbn [isJSON]. rewrite Hf.
    destruct (is_neg_zero n) eqn:Hz; [|reflexivity].
    apply neg_zero_eqb in Hz. congruence.
  - cbn [jsonClone]. intros [= <-]. apply isJSON_arr. split; [|reflexivity].
    intros y Hy. apply list_elem_of_In, in_map_iff in Hy as (x & <- & Hx).
    apply list_elem_of_In in Hx.
    destruct (jsonClone x) as [c|] eqn:Hc; [|reflexivity].
    by apply (IH x).
  - cbn [jsonClone]. intros [= <-]. apply isJSON_obj. intros k y.
    rewrite lookup_omap. destruct (o !! k) as [x|] eqn:Hk; [|discriminate].
    cbn. by apply (IH k x).
Qed.

(** X9: the deep copy of a JSON value (neither undefined nor a number that
    is infinite, NaN or -0, nor an array with named properties, at any
    depth) is the value itself. *)
Theorem deepClone_json v : isJSON v = true → deepClone v = Ok v.
Proof. intros Hv. unfold deepClone. by rewrite jsonClone_json. Qed.

(** X10: the deep copy fails on undefined alone, with a SyntaxError; every
    other value has a copy, the copy is a JSON value, and copying the copy
    changes nothing. *)
Theorem deepClone_total v :
  (v = VUndefined ∧ deepClone v = Throw SyntaxError)
  ∨ (v ≠ VUndefined
     ∧ ∃ c, deepClone v = Ok c ∧ isJSON c = true ∧ deepClone c = Ok c).
Proof.
  unfold deepClone at 1 2. destruct (jsonClone v) as [c|] eqn:Hc.
  - right. split; [by intros ->|]. exists c. split; [reflexivity|].
    pose proof (jsonClone_isJSON v c Hc) as Hj.
    split; [exact Hj|]. unfold deepClone. by rewrite jsonClone_json.
  - left. split; [|reflexivity]. by destruct v.
Qed.

End DeepClone.

Section JsonDescriptor.
Context `{Host}.

Ltac simpl_default :=
  repeat match goal with
  | |- context [default ?d (Some ?x)] => change (default d (Some x)) with x
  | |- context [default ?d None] => change (default d None) with d
  | |- context [default ?d (head [?x])] => change (default d (head [x])) with x
  end.

(** X11: the usual case of a descriptor as the API returns it, a JSON
    object whose [mappings] is an object: the merged descriptor is that
    very descriptor when its mappings hold a truthy [tenant] entry, and
    otherwise the descriptor with [tenant: {type: "string"}] added to its
    mappings, everything else unchanged. *)
Theorem merge_types_json r0 rs out o m :
  head (types (normalize (json r0))) = Some (VObj o) →
  isJSON (VObj o) = true →
  o !! "mappings" = Some (VObj m) →
  mergeMultiTenant (r0 :: rs) = Ok out →
  types out =
    [VObj (if ToBoolean (default VUndefined (m !! "tenant")) then o
           else <["mappings" := VObj (<["tenant" := typeEntry "string"]> m)]> o)].
Proof.
  intros Hh Hj Hm Hout.
  apply merge_cons_inv in Hout as (d & w & Hd & _ & _ & Ht & _).
  cbn zeta in Hd. rewrite Ht. f_equal.
  unfold mergedType in Hd. cbn [n_types normalizeTenant] in Hd.
  rewrite Hh in Hd.
  change (default VUndefined (Some (VObj o))) with (VObj o) in Hd.
  cbn [ToBoolean] in Hd. unfold deepClone in Hd.
  rewrite (jsonClone_json _ Hj) in Hd.
  cbn [mbind result_bind getT is_nullish] in Hd.
  rewrite (get_obj_lookup _ _ _ Hm) in Hd.
  cbn [or_else ToBoolean setT mbind result_bind] in Hd.
  rewrite (insert_id _ _ _ Hm) in Hd.
  rewrite (get_obj_lookup _ _ _ Hm) in Hd.
  cbn [ToBoolean negb mbind result_bind mret result_ret getT is_nullish] in Hd.
  rewrite (get_obj_lookup _ _ _ Hm) in Hd. cbn [mbind result_bind] in Hd.
  unfold get in Hd.
  destruct (ToBoolean (default VUndefined (m !! "tenant")));
    cbn [negb setT mbind result_bind] in Hd; by injection Hd as <-.
Qed.

End JsonDescriptor.

(** *** The normal form of a response *)

(** The object literal [{records, types, metadata, metrics}] that
    [normalize] and [mergeMultiTenant] return. *)
Definition responseValue (r : Response) : value :=
  VObj {[ "records" := arr (records r); "types" := arr (types r);
          "metadata" := metadata r; "metrics" := arr (metrics r) ]}.

Section Normalize.

(** X12: [normalize] reads a response wrapped in a [result] envelope as the
    response itself (when the wrapped response has no [result] of its
    own). *)
Theorem normalize_envelope json :
  is_nullish (get json "result") = false →
  is_nullish (get (get json "result") "result") = true →
  normalize json = normalize (get json "result").
Proof.
  intros Hr Hrr. unfold normalize, nullish_else. rewrite Hr, Hrr, Hr.
  reflexivity.
Qed.

Lemma normalize_responseValue r :
  is_nullish (metadata r) = false → normalize (responseValue r) = r.
Proof.
  intros Hm. destruct r as [recs tys md mets]. cbn [metadata] in Hm.
  unfold normalize, responseValue.
  cbn [records types metadata metrics].
  assert (get (VObj {[ "records" := arr recs; "types" := arr tys;
                       "metadata" := md; "metrics" := arr mets ]}) "result"
          = VUndefined) as -> by reflexivity.
  cbn [nullish_else is_nullish].
  rewrite (get_obj_lookup _ "records" (arr recs)) by reflexivity.
  rewrite (get_obj_lookup _ "types" (arr tys)) by reflexivity.
  rewrite (get_obj_lookup _ "metadata" md) by reflexivity.
  rewrite (get_obj_lookup _ "metrics" (arr mets)) by reflexivity.
  cbn [asArray arr]. unfold nullish_else. rewrite Hm. reflexivity.
Qed.

(** X13: a normalized response is in normal form: normalizing the object
    that [normalize] returns gives that object back, its metadata being
    never null or undefined. *)
Theorem normalize_idempotent json :
  is_nullish (metadata (normalize json)) = false
  ∧ normalize (responseValue (normalize json)) = normalize json.
Proof.
  assert (is_nullish (metadata (normalize json)) = false) as Hm.
  { unfold normalize. cbn [metadata]. unfold nullish_else at 1.
    by destruct (is_nullish (get _ "metadata")) eqn:E. }
  split; [exact Hm|]. by apply normalize_responseValue.
Qed.

End Normalize.

Section MergedNormal.
Context `{Host}.

(** X14: the merged response is in normal form too: its metadata is an
    object, and [normalize] reads the object that the merger returns as
    the merged response itself, so that a merged response can stand for a
    tenant's payload. *)
Theorem merge_normal_form rs out :
  mergeMultiTenant rs = Ok out →
  (∃ M, metadata out = VObj M) ∧ normalize (responseValue out) = out.
Proof.
  intros Hm.
  assert (∃ M, metadata out = VObj M) as [M HM].
  { destruct rs as [|r0 rs].
    - injection Hm as <-. by eexists.
    - apply merge_metadata in Hm as (tf & M & _ & HM & _). by exists M. }
  split; [by exists M|]. apply normalize_responseValue. by rewrite HM.
Qed.

End MergedNormal.

(** *** The rewrite applied twice *)

(** Every character of [s] satisfies [P]. *)
Fixpoint every (P : Ascii.ascii → bool) (s : string) : bool :=
  match s with
  | EmptyString => true
  | String c s' => P c && every P s'
  end.

Definition not_comma (c : Ascii.ascii) : bool := negb (Ascii.eqb c ","%char).
Definition not_brace (c : Ascii.ascii) : bool := negb (Ascii.eqb c "}"%char).

(** A field as the rewritten clause lists them: not empty, trimmed, free
    of commas. *)
Definition clean (p : string) : Prop :=
  nonempty p = true ∧ trim p = p ∧ every not_comma p = true.

(** The part of the expression before the group: [by:], white space, an
    opening brace; the text after the brace. *)
Definition prefix_ok (s : string) : option string :=
  match s with
  | String b (String y (String colon s1)) =>
      if is_b b && is_y y && Ascii.eqb colon ":"%char then
        match skip_ws s1 with
        | String brace s2 =>
            if Ascii.eqb brace "{"%char then Some s2 else None
        | EmptyString => None
        end
      else None
  | _ => None
  end.

Section Idempotence.

Lemma no_brace_every s : no_brace s = every not_brace s.
Proof. induction s as [|c s IH]; [reflexivity|]. cbn. by rewrite IH. Qed.

Lemma every_app P s t : every P (s +:+ t) = every P s && every P t.
Proof.
  induction s as [|c s IH]; [reflexivity|].
  rewrite app_cons. cbn [every]. rewrite IH. by rewrite andb_assoc.
Qed.

Lemma every_skip_ws P s : every P s = true → every P (skip_ws s) = true.
Proof.
  induction s as [|c s IH]; [done|]. cbn [skip_ws every].
  intros [Hc Hs]%andb_prop. destruct (is_space c); [by apply IH|].
  cbn [every]. by rewrite Hc, Hs.
Qed.

Lemma every_trim_end P s : every P s = true → every P (trim_end s) = true.
Proof.
  induction s as [|c s IH]; [done|]. cbn [trim_end every].
  intros [Hc Hs]%andb_prop. specialize (IH Hs).
  destruct (trim_end s) as [|d t].
  - destruct (is_space c); [reflexivity|]. cbn [every]. by rewrite Hc.
  - cbn [every] in *. by rewrite Hc, IH.
Qed.

Lemma every_trim P s : every P s = true → every P (trim s) = true.
Proof. intros Hs. by apply every_trim_end, every_skip_ws. Qed.

Lemma split_comma_cons s : ∃ p ps, split_comma s = p :: ps.
Proof.
  destruct s as [|c s]; [by eexists _, _|]. cbn [split_comma].
  destruct (Ascii.eqb c ","); [by eexists _, _|].
  destruct (split_comma s); by eexists _, _.
Qed.

Lemma every_split_comma P s p :
  every P s = true → p ∈ split_comma s → every P p = true.
Proof.
  revert p. induction s as [|c s IH]; intros p.
  - intros _ ->%list_elem_of_singleton. reflexivity.
  - cbn [every split_comma]. intros [Hc Hs]%andb_prop.
    destruct (Ascii.eqb c ",").
    + intros [->|Hp]%elem_of_cons; [reflexivity|by apply IH].
    + destruct (split_comma s) as [|q qs] eqn:E.
      * intros ->%list_elem_of_singleton. cbn [every]. by rewrite Hc.
      * intros [->|Hp]%elem_of_cons.
        -- cbn [every]. rewrite Hc. apply IH; [done|left].
        -- apply IH; [done|by right].
Qed.

Lemma split_comma_not_comma s p :
  p ∈ split_comma s → every not_comma p = true.
Proof.
  revert p. induction s as [|c s IH]; intros p.
  - intros ->%list_elem_of_singleton. reflexivity.
  - cbn [split_comma]. destruct (Ascii.eqb c ",") eqn:Hc.
    + intros [->|Hp]%elem_of_cons; [reflexivity|by apply IH].
    + destruct (split_comma s) as [|q qs] eqn:E.
      * intros ->%list_elem_of_singleton. cbn [every]. unfold not_comma.
        by rewrite Hc.
      * intros [->|Hp]%elem_of_cons.
        -- cbn [every]. unfold not_comma at 1. rewrite Hc. apply IH. left.
        -- apply IH. by right.
Qed.

Lemma split_comma_single p : every not_comma p = true → split_comma p = [p].
Proof.
  induction p as [|c p IH]; [reflexivity|]. cbn [every split_comma].
  intros [Hc Hp]%andb_prop. unfold not_comma in Hc.
  apply negb_true_iff in Hc. rewrite Hc, (IH Hp). reflexivity.
Qed.

Lemma split_comma_app p s :
  every not_comma p = true →
  split_comma (p +:+ String "," s) = p :: split_comma s.
Proof.
  induction p as [|c p IH].
  - intros _. rewrite app_empty_l. cbn [split_comma].
    by rewrite Ascii.eqb_refl.
  - cbn [every]. intros [Hc Hp]%andb_prop. unfold not_comma in Hc.
    apply negb_true_iff in Hc. rewrite app_cons. cbn [split_comma].
    rewrite Hc, (IH Hp). reflexivity.
Qed.

(** Trimming. *)
Lemma trim_end_idem s : trim_end (trim_end s) = trim_end s.
Proof.
  induction s as [|c s IH]; [reflexivity|]. cbn [trim_end].
  destruct (trim_end s) as [|d t] eqn:E.
  - destruct (is_space c) eqn:Hc; [reflexivity|]. cbn [trim_end].
    by rewrite Hc.
  - cbn [trim_end]. cbn [trim_end] in IH. rewrite IH. reflexivity.
Qed.

Lemma trim_end_head c s :
  is_space c = false → ∃ t, trim_end (String c s) = String c t.
Proof.
  intros Hc. cbn [trim_end]. destruct (trim_end s); rewrite ?Hc; by eexists.
Qed.

Lemma skip_ws_head s :
  skip_ws s = "" ∨ ∃ c t, skip_ws s = String c t ∧ is_space c = false.
Proof.
  induction s as [|c s IH]; [by left|]. cbn [skip_ws].
  destruct (is_space c) eqn:Hc; [exact IH|]. right. by exists c, s.
Qed.

Lemma trim_head s :
  trim s = "" ∨ ∃ c t, trim s = String c t ∧ is_space c = false.
Proof.
  unfold trim. destruct (skip_ws_head s) as [->|(c & t & -> & Hc)];
    [by left|].
  right. destruct (trim_end_head c t Hc) as [t' ->]. by exists c, t'.
Qed.

Lemma trim_idem s : trim (trim s) = trim s.
Proof.
  destruct (trim_head s) as [->|(c & t & E & Hc)]; [reflexivity|].
  unfold trim at 1. rewrite E. cbn [skip_ws]. rewrite Hc, <- E.
  unfold trim. apply trim_end_idem.
Qed.

Lemma trim_blank ws s : blank ws = true → trim (ws +:+ s) = trim s.
Proof. intros Hws. unfold trim. by rewrite skip_ws_blank. Qed.

Lemma clean_head p :
  clean p → ∃ c t, p = String c t ∧ is_space c = false.
Proof.
  intros (Hne & Ht & _). destruct (trim_head p) as [E|(c & t & E & Hc)].
  - rewrite Ht in E. subst p. discriminate.
  - rewrite Ht in E. by exists c, t.
Qed.

(** The fields of a group are clean. *)
Lemma by_fields_clean g p : p ∈ by_fields g → clean p.
Proof.
  unfold by_fields. intros [Hne Hp]%list_elem_of_filter.
  apply list_elem_of_fmap in Hp as (q & -> & Hq).
  split_and!; [exact Hne|apply trim_idem|].
  by apply every_trim, (split_comma_not_comma g).
Qed.

Lemma by_fields_every P g p :
  every P g = true → p ∈ by_fields g → every P p = true.
Proof.
  unfold by_fields. intros Hg [_ Hp]%list_elem_of_filter.
  apply list_elem_of_fmap in Hp as (q & -> & Hq).
  by apply every_trim, (every_split_comma P g).
Qed.

(** Joining clean fields and splitting the text again gives the fields. *)
Lemma by_fields_cons p s :
  every not_comma p = true → nonempty (trim p) = true →
  by_fields (p +:+ String "," s) = trim p :: by_fields s.
Proof.
  intros Hp Hne. unfold by_fields. rewrite split_comma_app by exact Hp.
  rewrite fmap_cons, filter_cons_True by exact Hne. reflexivity.
Qed.

Lemma by_fields_join ws l :
  l ≠ [] → blank ws = true → every not_comma ws = true →
  (∀ p, p ∈ l → clean p) →
  by_fields (ws +:+ String.concat ", " l) = l.
Proof.
  revert ws. induction l as [|p l IH]; intros ws Hl Hws Hcw Hclean; [done|].
  destruct (Hclean p ltac:(left)) as (Hne & Ht & Hc).
  destruct l as [|q l].
  - cbn [String.concat]. unfold by_fields.
    rewrite split_comma_single by (rewrite every_app, Hcw, Hc; done).
    cbn [fmap list_fmap]. rewrite trim_blank, Ht by exact Hws.
    by rewrite filter_cons_True, filter_nil by exact Hne.
  - change (String.concat ", " (p :: q :: l))
      with (p +:+ String "," (" " +:+ String.concat ", " (q :: l))).
    rewrite <- app_assoc'.
    rewrite by_fields_cons.
    + rewrite trim_blank, Ht by exact Hws. f_equal.
      apply IH; [done|reflexivity|reflexivity|].
      intros r Hr. apply Hclean. by right.
    + rewrite every_app, Hcw, Hc. done.
    + by rewrite trim_blank, Ht.
Qed.

Lemma by_fields_concat l :
  (∀ p, p ∈ l → clean p) → by_fields (String.concat ", " l) = l.
Proof.
  intros Hl. destruct l as [|p l]; [reflexivity|].
  rewrite <- (app_empty_l (String.concat _ _)). by apply by_fields_join.
Qed.

Lemma every_concat P l :
  every P ", " = true → (∀ p, p ∈ l → every P p = true) →
  every P (String.concat ", " l) = true.
Proof.
  intros Hsep. induction l as [|p l IH]; intros Hl; [reflexivity|].
  destruct l as [|q l]; [apply Hl; left|].
  change (String.concat ", " (p :: q :: l))
    with (p +:+ ", " +:+ String.concat ", " (q :: l)).
  rewrite !every_app, Hsep, (Hl p) by left.
  rewrite IH; [reflexivity|]. intros r Hr. apply Hl. by right.
Qed.

Lemma tenant_clean : clean "tenant".
Proof. split_and!; reflexivity. Qed.

Lemma with_tenant_clean l :
  (∀ p, p ∈ l → clean p) → ∀ p, p ∈ with_tenant l → clean p.
Proof.
  intros Hl p. unfold with_tenant. case_bool_decide; [apply Hl|].
  intros [Hp| ->%list_elem_of_singleton]%elem_of_app;
    [by apply Hl|apply tenant_clean].
Qed.

Lemma with_tenant_elem l : "tenant" ∈ with_tenant l.
Proof.
  unfold with_tenant. case_bool_decide; [done|].
  apply elem_of_app. right. left.
Qed.

Lemma with_tenant_idem l : with_tenant (with_tenant l) = with_tenant l.
Proof.
  unfold with_tenant at 1. rewrite bool_decide_eq_true_2; [reflexivity|].
  apply with_tenant_elem.
Qed.

Lemma by_replacement_eq g :
  by_replacement g =
    "by:{" +:+ String.concat ", " (with_tenant (by_fields g)) +:+ "}".
Proof. reflexivity. Qed.

(** The fields of a rewritten group are the group's own: the rewrite has
    nothing to add to them. *)
Lemma by_fields_rewritten g :
  by_fields (String.concat ", " (with_tenant (by_fields g)))
  = with_tenant (by_fields g).
Proof.
  apply by_fields_concat, with_tenant_clean. apply by_fields_clean.
Qed.

(** The rewritten clause is matched as a whole. *)
Lemma match_by_rewritten g rest :
  no_brace g = true →
  match_by (by_replacement g +:+ rest)
  = Some (String.concat ", " (with_tenant (by_fields g)), rest).
Proof.
  intros Hg. set (body := String.concat ", " (with_tenant (by_fields g))).
  assert (no_brace body = true) as Hbody.
  { rewrite no_brace_every. apply every_concat; [reflexivity|].
    intros p Hp. unfold with_tenant in Hp. case_bool_decide.
    - apply (by_fields_every _ g); [by rewrite <- no_brace_every|done].
    - apply elem_of_app in Hp as [Hp| ->%list_elem_of_singleton];
        [|reflexivity].
      apply (by_fields_every _ g); [by rewrite <- no_brace_every|done]. }
  assert (skip_ws body = body) as Hskip.
  { assert (∃ p l, with_tenant (by_fields g) = p :: l ∧ clean p)
      as (p & l & E & Hp).
    { pose proof (with_tenant_elem (by_fields g)) as Hin.
      pose proof (with_tenant_clean _ (by_fields_clean g)) as Hcl.
      destruct (with_tenant (by_fields g)) as [|p l];
        [by apply elem_of_nil in Hin|].
      exists p, l. split; [reflexivity|]. apply Hcl. left. }
    unfold body. rewrite E.
    destruct (clean_head p Hp) as (c & t & -> & Hc).
    destruct l; cbn [String.concat]; rewrite ?app_cons; cbn [skip_ws];
      by rewrite Hc. }
  rewrite by_replacement_eq. fold body.
  rewrite <- Hskip at 2.
  apply (match_by_clause ("by:{" +:+ body +:+ "}") body rest).
  exists "b"%char, "y"%char, "", "". split_and!; try reflexivity.
  exact Hbody.
Qed.

(** The prefix and the group. *)
Lemma match_by_prefix s :
  match_by s = prefix_ok s ≫= λ s2, until_brace (skip_ws s2).
Proof.
  destruct s as [|b [|y [|colon s1]]]; try reflexivity.
  cbn [match_by prefix_ok].
  destruct (is_b b && is_y y && Ascii.eqb colon ":"); [|reflexivity].
  destruct (skip_ws s1) as [|brace s2]; [reflexivity|].
  destruct (Ascii.eqb brace "{"); reflexivity.
Qed.

Lemma is_b_chars b :
  is_b b = true →
  is_y b = false ∧ Ascii.eqb b ":" = false ∧ is_space b = false
  ∧ Ascii.eqb b "{" = false.
Proof.
  unfold is_b. intros [->%Ascii.eqb_eq| ->%Ascii.eqb_eq]%orb_prop;
    split_and!; reflexivity.
Qed.

Lemma skip_ws_app u z :
  match skip_ws u with
  | EmptyString => skip_ws (u +:+ z) = skip_ws z
  | String d u' => skip_ws (u +:+ z) = String d (u' +:+ z)
  end.
Proof.
  induction u as [|c u IH]; [reflexivity|]. rewrite app_cons.
  cbn [skip_ws]. destruct (is_space c); [exact IH|]. reflexivity.
Qed.

(** A prefix that starts before a clause either fails whatever clause
    follows, or ends before the clause. *)
Lemma prefix_boundary u :
  u ≠ "" →
  (∀ b z, is_b b = true → prefix_ok (u +:+ String b z) = None)
  ∨ (∃ v, ∀ z, prefix_ok (u +:+ z) = Some (v +:+ z)).
Proof.
  intros Hu. destruct u as [|c0 [|c1 [|c2 u]]]; [done|..].
  - left. intros b z Hb. apply is_b_chars in Hb as (Hy & _).
    rewrite app_cons, app_empty_l. destruct z as [|? ?]; [reflexivity|].
    cbn [prefix_ok]. by rewrite Hy, andb_false_r.
  - left. intros b z Hb. apply is_b_chars in Hb as (_ & Hc & _).
    rewrite !app_cons, app_empty_l. cbn [prefix_ok].
    by rewrite Hc, andb_false_r.
  - destruct (is_b c0 && is_y c1 && Ascii.eqb c2 ":") eqn:Hk.
    2:{ left. intros b z _. rewrite !app_cons. cbn [prefix_ok].
        by rewrite Hk. }
    destruct (skip_ws u) as [|d u'] eqn:Hs.
    + left. intros b z Hb. apply is_b_chars in Hb as (_ & _ & Hsp & Hbr).
      rewrite !app_cons. cbn [prefix_ok]. rewrite Hk.
      pose proof (skip_ws_app u (String b z)) as Happ.
      rewrite Hs in Happ. rewrite Happ. cbn [skip_ws]. by rewrite Hsp, Hbr.
    + destruct (Ascii.eqb d "{") eqn:Hd.
      * right. exists u'. intros z. rewrite !app_cons. cbn [prefix_ok].
        rewrite Hk. pose proof (skip_ws_app u z) as Happ.
        rewrite Hs in Happ. by rewrite Happ, Hd.
      * left. intros b z _. rewrite !app_cons. cbn [prefix_ok].
        rewrite Hk. pose proof (skip_ws_app u (String b z)) as Happ.
        rewrite Hs in Happ. by rewrite Happ, Hd.
Qed.

Lemma until_brace_None s : until_brace s = None → no_brace s = true.
Proof.
  induction s as [|c s IH]; [done|]. cbn [until_brace no_brace].
  destruct (Ascii.eqb c "}"); [discriminate|].
  destruct (until_brace s) as [[? ?]|]; [discriminate|].
  intros _. by rewrite IH.
Qed.

Lemma no_brace_skip_ws_inv s : no_brace (skip_ws s) = true → no_brace s = true.
Proof.
  induction s as [|c s IH]; [done|]. cbn [skip_ws no_brace].
  destruct (is_space c) eqn:Hc; [|done].
  intros Hs. rewrite (IH Hs), andb_true_r.
  destruct (Ascii.eqb c "}") eqn:E; [|reflexivity].
  apply Ascii.eqb_eq in E as ->. discriminate.
Qed.

Lemma match_by_Some_brace s g rest :
  match_by s = Some (g, rest) → no_brace s = false.
Proof.
  intros (clause & (b & y & ws1 & ws2 & _ & _ & _ & _ & _ & ->) & ->)
    %match_by_Some.
  rewrite by_clause_app, no_brace_every. cbn [every].
  rewrite every_app. cbn [every]. rewrite !every_app. cbn [every].
  change (not_brace "}") with false.
  by rewrite !andb_false_r.
Qed.

Lemma match_by_Some_head s g rest :
  match_by s = Some (g, rest) → ∃ b z, s = String b z ∧ is_b b = true.
Proof.
  destruct s as [|b [|y [|colon s1]]]; try discriminate. cbn [match_by].
  destruct (is_b b) eqn:Hb; [|discriminate]. intros _. by eexists b, _.
Qed.

(** Rewriting the text after a character on which nothing is matched
    leaves nothing to match on that character. *)
Lemma match_by_None_replace c t :
  match_by (String c t) = None → match_by (String c (replace_by t)) = None.
Proof.
  intros Hnone.
  destruct (replace_by_spec t)
    as [(pre & s & g1 & rest & -> & Hs & ->)|[_ ->]]; [|exact Hnone].
  change (String c (pre +:+ s)) with (String c pre +:+ s) in Hnone.
  change (String c (pre +:+ by_replacement g1 +:+ rest))
    with (String c pre +:+ by_replacement g1 +:+ rest).
  destruct (prefix_boundary (String c pre)) as [Hl|[v Hr]]; [done|..].
  - rewrite match_by_prefix.
    change (by_replacement g1 +:+ rest)
      with (String "b"
              ("y:{" +:+ (String.concat ", " (with_tenant (by_fields g1))
                          +:+ "}") +:+ rest)).
    by rewrite Hl.
  - exfalso. rewrite match_by_prefix, Hr in Hnone. cbn in Hnone.
    apply until_brace_None, no_brace_skip_ws_inv in Hnone.
    rewrite no_brace_every, every_app, <- !no_brace_every in Hnone.
    apply andb_prop in Hnone as [_ Hnone].
    by rewrite (match_by_Some_brace _ _ _ Hs) in Hnone.
Qed.

Lemma replace_by_idem txt : replace_by (replace_by txt) = replace_by txt.
Proof.
  induction txt as [|c t IH]; [reflexivity|].
  rewrite (replace_by_eq (String c t)).
  destruct (match_by (String c t)) as [[g1 rest]|] eqn:Hm.
  - assert (no_brace g1 = true) as Hg.
    { apply match_by_Some in Hm
        as (clause & (b & y & ws1 & ws2 & _ & _ & _ & _ & Hg & _) & _).
      exact Hg. }
    rewrite replace_by_eq, (match_by_rewritten g1 rest Hg).
    rewrite (by_replacement_eq (String.concat _ _)), by_fields_rewritten.
    rewrite with_tenant_idem. reflexivity.
  - rewrite replace_by_eq, (match_by_None_replace c t Hm), IH. reflexivity.
Qed.

(** X15: the rewrite is idempotent: a text or value that [addTenantToBy]
    has rewritten is left unchanged by [addTenantToBy]; the fields that the
    rewritten clause lists are read back, by the splitting of the rewrite,
    as themselves, [tenant] among them. *)
Theorem addTenantToBy_idempotent :
  (∀ v, addTenantToBy (addTenantToBy v) = addTenantToBy v)
  ∧ (∀ g, let fields := with_tenant (by_fields g) in
          "tenant" ∈ fields
          ∧ by_fields (String.concat ", " fields) = fields).
Proof.
  split.
  - intros v. destruct v; try reflexivity. cbn [addTenantToBy].
    by rewrite replace_by_idem.
  - intros g. split; [apply with_tenant_elem|apply by_fields_rewritten].
Qed.

End Idempotence.

(** ** The other copies of the merger

    [src/unnamed/part_000] and [src/unnamed/part_001] hold the tile again,
    with the same utilities, [globalTimeframe], [inferTypesFromRecord] and
    rewrite, and a merger that differs in a few statements. *)

(** *** [src/unnamed/part_000] *)

Module Part000.
Section Merge.
Context `{Host}.

(** [types0]: there is no statement that resets falsy [mappings]. *)
Definition mergedType (n0 : Normalized) (allRecords : list value)
  : result value :=
  let baseTypes0 := default VUndefined (head (n_types n0)) in
  types0 ←
    (if ToBoolean baseTypes0
     then types0 ← deepClone baseTypes0;
          m ← getT types0 "mappings";
          setT types0 "mappings" (or_else m (VObj ∅))
     else inferred ← inferTypesFromRecord
                       (default VUndefined (head allRecords));
          mret (default VUndefined (head inferred)));
  mappings ← getT types0 "mappings";
  entry ← getT mappings "tenant";
  if negb (ToBoolean entry)
  then mappings ← setT mappings "tenant" (typeEntry "string");
       setT types0 "mappings" mappings
  else mret types0.

(** The object literal bound to [metadata]: the breakdown is not part of
    it. *)
Definition mergedMetadata (widened tz baseGrail : value) (totals : Totals)
  : value :=
  VObj (<["executionTimeMilliseconds" :=
            VNum (executionTimeMilliseconds totals)]>
          (<["grail" :=
               VObj (<["scannedDataPoints" := VNum (scannedDataPoints totals)]>
                   (<["scannedBytes" := VNum (scannedBytes totals)]>
                      (<["scannedRecords" := VNum (scannedRecords totals)]>
                         (<["timezone" :=
                              or_else (or_else tz (get baseGrail "timezone"))
                                (VStr "Z")]>
                            (ownProps
                               (or_else (get widened "grail") (VObj ∅)))))))]>
             (ownProps widened))).

Definition mergeMultiTenant (responses : list TenantResponse)
  : result Response :=
  match normalizeTenant <$> responses with
  | [] => mret {| records := []; types := []; metadata := VObj ∅;
                  metrics := [] |}
  | (n0 :: _) as normalized =>
      let allRecords := normalized ≫= n_records in
      types0 ← mergedType n0 allRecords;
      let baseMeta := or_else (n_metadata n0) (VObj ∅) in
      let baseGrail := or_else (get baseMeta "grail") (VObj ∅) in
      '(totals, perTenant) ← foldM tally normalized (zeroTotals, ∅);
      widened ← globalTimeframe allRecords baseMeta;
      let metadata :=
        mergedMetadata widened (tzCandidate normalized) baseGrail totals in
      (* metadata.grail = { ...(metadata.grail || {}), ...perTenant } *)
      metadata ←
        setT metadata "grail"
          (VObj (perTenant
                 ∪ ownProps (or_else (get metadata "grail") (VObj ∅))));
      metadata ←
        (if ToBoolean (get metadata "grail")
         then metadata ← rewriteQuery "canonicalQuery" metadata;
              rewriteQuery "query" metadata
         else mret metadata);
      mret {| records := allRecords; types := [types0]; metadata := metadata;
              metrics := n_metrics n0 |}
  end.

End Merge.
End Part000.

(** *** [src/unnamed/part_001] *)

Module Part001.
Section Merge.
Context `{Host}.

(** [scannedSum]: the [reduce] over the tenants. *)
Definition scannedSum (normalized : list Normalized) : result float :=
  foldM
    (λ acc n,
       sdp ← ToNumber (or_else (get (get (n_metadata n) "grail")
                                  "scannedDataPoints") (VNum 0));
       mret (acc + sdp)%float)
    normalized 0%float.

(** The argument of [globalTimeframe]. *)
Definition summedMeta (baseMeta : value) (scannedSum : float) : value :=
  VObj (<["grail" :=
            VObj (<["scannedDataPoints" :=
                      or_else (VNum scannedSum)
                        (get (get baseMeta "grail") "scannedDataPoints")]>
                    (ownProps (nullish_else (get baseMeta "grail") (VObj ∅))))]>
          (ownProps baseMeta)).

Definition mergeMultiTenant (responses : list TenantResponse)
  : result Response :=
  match normalizeTenant <$> responses with
  | [] => mret {| records := []; types := []; metadata := VObj ∅;
                  metrics := [] |}
  | (n0 :: _) as normalized =>
      let allRecords := normalized ≫= n_records in
      (* the statements on types0 are those of part_000 *)
      types0 ← Part000.mergedType n0 allRecords;
      let baseMeta := or_else (n_metadata n0) (VObj ∅) in
      sum ← scannedSum normalized;
      metadata ← globalTimeframe allRecords (summedMeta baseMeta sum);
      metadata ←
        (if ToBoolean (get metadata "grail")
         then metadata ← rewriteQuery "canonicalQuery" metadata;
              rewriteQuery "query" metadata
         else mret metadata);
      mret {| records := allRecords; types := [types0]; metadata := metadata;
              metrics := n_metrics n0 |}
  end.

End Merge.
End Part001.

Section Copies.
Context `{Host}.

Ltac simpl_default :=
  repeat match goal with
  | |- context [default ?d (Some ?x)] => change (default d (Some x)) with x
  | |- context [default ?d None] => change (default d None) with d
  | |- context [default ?d (head [?x])] => change (default d (head [x])) with x
  end.

Lemma get_VObj M k : get (VObj M) k = default VUndefined (M !! k).
Proof. reflexivity. Qed.

Ltac lookups :=
  repeat first [rewrite lookup_insert_eq | rewrite lookup_insert_ne by done].

Ltac not_breakdown :=
  unfold breakdownKeys; set_unfold; cbn; intros; intuition simplify_eq.

(** The statement that [part_000] leaves out does nothing: the mappings
    are truthy when it is reached. *)
Lemma mergedType_part000 n0 recs :
  Part000.mergedType n0 recs = mergedType n0 recs.
Proof.
  unfold Part000.mergedType, mergedType.
  assert (Hfin : ∀ t0, ToBoolean (get t0 "mappings") = true →
    (getT t0 "mappings" ≫= λ mappings,
       getT mappings "tenant" ≫= λ entry,
         if negb (ToBoolean entry)
         then setT mappings "tenant" (typeEntry "string") ≫= λ mappings,
                setT t0 "mappings" mappings
         else mret t0)
    = ((if negb (ToBoolean (get t0 "mappings"))
        then setT t0 "mappings" (VObj ∅) else mret t0) ≫= λ types0,
         getT types0 "mappings" ≫= λ mappings,
           if negb (ToBoolean (get mappings "tenant"))
           then setT mappings "tenant" (typeEntry "string") ≫= λ mappings,
                  setT types0 "mappings" mappings
           else mret types0)).
  { intros t0 Ht0. rewrite Ht0. cbn [negb mbind result_bind mret result_ret].
    assert (is_nullish t0 = false) as Hn by by destruct t0.
    unfold getT. rewrite Hn. cbn [mbind result_bind].
    destruct (get t0 "mappings"); try discriminate; reflexivity. }
  destruct (ToBoolean (default VUndefined (head (n_types n0)))).
  - destruct (deepClone _) as [c|]; [|reflexivity]. cbn [mbind result_bind].
    destruct (getT c "mappings") as [m|] eqn:Hm; [|reflexivity].
    apply getT_Ok in Hm as ->. cbn [mbind result_bind].
    destruct (setT c "mappings" _) as [t0|] eqn:Ht0; [|reflexivity].
    cbn [mbind result_bind]. apply Hfin.
    rewrite (get_setT_eq _ _ _ _ Ht0). unfold or_else.
    by destruct (ToBoolean (get c "mappings")) eqn:E.
  - rewrite inferTypesFromRecord_eq.
    destruct (intervalOk _); [|reflexivity].
    cbn [mbind result_bind mret result_ret]. simpl_default. apply Hfin.
    rewrite inferredDescriptor_mappings. reflexivity.
Qed.

(** X16: the merger of [src/unnamed/part_000] is the merger of
    [src/multi-tenant.ts]: on every input both throw the same exception or
    return the same response.  The statement that resets falsy mappings,
    which [part_000] lacks, is never effective, and adding the breakdown
    after the literal is adding it at the end of the literal. *)
Theorem part000_same rs :
  Part000.mergeMultiTenant rs = mergeMultiTenant rs.
Proof.
  unfold Part000.mergeMultiTenant, mergeMultiTenant.
  destruct (normalizeTenant <$> rs) as [|n0 l]; [reflexivity|].
  cbn zeta. rewrite mergedType_part000.
  destruct (mergedType _ _) as [d|]; [|reflexivity]. cbn [mbind result_bind].
  destruct (foldM tally _ _) as [[totals perTenant]|]; [|reflexivity].
  cbn [mbind result_bind].
  destruct (globalTimeframe _ _) as [w|] eqn:Hw; [|reflexivity].
  cbn [mbind result_bind].
  assert (setT (Part000.mergedMetadata w (tzCandidate (n0 :: l))
                  (or_else (get (or_else (n_metadata n0) (VObj ∅)) "grail")
                     (VObj ∅)) totals) "grail"
            (VObj (perTenant ∪ ownProps (or_else
               (get (Part000.mergedMetadata w (tzCandidate (n0 :: l))
                  (or_else (get (or_else (n_metadata n0) (VObj ∅)) "grail")
                     (VObj ∅)) totals) "grail") (VObj ∅))))
          = Ok (mergedMetadata w (tzCandidate (n0 :: l))
                  (or_else (get (or_else (n_metadata n0) (VObj ∅)) "grail")
                     (VObj ∅)) totals perTenant)) as ->.
  { unfold Part000.mergedMetadata, mergedMetadata. cbn [setT].
    erewrite (get_obj_lookup _ "grail")
      by (rewrite lookup_insert_ne by done; apply lookup_insert_eq).
    cbn [or_else ToBoolean ownProps]. f_equal. f_equal.
    apply map_eq. intros k. rewrite !lookup_insert.
    repeat case_decide; simplify_eq; reflexivity. }
  reflexivity.
Qed.

(** The counter that [part_001] reads from a tenant can be converted. *)
Definition sdpOk (n : Normalized) : bool :=
  convertible (or_else (get (get (n_metadata n) "grail") "scannedDataPoints")
                 (VNum 0)).

Lemma countersOk_sdpOk l :
  forallb countersOk l = true → forallb sdpOk l = true.
Proof.
  rewrite !forallb_forall. intros Hl n Hn. specialize (Hl n Hn).
  unfold countersOk in Hl. cbn zeta in Hl. rewrite !get_or_else_obj in Hl.
  apply andb_prop in Hl as [[[_ _]%andb_prop Hl]%andb_prop _]. exact Hl.
Qed.

(** The sum of [part_001] is the total of the merger, when the counter of
    every tenant can be converted; the [reduce] throws otherwise. *)
Lemma scannedSum_total (l : list Normalized) :
  Part001.scannedSum l =
    if forallb sdpOk l
    then Ok (scannedDataPoints (fold_left accumulate l (zeroTotals, ∅)).1)
    else Throw TypeError.
Proof.
  unfold Part001.scannedSum.
  rewrite (foldM_guard _ sdpOk
             (λ acc n,
                (acc + NumberOf (or_else (get (get (n_metadata n) "grail")
                                            "scannedDataPoints") (VNum 0)))%float)
             TypeError).
  2:{ intros acc n. unfold sdpOk, ToNumber.
      by destruct (convertible _). }
  destruct (forallb sdpOk l); [|reflexivity]. f_equal.
  assert (∀ st : Totals * gmap string value,
    fold_left
      (λ acc n,
         (acc + NumberOf (or_else (get (get (n_metadata n) "grail")
                                     "scannedDataPoints") (VNum 0)))%float)
      l (scannedDataPoints st.1)
    = scannedDataPoints (fold_left accumulate l st).1) as Hgen.
  { induction l as [|n l IH]; intros st; [reflexivity|].
    cbn [fold_left]. rewrite <- IH. f_equal.
    destruct st as [totals perTenant]. cbn [accumulate fst scannedDataPoints].
    unfold counters. cbn [scannedDataPoints]. by rewrite get_or_else_obj. }
  apply (Hgen (zeroTotals, ∅)).
Qed.

(** The widener does not read the fields that [part_001] adds to the base
    metadata: it throws on the same records. *)
Lemma globalTimeframe_same_bounds recs baseMeta baseMeta' :
  match globalTimeframe recs baseMeta, globalTimeframe recs baseMeta' with
  | Ok _, Ok _ => True
  | Throw e, Throw e' => e = e'
  | _, _ => False
  end.
Proof.
  rewrite !globalTimeframe_cases. cbn zeta.
  destruct (forallb timeframeOk recs); [|done].
  destruct (isFinite (bounds recs).1 && isFinite (bounds recs).2); [|done].
  destruct (TimeClip (bounds recs).1), (TimeClip (bounds recs).2); done.
Qed.

(** X17: the merger of [src/unnamed/part_001], which keeps the first
    tenant's metadata and sums [scannedDataPoints] alone, agrees with the
    merger of [src/multi-tenant.ts] on what both compute.  When both return
    they return the same records, types and metrics, the same top-level
    metadata fields other than [grail] and [executionTimeMilliseconds], and
    the same [analysisTimeframe], [canonicalQuery] and [query] in [grail];
    the [scannedDataPoints] of [part_001] is the total when the total is
    truthy, the first tenant's value otherwise.  [part_001] returns
    whenever the merger of [src/multi-tenant.ts] does.  They throw the same
    exception, unless the latter throws the TypeError of a counter that
    cannot be converted, of which [part_001] converts [scannedDataPoints]
    alone. *)
Theorem part001_agrees rs :
  match Part001.mergeMultiTenant rs, mergeMultiTenant rs with
  | Ok o1, Ok o =>
      records o1 = records o ∧ types o1 = types o ∧ metrics o1 = metrics o
      ∧ (∀ k, k ≠ "grail" → k ≠ "executionTimeMilliseconds" →
           ownProps (metadata o1) !! k = ownProps (metadata o) !! k)
      ∧ (∀ k, k ∈ ["analysisTimeframe"; "canonicalQuery"; "query"] →
           get (get (metadata o1) "grail") k = get (get (metadata o) "grail") k)
      ∧ (∀ r0, head rs = Some r0 →
           get (get (metadata o1) "grail") "scannedDataPoints"
           = or_else (get (get (metadata o) "grail") "scannedDataPoints")
               (get (get (metadata (normalize (json r0))) "grail")
                  "scannedDataPoints"))
  | Throw e1, Throw e =>
      e1 = e
      ∨ (e = TypeError ∧ forallb countersOk (normalizeTenant <$> rs) = false)
  | Ok _, Throw e =>
      e = TypeError ∧ forallb countersOk (normalizeTenant <$> rs) = false
  | Throw _, Ok _ => False
  end.
Proof.
  destruct rs as [|r0 rs].
  { cbn. split_and!; try done. }
  destruct (merge_cons_steps r0 rs) as (Ht & Hc & Hg & Hok). cbn zeta in *.
  assert (Hp : Part001.mergeMultiTenant (r0 :: rs) =
    (Part000.mergedType (normalizeTenant r0) ((r0 :: rs) ≫= stamped)
       ≫= λ types0,
     Part001.scannedSum (normalizeTenant <$> r0 :: rs) ≫= λ sum,
     globalTimeframe ((r0 :: rs) ≫= stamped)
       (Part001.summedMeta (or_else (metadata (normalize (json r0))) (VObj ∅))
          sum) ≫= λ md,
     (if ToBoolean (get md "grail")
      then rewriteQuery "canonicalQuery" md ≫= rewriteQuery "query"
      else mret md) ≫= λ md,
     mret {| records := (r0 :: rs) ≫= stamped; types := [types0];
             metadata := md; metrics := metrics (normalize (json r0)) |})).
  { unfold Part001.mergeMultiTenant. rewrite fmap_cons.
    rewrite <- (fmap_cons normalizeTenant), allRecords_stamped.
    rewrite fmap_cons. cbn zeta.
    rewrite <- (fmap_cons normalizeTenant). reflexivity. }
  rewrite Hp, mergedType_part000. clear Hp.
  set (baseMeta := or_else (metadata (normalize (json r0))) (VObj ∅)) in *.
  set (recs := (r0 :: rs) ≫= stamped) in *.
  set (normalized := normalizeTenant <$> r0 :: rs) in *.
  destruct (mergedType (normalizeTenant r0) recs) as [d|e1] eqn:Hd.
  2:{ rewrite (Ht e1 eq_refl). by left. }
  cbn [mbind result_bind]. rewrite scannedSum_total.
  destruct (forallb countersOk normalized) eqn:Hco.
  2:{ rewrite (Hc d eq_refl eq_refl).
      match goal with
      | |- match ?p with _ => _ end => destruct p
      end; [done|by right]. }
  rewrite (countersOk_sdpOk _ Hco). cbn [mbind result_bind].
  set (sum := scannedDataPoints (fold_left accumulate normalized (zeroTotals, ∅)).1).
  pose proof (globalTimeframe_same_bounds recs
    (Part001.summedMeta baseMeta sum) baseMeta) as Hsame.
  destruct (globalTimeframe recs baseMeta) as [w|e2] eqn:Hw.
  2:{ rewrite (Hg d e2 eq_refl eq_refl eq_refl).
      destruct (globalTimeframe recs (Part001.summedMeta _ _));
        [done|left; by subst]. }
  destruct (Hok d w eq_refl eq_refl eq_refl) as [out Hout]. rewrite Hout.
  destruct (globalTimeframe recs (Part001.summedMeta _ _)) as [w1|] eqn:Hw1;
    [|done].
  clear Hsame Ht Hg Hok Hc.
  pose proof (merge_cons_inv _ _ _ Hout) as (d' & w' & Hd' & _ & Hr & Hty & Hmet & _).
  cbn zeta in Hd'. fold recs in Hd', Hr. rewrite Hd in Hd'. injection Hd' as <-.
  pose proof (merge_metadata _ _ _ Hout) as (tf & M & Hwtf & HM & HG & _ & Hother).
  cbn zeta in Hwtf, HG, Hother. fold recs baseMeta in Hwtf, HG, Hother.
  (* the two wideners computed the same timeframe *)
  assert (∃ tf1,
    w1 = VObj (<["grail" := VObj (<["analysisTimeframe" := tf1]>
                  (<["scannedDataPoints" :=
                       or_else (VNum sum)
                         (get (get baseMeta "grail") "scannedDataPoints")]>
                     (ownProps (nullish_else (get baseMeta "grail") (VObj ∅)))))]>
                (ownProps baseMeta))
    ∧ (tf1 = tf)) as (tf1 & -> & ->).
  { rewrite globalTimeframe_cases in Hw1, Hwtf. cbn zeta in Hw1, Hwtf.
    destruct (forallb timeframeOk recs); [|discriminate].
    unfold Part001.summedMeta in Hw1.
    rewrite (get_obj_lookup _ "grail" _ (lookup_insert_eq _ _ _)) in Hw1.
    cbn [nullish_else is_nullish ownProps] in Hw1.
    destruct (isFinite (bounds recs).1 && isFinite (bounds recs).2).
    - destruct (TimeClip (bounds recs).1), (TimeClip (bounds recs).2);
        try discriminate.
      rewrite insert_insert_eq in Hw1. injection Hw1 as <-. eexists. split; [reflexivity|].
      injection Hwtf as Hwtf.
      apply (f_equal (λ m : gmap string value, m !! "grail")) in Hwtf.
      rewrite !lookup_insert_eq in Hwtf. injection Hwtf as Hwtf.
      apply (f_equal (λ m : gmap string value, m !! "analysisTimeframe")) in Hwtf.
      rewrite !lookup_insert_eq in Hwtf. by injection Hwtf.
    - rewrite insert_insert_eq in Hw1.
      injection Hw1 as <-. eexists. split; [reflexivity|].
      injection Hwtf as Hwtf.
      apply (f_equal (λ m : gmap string value, m !! "grail")) in Hwtf.
      rewrite !lookup_insert_eq in Hwtf. injection Hwtf as Hwtf.
      apply (f_equal (λ m : gmap string value, m !! "analysisTimeframe")) in Hwtf.
      rewrite !lookup_insert_eq in Hwtf. injection Hwtf as <-.
      unfold get at 1. rewrite lookup_insert_ne by done.
      by rewrite ownProps_get. }
  cbn [mbind result_bind].
  rewrite (get_obj_lookup _ "grail" _ (lookup_insert_eq _ _ _)).
  cbn [ToBoolean].
  erewrite rewriteQuery_obj by apply lookup_insert_eq.
  cbn [mbind result_bind].
  erewrite rewriteQuery_obj by apply lookup_insert_eq.
  cbn [mbind result_bind mret result_ret records types metrics metadata].
  rewrite !insert_insert_eq.
  rewrite HM, Hr, Hty, Hmet.
  split_and!; try reflexivity.
  - intros k Hk1 Hk2. cbn [ownProps].
    rewrite lookup_insert_ne by done. symmetry. by apply Hother.
  - intros k Hk.
    rewrite (get_obj_lookup _ "grail" _ (lookup_insert_eq _ _ _)).
    rewrite (get_obj_lookup _ "grail" _ HG).
    rewrite !get_VObj. unfold grailRewritten.
    set_unfold in Hk. destruct Hk as [->|[->|[->|[]]]]; lookups;
      rewrite grailLiteral_plain by (apply perTenant_plain; not_breakdown);
      lookups; reflexivity.
  - intros r0' [= <-].
    rewrite (get_obj_lookup _ "grail" _ (lookup_insert_eq _ _ _)).
    rewrite (get_obj_lookup _ "grail" _ HG).
    rewrite !get_VObj. unfold grailRewritten. lookups.
    rewrite grailLiteral_plain by (apply perTenant_plain; not_breakdown).
    lookups. cbn [default].
    unfold baseMeta. rewrite get_or_else_obj.
    reflexivity.
Qed.

End Copies.

(** ** The network and the entry point

    [fetchFromDynatrace] and the exported function are asynchronous and
    talk to the host: the credential vault and [fetch].  They are embedded
    as functions of the host's answers.  A promise is the outcome it
    settles to; the requests that are sent and the lines that are logged
    are not part of the model. *)

Module Tile.

(** A thrown value or the reason of a rejection: an [Error] of the tile, an
    exception of the run time, or whatever the host rejected with. *)
Inductive failure : Type :=
| Error (message : string)
| Exception (e : error)
| Reason (r : value).

Inductive settled (A : Type) : Type :=
| Fulfilled (a : A)
| Rejected (f : failure).
Arguments Fulfilled {A} a.
Arguments Rejected {A} f.

(** The response of [fetch], as far as the tile reads it: [ok], [status],
    [statusText] and the promise of [json()]. *)
Record HttpResponse : Type := {
  ok : bool;
  status : float;
  statusText : string;
  body : settled value;
}.

(** The host's answers to the two calls that one run of
    [fetchFromDynatrace] may make: [getCredentialsDetails] and [fetch]. *)
Record Exchange : Type := {
  credentials : settled value;
  response : settled HttpResponse;
}.

Section WithHost.
Context `{Host}.

Definition fetchFromDynatrace (net : Exchange) (credentialId url query : value)
  : settled value :=
  if negb (ToBoolean credentialId) || negb (ToBoolean url)
     || negb (ToBoolean query)
  then Rejected (Error "Missing credentialId, url, or query.")
  else
    match credentials net with
    | Rejected f => Rejected f
    | Fulfilled r =>
        let token := get r "token" in
        if negb (ToBoolean token) then Rejected (Error "Empty platform token.")
        else
          match response net with
          | Rejected f => Rejected f
          | Fulfilled res =>
              if negb (ok res)
              then Rejected (Error ("HTTP " +:+ NumberToString (status res)
                                    +:+ " " +:+ statusText res))
              else body res
          end
    end.

(** The configuration. *)
Definition credentialId : value := VStr "CREDENTIALS_VAULT-XXXXXXXX".
Definition query : value :=
  VStr "timeseries count(dt.host.cpu.user), from:-5m , by: { host.name } | limit 2".
Definition tenantMap : list (string * value) :=
  [ ("prod", VStr "https://<tenantA>.apps.dynatrace.com/platform/storage/query/v1/query:execute");
    ("qa", VStr "https://<tenantB>.apps.dynatrace.com/platform/storage/query/v1/query:execute") ].

(** The names that every object literal inherits from [Object.prototype];
    what they hold, functions and the prototype itself, is truthy and is
    never inspected: [builtin] stands for it. *)
Definition objectPrototype : list string :=
  [ "constructor"; "__defineGetter__"; "__defineSetter__"; "hasOwnProperty";
    "__lookupGetter__"; "__lookupSetter__"; "isPrototypeOf";
    "propertyIsEnumerable"; "toString"; "valueOf"; "__proto__";
    "toLocaleString" ].
Definition builtin : value := VObj ∅.

(** [Object.keys(tenantMap)] *)
Definition tenantNames : list string := tenantMap.*1.

(** [tenantMap[name]] *)
Definition lookupTenant (name : string) : value :=
  match list_find (λ kv, kv.1 = name) tenantMap with
  | Some (_, (_, url)) => url
  | None => if bool_decide (name ∈ objectPrototype) then builtin else VUndefined
  end.

(** The dashboard variable [$tenant]: a text, or a sequence of texts. *)
Inductive variable : Type :=
| Text (s : string)
| Selection (l : list string).

Definition variable_value (v : variable) : value :=
  match v with
  | Text s => VStr s
  | Selection l => arr (VStr <$> l)
  end.

(** [($tenant && asArray($tenant)) || Object.keys(tenantMap)] *)
Definition selected (v : variable) : list string :=
  match v with
  | Text s => if ToBoolean (VStr s) then [s] else tenantNames
  | Selection l => l
  end.

Record Target : Type := { t_tenant : string; t_url : value }.

Definition targets (v : variable) : list Target :=
  filter (λ t, ToBoolean (t_url t) = true)
    ((λ name, {| t_tenant := name; t_url := lookupTenant name |})
       <$> selected v).

(** [Promise.all]: the values when every promise is fulfilled, a rejection
    otherwise (here the leftmost one; the caller does not tell them
    apart). *)
Fixpoint all {A} (l : list (settled A)) : settled (list A) :=
  match l with
  | [] => Fulfilled []
  | Fulfilled a :: l' =>
      match all l' with
      | Fulfilled r => Fulfilled (a :: r)
      | Rejected f => Rejected f
      end
  | Rejected f :: l' => Rejected f
  end.

Definition emptyResponse : Response :=
  {| records := []; types := []; metadata := VObj ∅; metrics := [] |}.

(** One element of [targets.map(async ...)]. *)
Definition fetchTarget (net : Exchange) (t : Target) : settled TenantResponse :=
  match fetchFromDynatrace net credentialId (t_url t) query with
  | Fulfilled json => Fulfilled {| tenant := t_tenant t; json := json |}
  | Rejected f => Rejected f
  end.

(** The exported function; [net i] holds the answers of the host to the
    calls made for the target at position [i]. *)
Definition main (tenantVar : variable) (net : nat → Exchange)
  : settled Response :=
  match targets tenantVar with
  | [] => Rejected (Error "No tenant URLs resolved.")
  | ts =>
      match all (imap (λ i t, fetchTarget (net i) t) ts) with
      | Fulfilled fetched =>
          match mergeMultiTenant fetched with
          | Ok result => Fulfilled result
          | Throw _ => Fulfilled emptyResponse
          end
      | Rejected _ => Fulfilled emptyResponse
      end
  end.

End WithHost.
End Tile.

Import Tile.

Section Network.
Context `{Host}.


(** The selection, on values. *)
Lemma selected_value v :
  VStr <$> selected v =
    (if ToBoolean (variable_value v) then asArray (variable_value v)
     else VStr <$> tenantNames).
Proof.
  destruct v as [s|l]; [|reflexivity]. cbn [selected variable_value asArray].
  by destruct (ToBoolean (VStr s)).
Qed.

Lemma lookupTenant_truthy name :
  ToBoolean (lookupTenant name) = true
  ↔ name ∈ tenantNames ∨ name ∈ objectPrototype.
Proof.
  unfold lookupTenant.
  destruct (list_find _ tenantMap) as [[i [k url]]|] eqn:Hf.
  - apply list_find_Some in Hf as (Hi & Hk & _). cbn in Hk. subst k.
    assert ((name, url) ∈ tenantMap) as Hin by by eapply list_elem_of_lookup_2.
    split.
    + intros _. left. apply list_elem_of_fmap. by exists (name, url).
    + intros _. unfold tenantMap in Hin. set_unfold in Hin.
      destruct Hin as [Hin|[Hin|[]]]; injection Hin as _ ->; reflexivity.
  - apply list_find_None in Hf. case_bool_decide as Hp.
    + split; [by right|reflexivity].
    + split; [discriminate|]. intros [Hin|Hin]; [|done].
      apply list_elem_of_fmap in Hin as ([k url] & -> & Hin).
      rewrite Forall_forall in Hf. by destruct (Hf _ Hin).
Qed.

Lemma targets_elem v t :
  t ∈ targets v
  ↔ t_tenant t ∈ selected v ∧ t_url t = lookupTenant (t_tenant t)
    ∧ ToBoolean (t_url t) = true.
Proof.
  unfold targets. rewrite list_elem_of_filter, list_elem_of_fmap. split.
  - intros (Hu & name & -> & Hin). done.
  - intros (Hin & Hu & Ht). split; [exact Ht|].
    exists (t_tenant t). split; [|exact Hin]. destruct t. cbn in *. by subst.
Qed.

(** X19: the exported function rejects exactly when no selected name
    resolves to a truthy entry of the tenant map, that is when no selected
    name is a key of the map or the name of a member of [Object.prototype],
    and the reason is then the error [No tenant URLs resolved.]; in every
    other case it returns a response, whatever the host answers. *)
Theorem main_rejects_iff v net :
  ((∃ f, main v net = Rejected f)
   ↔ ∀ name, name ∈ selected v →
       ¬ (name ∈ tenantNames ∨ name ∈ objectPrototype))
  ∧ (∀ f, main v net = Rejected f → f = Error "No tenant URLs resolved.").
Proof.
  assert (targets v = [] ↔
          ∀ name, name ∈ selected v →
            ¬ (name ∈ tenantNames ∨ name ∈ objectPrototype)) as Hres.
  { split.
    - intros He name Hin.
      assert (ToBoolean (lookupTenant name) ≠ true) as Hn.
      { intros Ht.
        assert ({| t_tenant := name; t_url := lookupTenant name |} ∈ targets v)
          as Hel by by apply targets_elem.
        rewrite He in Hel. by apply elem_of_nil in Hel. }
      by rewrite lookupTenant_truthy in Hn.
    - intros Hall. destruct (targets v) as [|t ts] eqn:E; [reflexivity|].
      assert (t ∈ targets v) as Ht by (rewrite E; left).
      apply targets_elem in Ht as (Hin & Hu & Htrue).
      rewrite Hu, lookupTenant_truthy in Htrue.
      by destruct (Hall _ Hin). }
  unfold main. destruct (targets v) as [|t ts] eqn:E.
  - split; [|by intros f [= <-]]. split; [intros _; by apply Hres|].
    intros _. by eexists.
  - assert (∀ f, match all (imap (λ i t, fetchTarget (net i) t) (t :: ts)) with
                 | Fulfilled fetched =>
                     match mergeMultiTenant fetched with
                     | Ok result => Fulfilled result
                     | Throw _ => Fulfilled emptyResponse
                     end
                 | Rejected _ => Fulfilled emptyResponse
                 end ≠ Rejected f) as Hnever.
    { intros f. destruct (all _) as [fetched|]; [|discriminate].
      destruct (mergeMultiTenant fetched); discriminate. }
    split; [|intros f Hf; by destruct (Hnever f)]. split.
    + intros [f Hf]. by destruct (Hnever f).
    + intros Hall. apply Hres in Hall. discriminate.
Qed.

Lemma all_Fulfilled {A} (l : list (settled A)) r :
  all l = Fulfilled r ↔ l = Fulfilled <$> r.
Proof.
  revert r. induction l as [|[a|f] l IH]; intros r; cbn [all].
  - split; [by intros [= <-]|]. by destruct r.
  - destruct (all l) as [r'|f].
    + split.
      * intros [= <-]. rewrite fmap_cons. f_equal. by apply IH.
      * destruct r as [|a' r]; [discriminate|]. rewrite fmap_cons.
        intros [= <- Hl]. f_equal. f_equal. apply IH in Hl.
        by injection Hl.
    + split; [discriminate|]. destruct r as [|a' r]; [discriminate|].
      rewrite fmap_cons. intros [= <- Hl]. apply IH in Hl. discriminate.
  - split; [discriminate|]. by destruct r.
Qed.

Lemma all_Rejected {A} (l : list (settled A)) i f :
  l !! i = Some (Rejected f) → ∃ f', all l = Rejected f'.
Proof.
  revert i. induction l as [|[a|f0] l IH]; intros i; [done|..].
  - destruct i as [|i]; [discriminate|]. cbn [lookup list_lookup all].
    intros Hl. destruct (IH i Hl) as [f' ->]. by eexists.
  - intros _. by eexists.
Qed.

(** X20: all or nothing.  When the fetch of one target fails, for whatever
    reason, the exported function returns the empty response, whatever the
    other tenants answered. *)
Theorem main_all_or_nothing v net i t f :
  targets v !! i = Some t →
  fetchFromDynatrace (net i) credentialId (t_url t) query = Rejected f →
  main v net = Fulfilled emptyResponse.
Proof.
  intros Ht Hf. unfold main.
  destruct (targets v) as [|t0 ts] eqn:E; [done|].
  destruct (all_Rejected (imap (λ i t, fetchTarget (net i) t) (t0 :: ts)) i f)
    as [f' ->]; [|reflexivity].
  rewrite list_lookup_imap, Ht. cbn. unfold fetchTarget. by rewrite Hf.
Qed.

(** X22: when every target is fetched, the exported function returns what
    the merger returns on the fetched payloads, each under the name of its
    target and in the order of the selection, and the empty response when
    the merger throws. *)
Theorem main_merged v net fetched :
  targets v ≠ [] →
  length fetched = length (targets v) →
  (∀ i t, targets v !! i = Some t →
     ∃ j, fetchFromDynatrace (net i) credentialId (t_url t) query = Fulfilled j
          ∧ fetched !! i = Some {| tenant := t_tenant t; json := j |}) →
  main v net =
    match mergeMultiTenant fetched with
    | Ok result => Fulfilled result
    | Throw _ => Fulfilled emptyResponse
    end.
Proof.
  intros Hne Hlen Hall. unfold main.
  destruct (targets v) as [|t0 ts] eqn:E; [done|].
  assert (all (imap (λ i t, fetchTarget (net i) t) (t0 :: ts))
          = Fulfilled fetched) as ->; [|reflexivity].
  apply all_Fulfilled. apply list_eq. intros i.
  rewrite list_lookup_imap, list_lookup_fmap.
  destruct ((t0 :: ts) !! i) as [t|] eqn:Ht.
  - destruct (Hall i t Ht) as (j & Hj & ->). cbn. unfold fetchTarget.
    by rewrite Hj.
  - apply lookup_ge_None in Ht. rewrite <- Hlen in Ht.
    apply lookup_ge_None in Ht. by rewrite Ht.
Qed.

(** X21: the records that the exported function returns are stamped with
    selected names that resolve: every record bears under [tenant] a name
    of the selection that is a key of the tenant map (or the name of a
    member of [Object.prototype]); a tenant that is not selected
    contributes nothing. *)
Theorem main_records_selected v net r rec :
  main v net = Fulfilled r →
  rec ∈ records r →
  ∃ name,
    name ∈ selected v
    ∧ (name ∈ tenantNames ∨ name ∈ objectPrototype)
    ∧ get rec "tenant" = VStr name.
Proof.
  unfold main. destruct (targets v) as [|t0 ts] eqn:E; [discriminate|].
  destruct (all _) as [fetched|] eqn:Hall.
  2:{ intros [= <-] Hin. by apply elem_of_nil in Hin. }
  destruct (mergeMultiTenant fetched) as [out|] eqn:Hm.
  2:{ intros [= <-] Hin. by apply elem_of_nil in Hin. }
  intros [= <-] Hin.
  assert (∃ tr, tr ∈ fetched ∧ get rec "tenant" = VStr (tenant tr))
    as (tr & Htr & Hten).
  { apply merge_records in Hm. rewrite Hm in Hin.
    apply list_elem_of_bind in Hin as (tr & Hrec & Htr).
    apply list_elem_of_fmap in Hrec as (row & -> & _).
    exists tr. split; [exact Htr|apply withTenant_tenant]. }
  apply all_Fulfilled in Hall.
  apply list_elem_of_lookup in Htr as [i Hi].
  apply (f_equal (λ l, l !! i)) in Hall.
  rewrite list_lookup_imap, list_lookup_fmap, Hi in Hall. cbn in Hall.
  destruct ((t0 :: ts) !! i) as [t|] eqn:Hti; [|discriminate].
  cbn in Hall. unfold fetchTarget in Hall.
  destruct (fetchFromDynatrace _ _ _ _); [|discriminate].
  injection Hall as <-. cbn [tenant] in Hten.
  assert (t ∈ targets v) as Ht by (rewrite E; by eapply list_elem_of_lookup_2).
  apply targets_elem in Ht as (Hsel & Hu & Htrue).
  exists (t_tenant t). split; [exact Hsel|]. split; [|exact Hten].
  apply lookupTenant_truthy. by rewrite <- Hu.
Qed.

End Network.

(** *** The earlier copy in [src/multi-tenant.ts]

    The second half of [src/multi-tenant.ts] (its lines 233 to 431) holds an
    earlier version of the tile: [normalizeResult], [timeframeOfRecord],
    [widenAnalysisTimeframe] and a merger that neither infers types nor
    computes totals. *)

Module Legacy.
Section WithHost.
Context `{Host}.

Definition normalizeResult (json : value) : Response :=
  let res := nullish_else (get json "result") json in
  {| records := asArray (get res "records");
     types := asArray (get res "types");
     metadata :=
       nullish_else
         (nullish_else (get res "metadata") (get json "metadata")) (VObj ∅);
     metrics :=
       asArray (nullish_else (get res "metrics") (get json "metrics")) |}.

Definition timeframeOfRecord (rec : value) : result (float * float) :=
  start ← parseTs (get (get rec "timeframe") "start");
  end_ ← parseTs (get (get rec "timeframe") "end");
  mret (start, end_).

Definition widenAnalysisTimeframe (records : list value) (baseMeta : value)
  : result value :=
  '(minStart, maxEnd) ←
    foldM
      (λ acc r,
         tf ← timeframeOfRecord r;
         mret (if isFinite tf.1 then Math_min acc.1 tf.1 else acc.1,
               if isFinite tf.2 then Math_max acc.2 tf.2 else acc.2))
      records (infinity, neg_infinity);
  tf ←
    (if isFinite minStart && isFinite maxEnd
     then s ← toISOString minStart; e ← toISOString maxEnd;
          mret (VObj {[ "start" := VStr s; "end" := VStr e ]})
     else mret (nullish_else (get (get baseMeta "grail") "analysisTimeframe")
                  (get baseMeta "analysisTimeframe")));
  mret (VObj (<["analysisTimeframe" := VUndefined]>
                (<["grail" :=
                     VObj (<["analysisTimeframe" := tf]>
                             (ownProps
                                (nullish_else (get baseMeta "grail") (VObj ∅))))]>
                   (ownProps baseMeta)))).

Definition normalizeTenant (resp : TenantResponse) : Normalized :=
  let n := normalizeResult (json resp) in
  {| n_tenant := tenant resp;
     n_records := withTenant (tenant resp) <$> records n;
     n_types := types n;
     n_metadata := metadata n;
     n_metrics := metrics n |}.

(** [t0] *)
Definition mergedType (base : Normalized) : result value :=
  let b := default VUndefined (head (n_types base)) in
  t0 ←
    (if ToBoolean b then deepClone b
     else mret (VObj {[ "indexRange" := arr [VNum 0; VNum 0];
                        "mappings" := VObj ∅ ]}));
  m ← getT t0 "mappings";
  t0 ← setT t0 "mappings" (or_else m (VObj ∅));
  mappings ← getT t0 "mappings";
  mappings ← setT mappings "tenant" (typeEntry "string");
  setT t0 "mappings" mappings.

Definition mergeMultiTenant (responses : list TenantResponse)
  : result Response :=
  match normalizeTenant <$> responses with
  | [] => mret {| records := []; types := []; metadata := VObj ∅;
                  metrics := [] |}
  | (base :: _) as normalized =>
      let allRecords := normalized ≫= n_records in
      t0 ← mergedType base;
      (* the reduce and the object literal are those of part_001 *)
      metaSumDataPoints ← Part001.scannedSum normalized;
      metadata ←
        widenAnalysisTimeframe allRecords
          (Part001.summedMeta (n_metadata base) metaSumDataPoints);
      mret {| records := allRecords; types := [t0]; metadata := metadata;
              metrics := n_metrics base |}
  end.

(** The earlier [fetchFromDynatrace]: a failure of the vault is caught and
    replaced by an error of the tile's own. *)
Definition fetchFromDynatrace (net : Exchange) (credentialId url query : value)
  : settled value :=
  if negb (ToBoolean credentialId) || negb (ToBoolean url)
     || negb (ToBoolean query)
  then Rejected (Error "[ValidationError] Missing required parameters: credentialId, url, or query.")
  else
    match credentials net with
    | Rejected _ => Rejected (Error "Unable to fetch platform token.")
    | Fulfilled r =>
        let token := get r "token" in
        if negb (ToBoolean token)
        then Rejected (Error "[CredentialVaultError] Token is undefined or empty.")
        else
          match response net with
          | Rejected f => Rejected f
          | Fulfilled res =>
              if negb (ok res)
              then Rejected
                     (Error ("[HTTPError] API call failed with status "
                             +:+ NumberToString (status res) +:+ ": "
                             +:+ statusText res))
              else body res
          end
    end.

(** The configuration of the earlier copy. *)
Definition credentialId : value := VStr "CREDENTIALS_VAULT-XXXXXXXXXXXX?".
Definition query : value :=
  VStr "timeseries count(dt.host.cpu.user), from:-5m , by: { host.name } | limit 2".
Definition tenantMap : list (string * value) :=
  [ ("prod", VStr "https://xxx.apps.dynatrace.com/platform/storage/query/v1/query:execute");
    ("dev", VStr "https://yyy.apps.dynatrace.com/platform/storage/query/v1/query:execute") ].
Definition tenantNames : list string := tenantMap.*1.

Definition lookupTenant (name : string) : value :=
  match list_find (λ kv, kv.1 = name) tenantMap with
  | Some (_, (_, url)) => url
  | None => if bool_decide (name ∈ objectPrototype) then builtin else VUndefined
  end.

(** [asArray($tenant || Object.keys(tenantMap))] *)
Definition selected (v : variable) : list string :=
  match v with
  | Text s => if ToBoolean (VStr s) then [s] else tenantNames
  | Selection l => l
  end.

Definition urls (v : variable) : list Target :=
  filter (λ t, ToBoolean (t_url t) = true)
    ((λ name, {| t_tenant := name; t_url := lookupTenant name |})
       <$> selected v).

(** The expression of the earlier rewrite: [by:] in lower case, white
    space, an opening brace, the group of characters other than a closing
    brace, a closing brace. *)
Definition match_by (s : string) : option (string * string) :=
  match s with
  | String b (String y (String colon s1)) =>
      if Ascii.eqb b "b"%char && Ascii.eqb y "y"%char
         && Ascii.eqb colon ":"%char then
        match skip_ws s1 with
        | String brace s2 =>
            if Ascii.eqb brace "{"%char then until_brace s2 else None
        | EmptyString => None
        end
      else None
  | _ => None
  end.

(** [s.replace(re, cb)] on a string. *)
Fixpoint replace_by (cb : string → string) (s : string) : string :=
  match match_by s with
  | Some (g1, rest) => cb g1 +:+ rest
  | None =>
      match s with
      | String c s' => String c (replace_by cb s')
      | EmptyString => EmptyString
      end
  end.

(** [v.replace(re, cb)]: a value that is not a string has no [replace]. *)
Definition replaceT (cb : string → string) (v : value) : result value :=
  match v with
  | VStr s => Ok (VStr (replace_by cb s))
  | _ => Throw TypeError
  end.

(** [g1.trim().length ? g1.trim() + ", tenant" : "tenant"] *)
Definition appended (g1 : string) : string :=
  if nonempty (trim g1) then trim g1 +:+ ", tenant" else "tenant".

(** The two callbacks. *)
Definition canonicalClause (g1 : string) : string :=
  "by:{" +:+ appended g1 +:+ "}".
Definition queryClause (g1 : string) : string :=
  "by: { " +:+ appended g1 +:+ " }".

(** The statements of the [try] block after the fetches. *)
Definition mergeAndRewrite (responses : list TenantResponse)
  : result Response :=
  merged ← mergeMultiTenant responses;
  let grail := get (metadata merged) "grail" in
  let q := or_else (get grail "query") query in
  canonicalQuery ←
    replaceT canonicalClause (or_else (get grail "canonicalQuery") q);
  query ← replaceT queryClause q;
  metadata ←
    setT (metadata merged) "grail"
      (VObj (<["query" := query]>
               (<["canonicalQuery" := canonicalQuery]>
                  (ownProps (or_else grail (VObj ∅))))));
  mret {| records := records merged; types := types merged;
          metadata := metadata; metrics := metrics merged |}.

(** The [catch] block: it reads [error.message]. *)
Definition caught (f : failure) : settled Response :=
  match f with
  | Reason r =>
      if is_nullish r then Rejected (Exception TypeError)
      else Fulfilled emptyResponse
  | _ => Fulfilled emptyResponse
  end.

Definition fetchTarget (net : Exchange) (t : Target) : settled TenantResponse :=
  match fetchFromDynatrace net credentialId (t_url t) query with
  | Fulfilled json => Fulfilled {| tenant := t_tenant t; json := json |}
  | Rejected f => Rejected f
  end.

(** The exported function of the earlier copy. *)
Definition main (tenantVar : variable) (net : nat → Exchange)
  : settled Response :=
  match urls tenantVar with
  | [] => Rejected (Error "No tenant URLs resolved. Check tenant map / selection.")
  | ts =>
      match all (imap (λ i t, fetchTarget (net i) t) ts) with
      | Fulfilled responses =>
          match mergeAndRewrite responses with
          | Ok merged => Fulfilled merged
          | Throw e => caught (Exception e)
          end
      | Rejected f => caught f
      end
  end.

End WithHost.
End Legacy.

(** A grouping clause as the earlier expression matches it: [by:] in lower
    case, white space, an opening brace, the [body] free of closing braces, a
    closing brace. *)
Definition legacy_clause (clause body : string) : Prop :=
  ∃ ws, blank ws = true ∧ no_brace body = true
        ∧ clause = "by:" +:+ ws +:+ String "{" (body +:+ "}").

Definition legacy_has_clause (txt : string) : Prop :=
  ∃ pre clause body post,
    legacy_clause clause body ∧ txt = pre +:+ clause +:+ post.

Section LegacyFacts.
Context `{Host}.

Ltac simpl_default :=
  repeat match goal with
  | |- context [default ?d (Some ?x)] => change (default d (Some x)) with x
  | |- context [default ?d None] => change (default d None) with d
  | |- context [default ?d (head [?x])] => change (default d (head [x])) with x
  end.

Lemma get_payload json k :
  get (nullish_else (nullish_else (get json "result") json) (VObj ∅)) k
  = get (nullish_else (get json "result") json) k.
Proof.
  unfold nullish_else.
  destruct (is_nullish (get json "result")); [|by destruct (get json "result")].
  destruct json; reflexivity.
Qed.

Lemma legacy_records r :
  n_records (Legacy.normalizeTenant r) = stamped r
  ∧ n_types (Legacy.normalizeTenant r) = types (normalize (json r)).
Proof.
  unfold Legacy.normalizeTenant, stamped, Legacy.normalizeResult, normalize.
  cbn [n_records n_types records types]. by rewrite !get_payload.
Qed.

(** X23: [normalizeResult] of the earlier copy finds the same records and
    types as [normalize] in every payload, and the same response when the
    payload has no [result] envelope; under an envelope it falls back on
    the envelope's own [metadata] and [metrics], which [normalize]
    ignores, when the payload has none. *)
Theorem normalizeResult_normalize json :
  records (Legacy.normalizeResult json) = records (normalize json)
  ∧ types (Legacy.normalizeResult json) = types (normalize json)
  ∧ (is_nullish (get json "result") = true →
     Legacy.normalizeResult json = normalize json)
  ∧ (is_nullish (get (get json "result") "metadata") = false →
     metadata (Legacy.normalizeResult json) = metadata (normalize json))
  ∧ (is_nullish (get (get json "result") "metrics") = false →
     metrics (Legacy.normalizeResult json) = metrics (normalize json)).
Proof.
  unfold Legacy.normalizeResult, normalize.
  cbn [records types metadata metrics]. rewrite !get_payload.
  split_and!; try reflexivity.
  - intros Hr. unfold nullish_else. rewrite Hr.
    destruct (is_nullish (get json "metadata")) eqn:E1;
      destruct (is_nullish (get json "metrics")) eqn:E2;
      rewrite ?E1, ?E2; reflexivity.
  - intros Hm. destruct (is_nullish (get json "result")) eqn:Hr.
    + by destruct (get json "result").
    + unfold nullish_else. rewrite Hr, Hm, Hm. reflexivity.
  - intros Hm. destruct (is_nullish (get json "result")) eqn:Hr.
    + by destruct (get json "result").
    + unfold nullish_else. rewrite Hr, Hm. reflexivity.
Qed.

Lemma legacy_allRecords (rs : list TenantResponse) :
  (Legacy.normalizeTenant <$> rs) ≫= n_records = rs ≫= stamped.
Proof.
  induction rs as [|r rs IH]; [reflexivity|].
  rewrite fmap_cons, !bind_cons, IH. f_equal. apply legacy_records.
Qed.

(** The earlier widener, by cases. *)
Lemma widenAnalysisTimeframe_cases recs baseMeta :
  let grail := nullish_else (get baseMeta "grail") (VObj ∅) in
  let result tf :=
    Ok (VObj (<["analysisTimeframe" := VUndefined]>
                (<["grail" := VObj (<["analysisTimeframe" := tf]> (ownProps grail))]>
                   (ownProps baseMeta)))) in
  Legacy.widenAnalysisTimeframe recs baseMeta =
    if forallb timeframeOk recs
    then if isFinite (bounds recs).1 && isFinite (bounds recs).2
         then match TimeClip (bounds recs).1, TimeClip (bounds recs).2 with
              | Some s, Some e =>
                  result (VObj {[ "start" := VStr (isoFormat s);
                                  "end" := VStr (isoFormat e) ]})
              | _, _ => Throw RangeError
              end
         else result (nullish_else
                        (get (get baseMeta "grail") "analysisTimeframe")
                        (get baseMeta "analysisTimeframe"))
    else Throw TypeError.
Proof.
  cbn zeta. unfold Legacy.widenAnalysisTimeframe.
  rewrite (foldM_guard _ timeframeOk widen TypeError).
  2:{ intros acc r. unfold Legacy.timeframeOfRecord, timeframeOk, widen,
        startOf, endOf.
      rewrite !parseTs_eq.
      destruct (convertible (get (get r "timeframe") "start"));
        [|reflexivity].
      destruct (convertible (get (get r "timeframe") "end")); reflexivity. }
  destruct (forallb timeframeOk recs); [|reflexivity].
  cbn [mbind result_bind].
  change (fold_left widen recs (infinity, neg_infinity)) with (bounds recs).
  destruct (bounds recs) as [minS maxE].
  cbn [fst snd]. destruct (isFinite minS && isFinite maxE); [|reflexivity].
  unfold toISOString.
  destruct (TimeClip minS), (TimeClip maxE); reflexivity.
Qed.

(** The descriptor of the earlier copy. *)
Lemma legacy_mergedType base d :
  Legacy.mergedType base = Ok d →
  get (get d "mappings") "tenant" = typeEntry "string"
  ∧ (ToBoolean (default VUndefined (head (n_types base))) = false →
     d = VObj {[ "indexRange" := arr [VNum 0; VNum 0];
                 "mappings" := VObj {[ "tenant" := typeEntry "string" ]} ]}).
Proof.
  unfold Legacy.mergedType.
  destruct (ToBoolean (default VUndefined (head (n_types base)))) eqn:Hb.
  - destruct (deepClone _) as [c|]; [|discriminate]. cbn [mbind result_bind].
    destruct (getT c "mappings") as [m|]; [|discriminate].
    cbn [mbind result_bind].
    destruct (setT c "mappings" _) as [t0|]; [|discriminate].
    cbn [mbind result_bind].
    destruct (getT t0 "mappings") as [m'|]; [|discriminate].
    cbn [mbind result_bind].
    destruct (setT m' "tenant" _) as [m''|] eqn:Hm''; [|discriminate].
    cbn [mbind result_bind]. intros Hd. split; [|discriminate].
    rewrite (get_setT_eq _ _ _ _ Hd). by rewrite (get_setT_eq _ _ _ _ Hm'').
  - intros [= <-]. split; [reflexivity|]. intros _. reflexivity.
Qed.

(** X24: in the earlier copy, on a non-empty input, the merged [types] is
    one descriptor whose tenant entry is [{type: "string"}], whatever entry
    the first tenant's descriptor held; and with no descriptor to copy, the
    descriptor is the fixed
    [{indexRange: [0, 0], mappings: {tenant: {type: "string"}}}], nothing
    being inferred from the records. *)
Theorem legacy_types_tenant r0 rs out :
  Legacy.mergeMultiTenant (r0 :: rs) = Ok out →
  ∃ d,
    types out = [d]
    ∧ get (get d "mappings") "tenant" = typeEntry "string"
    ∧ (ToBoolean (default VUndefined (head (types (normalize (json r0)))))
       = false →
       d = VObj {[ "indexRange" := arr [VNum 0; VNum 0];
                   "mappings" := VObj {[ "tenant" := typeEntry "string" ]} ]}).
Proof.
  unfold Legacy.mergeMultiTenant. rewrite fmap_cons. cbn zeta.
  destruct (Legacy.mergedType _) as [d|] eqn:Hd; [|discriminate].
  cbn [mbind result_bind].
  destruct (Part001.scannedSum _) as [sum|]; [|discriminate].
  cbn [mbind result_bind].
  destruct (Legacy.widenAnalysisTimeframe _ _) as [w|]; [|discriminate].
  intros [= <-]. exists d. split; [reflexivity|].
  apply legacy_mergedType in Hd as [Ht Hd]. split; [exact Ht|].
  destruct (legacy_records r0) as [_ <-]. exact Hd.
Qed.

(** Without a descriptor to copy the merger fails on the types only when
    the inference does. *)
Lemma mergedType_inferred_returns n0 recs :
  ToBoolean (default VUndefined (head (n_types n0))) = false →
  intervalOk (default VUndefined (head recs)) = true →
  ∃ d, mergedType n0 recs = Ok d.
Proof.
  intros Hb Hi. unfold mergedType. rewrite Hb.
  rewrite inferTypesFromRecord_eq, Hi.
  cbn [mbind result_bind mret result_ret]. simpl_default.
  rewrite inferredDescriptor_mappings.
  cbn [ToBoolean negb mbind result_bind mret result_ret getT is_nullish
       inferredDescriptor].
  rewrite inferredDescriptor_mappings.
  cbn [mbind result_bind].
  destruct (negb _); cbn [setT mbind result_bind mret result_ret];
    by eexists.
Qed.

(** The two descriptors are computed or refused together, unless the
    inference of the current copy throws. *)
Lemma legacy_mergedType_same r0 recs :
  match Legacy.mergedType (Legacy.normalizeTenant r0),
        mergedType (normalizeTenant r0) recs with
  | Ok _, Ok _ => True
  | Throw e', Throw e => e' = e
  | Ok _, Throw e =>
      e = TypeError
      ∧ ToBoolean (default VUndefined (head (types (normalize (json r0)))))
        || intervalOk (default VUndefined (head recs)) = false
  | Throw _, Ok _ => False
  end.
Proof.
  destruct (ToBoolean (default VUndefined
                         (head (types (normalize (json r0)))))) eqn:Hb.
  - unfold Legacy.mergedType, mergedType.
    destruct (legacy_records r0) as [_ ->]. cbn [n_types normalizeTenant].
    rewrite Hb.
    destruct (deepClone _) as [c|]; [|reflexivity]. cbn [mbind result_bind].
    unfold getT. destruct (is_nullish c) eqn:Hc; [reflexivity|].
    cbn [mbind result_bind].
    destruct (setT c "mappings" _) as [t0|] eqn:Ht0; [|reflexivity].
    cbn [mbind result_bind].
    pose proof (get_setT_eq _ _ _ _ Ht0) as Hget.
    assert (ToBoolean (get t0 "mappings") = true) as Hm.
    { rewrite Hget. unfold or_else.
      by destruct (ToBoolean (get c "mappings")) eqn:E. }
    assert (is_nullish t0 = false) as Hn by by destruct t0.
    rewrite Hm, Hn. cbn [negb mbind result_bind mret result_ret].
    rewrite Hn. cbn [mbind result_bind].
    destruct (setT (get t0 "mappings") "tenant" (typeEntry "string"))
      as [m'|] eqn:Hm'; cbn [mbind result_bind].
    + assert (∃ t1, setT t0 "mappings" m' = Ok t1) as [t1 ->]
        by (destruct t0; try discriminate; by eexists).
      by destruct (ToBoolean (get (get t0 "mappings") "tenant")).
    + assert (get (get t0 "mappings") "tenant" = VUndefined) as ->
        by by destruct (get t0 "mappings").
      reflexivity.
  - assert (∃ d', Legacy.mergedType (Legacy.normalizeTenant r0) = Ok d')
      as [d' ->].
    { unfold Legacy.mergedType. destruct (legacy_records r0) as [_ ->].
      rewrite Hb. by eexists. }
    cbn [orb].
    destruct (intervalOk (default VUndefined (head recs))) eqn:Hi.
    + by destruct (mergedType_inferred_returns (normalizeTenant r0) recs Hb Hi)
        as [d ->].
    + unfold mergedType. cbn [n_types normalizeTenant]. rewrite Hb.
      rewrite inferTypesFromRecord_eq, Hi. done.
Qed.

(** The conversions that the current copy makes and the earlier one does
    not: the one of the inference and the ones of the counters. *)
Definition currentConversionsOk (rs : list TenantResponse) : bool :=
  inferenceOk rs && forallb countersOk (normalizeTenant <$> rs).

(** The conversions of the [reduce] of the earlier copy, which reads
    [scannedDataPoints] in the metadata that [normalizeResult] finds. *)
Definition legacyConversionsOk (rs : list TenantResponse) : bool :=
  forallb sdpOk (Legacy.normalizeTenant <$> rs).

(** X25: the earlier copy and the current one agree on the records, and on
    failure up to the conversions that only one of them makes.  When both
    return they return the same records.  They throw the same exception,
    and one returns when the other does, unless a conversion of a counter
    or of the inferred field [interval] throws the TypeError in one of
    them: the current copy converts four counters of every tenant and
    infers types, the earlier copy converts [scannedDataPoints] alone, read
    in the metadata that [normalizeResult] finds. *)
Theorem legacy_agrees rs :
  match Legacy.mergeMultiTenant rs, mergeMultiTenant rs with
  | Ok o', Ok o => records o' = records o
  | Throw e', Throw e =>
      e' = e ∨ currentConversionsOk rs = false
      ∨ legacyConversionsOk rs = false
  | Ok _, Throw e => e = TypeError ∧ currentConversionsOk rs = false
  | Throw e', Ok _ => e' = TypeError ∧ legacyConversionsOk rs = false
  end.
Proof.
  destruct rs as [|r0 rs]; [reflexivity|].
  destruct (merge_cons_steps r0 rs) as (Ht & Hc & Hg & Hok). cbn zeta in *.
  unfold Legacy.mergeMultiTenant, currentConversionsOk, legacyConversionsOk.
  rewrite (fmap_cons Legacy.normalizeTenant).
  rewrite <- (fmap_cons Legacy.normalizeTenant), legacy_allRecords.
  cbn zeta.
  set (recs := (r0 :: rs) ≫= stamped) in *.
  set (normalized := normalizeTenant <$> r0 :: rs) in *.
  set (normalizedL := Legacy.normalizeTenant <$> r0 :: rs) in *.
  pose proof (legacy_mergedType_same r0 recs) as Hsame.
  destruct (Legacy.mergedType _) as [d'|e'];
    destruct (mergedType _ _) as [d|e] eqn:Hd; try done.
  - cbn [mbind result_bind]. rewrite scannedSum_total.
    destruct (forallb sdpOk normalizedL).
    2:{ cbn [mbind result_bind].
        destruct (mergeMultiTenant (r0 :: rs)); [done|by do 2 right]. }
    cbn [mbind result_bind].
    destruct (forallb countersOk normalized) eqn:Hco.
    2:{ rewrite (Hc d eq_refl eq_refl), andb_false_r.
        destruct (Legacy.widenAnalysisTimeframe _ _);
          [done|right; by left]. }
    rewrite widenAnalysisTimeframe_cases. cbn zeta.
    pose proof (globalTimeframe_cases recs
                  (or_else (metadata (normalize (json r0))) (VObj ∅))) as Hcases.
    cbn zeta in Hcases.
    destruct (globalTimeframe _ _) as [w|e] eqn:Hw.
    + destruct (Hok d w eq_refl eq_refl eq_refl) as [out Hout]. rewrite Hout.
      apply merge_records in Hout. rewrite Hout.
      destruct (forallb timeframeOk recs); [|discriminate].
      destruct (isFinite _ && isFinite _); [|reflexivity].
      destruct (TimeClip _); [|discriminate].
      destruct (TimeClip _); [|discriminate]. reflexivity.
    + rewrite (Hg d e eq_refl eq_refl eq_refl).
      destruct (forallb timeframeOk recs); [|left; by injection Hcases].
      destruct (isFinite _ && isFinite _); [|discriminate].
      destruct (TimeClip _); [|left; by injection Hcases].
      destruct (TimeClip _); [discriminate|left; by injection Hcases].
  - destruct Hsame as [-> Hi]. rewrite (Ht _ eq_refl).
    assert (inferenceOk (r0 :: rs) = false) as -> by exact Hi.
    cbn [andb mbind result_bind].
    match goal with
    | |- match ?p with _ => _ end => destruct p
    end; [done|right; by left].
  - subst e'. rewrite (Ht e eq_refl). by left.
Qed.

(** X26: the earlier widener against [globalTimeframe]: both throw on the
    same records; when they return, the earlier one agrees with the current
    one on every top-level field but [analysisTimeframe], which it always
    sets to undefined, and on every field of [grail]; the
    [analysisTimeframe] of [grail] is the same when both bounds are finite,
    and otherwise falls back on the top-level [analysisTimeframe] of the
    base metadata when [grail] has none. *)
Theorem widenAnalysisTimeframe_agrees recs baseMeta :
  match Legacy.widenAnalysisTimeframe recs baseMeta,
        globalTimeframe recs baseMeta with
  | Ok w', Ok w =>
      ownProps w' !! "analysisTimeframe" = Some VUndefined
      ∧ (∀ k, k ≠ "analysisTimeframe" → k ≠ "grail" →
           ownProps w' !! k = ownProps w !! k)
      ∧ (∀ k, k ≠ "analysisTimeframe" →
           ownProps (get w' "grail") !! k = ownProps (get w "grail") !! k)
      ∧ get (get w' "grail") "analysisTimeframe" =
          (if isFinite (bounds recs).1 && isFinite (bounds recs).2
           then get (get w "grail") "analysisTimeframe"
           else nullish_else (get (get w "grail") "analysisTimeframe")
                  (get baseMeta "analysisTimeframe"))
  | Throw e', Throw e => e' = e
  | _, _ => False
  end.
Proof.
  rewrite widenAnalysisTimeframe_cases, globalTimeframe_cases. cbn zeta.
  assert (∀ tf' tf,
    let w' := VObj (<["analysisTimeframe" := VUndefined]>
                (<["grail" := VObj (<["analysisTimeframe" := tf']>
                     (ownProps (nullish_else (get baseMeta "grail") (VObj ∅))))]>
                   (ownProps baseMeta))) in
    let w := VObj (<["grail" := VObj (<["analysisTimeframe" := tf]>
                     (ownProps (nullish_else (get baseMeta "grail") (VObj ∅))))]>
                   (ownProps baseMeta)) in
    ownProps w' !! "analysisTimeframe" = Some VUndefined
    ∧ (∀ k, k ≠ "analysisTimeframe" → k ≠ "grail" →
         ownProps w' !! k = ownProps w !! k)
    ∧ (∀ k, k ≠ "analysisTimeframe" →
         ownProps (get w' "grail") !! k = ownProps (get w "grail") !! k)
    ∧ get (get w' "grail") "analysisTimeframe" = tf'
    ∧ get (get w "grail") "analysisTimeframe" = tf) as Hshape.
  { intros tf' tf. cbn zeta. cbn [ownProps]. split_and!.
    - apply lookup_insert_eq.
    - intros k Hk1 Hk2. by rewrite !lookup_insert_ne.
    - intros k Hk.
      rewrite (get_obj_lookup _ "grail" (VObj (<["analysisTimeframe" := tf']>
                 (ownProps (nullish_else (get baseMeta "grail") (VObj ∅))))))
        by (rewrite lookup_insert_ne by done; apply lookup_insert_eq).
      rewrite (get_obj_lookup _ "grail" _ (lookup_insert_eq _ _ _)).
      cbn [ownProps]. by rewrite !lookup_insert_ne.
    - rewrite (get_obj_lookup _ "grail" (VObj (<["analysisTimeframe" := tf']>
                 (ownProps (nullish_else (get baseMeta "grail") (VObj ∅))))))
        by (rewrite lookup_insert_ne by done; apply lookup_insert_eq).
      apply get_obj_lookup, lookup_insert_eq.
    - rewrite (get_obj_lookup _ "grail" _ (lookup_insert_eq _ _ _)).
      apply get_obj_lookup, lookup_insert_eq. }
  destruct (forallb timeframeOk recs); [|reflexivity].
  destruct (isFinite (bounds recs).1 && isFinite (bounds recs).2).
  - destruct (TimeClip (bounds recs).1), (TimeClip (bounds recs).2); try done.
    edestruct Hshape as (H1 & H2 & H3 & H4 & H5). cbn zeta in *.
    split_and!; [exact H1|exact H2|exact H3|]. by rewrite H4, H5.
  - edestruct Hshape as (H1 & H2 & H3 & H4 & H5). cbn zeta in *.
    split_and!; [exact H1|exact H2|exact H3|]. rewrite H4, H5.
    f_equal. unfold nullish_else.
    destruct (is_nullish (get baseMeta "grail")) eqn:E;
      [by destruct (get baseMeta "grail")|reflexivity].
Qed.

(** X27: the earlier [fetchFromDynatrace] returns a payload exactly when
    the current one does, and the same payload; it differs in the errors
    only: when the vault fails it rejects with the error
    [Unable to fetch platform token.], whatever reason the vault gave,
    where the current one passes the vault's reason on. *)
Theorem legacy_fetch_agrees net c u q :
  (∀ j, Legacy.fetchFromDynatrace net c u q = Fulfilled j
        ↔ Tile.fetchFromDynatrace net c u q = Fulfilled j)
  ∧ (∀ f, ToBoolean c && ToBoolean u && ToBoolean q = true →
          credentials net = Rejected f →
          Legacy.fetchFromDynatrace net c u q
          = Rejected (Error "Unable to fetch platform token.")
          ∧ Tile.fetchFromDynatrace net c u q = Rejected f).
Proof.
  unfold Legacy.fetchFromDynatrace, Tile.fetchFromDynatrace. split.
  - intros j.
    destruct (negb (ToBoolean c) || negb (ToBoolean u) || negb (ToBoolean q));
      [done|].
    destruct (credentials net) as [r|f]; [|done].
    destruct (negb (ToBoolean (get r "token"))); [done|].
    destruct (response net) as [res|f]; [|done].
    by destruct (negb (ok res)).
  - intros f Hargs ->.
    destruct (ToBoolean c), (ToBoolean u), (ToBoolean q); try discriminate.
    done.
Qed.

(** *** The earlier rewrite and exported function *)

Lemma legacy_clause_app ws body rest :
  ("by:" +:+ ws +:+ String "{" (body +:+ "}")) +:+ rest
  = String "b" (String "y" (String ":"
      (ws +:+ String "{" (body +:+ String "}" rest)))).
Proof.
  rewrite !app_cons, app_empty_l. do 3 f_equal.
  rewrite app_assoc', app_cons. do 2 f_equal.
  rewrite app_assoc'. reflexivity.
Qed.

Lemma legacy_match_Some s g rest :
  Legacy.match_by s = Some (g, rest)
  ↔ ∃ clause, legacy_clause clause g ∧ s = clause +:+ rest.
Proof.
  split.
  - destruct s as [|b [|y [|colon s1]]]; try discriminate.
    cbn [Legacy.match_by].
    destruct (Ascii.eqb b "b" && Ascii.eqb y "y" && Ascii.eqb colon ":")
      eqn:Hk; [|discriminate].
    apply andb_prop in Hk as [[->%Ascii.eqb_eq ->%Ascii.eqb_eq]%andb_prop
                                ->%Ascii.eqb_eq].
    destruct (skip_ws s1) as [|brace s2] eqn:Hs1; [discriminate|].
    destruct (Ascii.eqb brace "{") eqn:Hbrace; [|discriminate].
    apply Ascii.eqb_eq in Hbrace as ->.
    intros [Hg Hs2]%until_brace_Some.
    destruct (skip_ws_split s1) as (ws & Hws & Es1). rewrite Hs1 in Es1.
    eexists. split; [exists ws; split_and!; [exact Hws|exact Hg|reflexivity]|].
    by rewrite legacy_clause_app, Es1, Hs2.
  - intros (clause & (ws & Hws & Hg & ->) & ->).
    rewrite legacy_clause_app. cbn [Legacy.match_by].
    rewrite !Ascii.eqb_refl. cbn [andb].
    rewrite skip_ws_blank by exact Hws. cbn [skip_ws].
    change (is_space "{") with false. cbv iota. rewrite Ascii.eqb_refl.
    by apply until_brace_Some.
Qed.

Lemma legacy_replace_eq cb s :
  Legacy.replace_by cb s =
    match Legacy.match_by s with
    | Some (g1, rest) => cb g1 +:+ rest
    | None => match s with
              | String c s' => String c (Legacy.replace_by cb s')
              | EmptyString => EmptyString
              end
    end.
Proof. destruct s; reflexivity. Qed.

(** The earlier replacement rewrites the leftmost match and nothing else. *)
Lemma legacy_replace_spec cb txt :
  (∃ pre s g1 rest,
     txt = pre +:+ s ∧ Legacy.match_by s = Some (g1, rest)
     ∧ Legacy.replace_by cb txt = pre +:+ cb g1 +:+ rest)
  ∨ ((∀ pre s, txt = pre +:+ s → Legacy.match_by s = None)
     ∧ Legacy.replace_by cb txt = txt).
Proof.
  induction txt as [|c t IH].
  - right. split; [|reflexivity].
    intros pre s Hs. destruct pre; [|discriminate].
    change ("" = s) in Hs. by subst s.
  - rewrite legacy_replace_eq.
    destruct (Legacy.match_by (String c t)) as [[g1 rest]|] eqn:Hm.
    + left. by exists "", (String c t), g1, rest.
    + destruct IH as [(pre & s & g1 & rest & -> & Hs & Hr)|[Hnone Hr]].
      * left. exists (String c pre), s, g1, rest.
        rewrite Hr, !app_cons. done.
      * right. rewrite Hr. split; [|reflexivity].
        intros [|d pre] s Hs.
        -- change (String c t = s) in Hs. by subst s.
        -- change (String c t = String d (pre +:+ s)) in Hs.
           injection Hs as _ Hs. by apply (Hnone pre).
Qed.

(** X28: the rewrite of the earlier exported function.  A text that holds a
    grouping clause ([by:] in lower case only) has one clause replaced by
    the callback's text for its body, the text before and after the clause
    being kept; a text without such a clause is unchanged.  The callbacks
    append [tenant] to the trimmed body whether the body lists it or not:
    [by:{tenant}] becomes [by:{tenant, tenant}]; and a clause in upper
    case, which the current rewrite matches, is left alone. *)
Theorem legacy_rewrite_clause :
  (∀ cb txt,
     legacy_has_clause txt →
     ∃ pre clause body post,
       legacy_clause clause body
       ∧ txt = pre +:+ clause +:+ post
       ∧ Legacy.replace_by cb txt = pre +:+ cb body +:+ post)
  ∧ (∀ cb txt, ¬ legacy_has_clause txt → Legacy.replace_by cb txt = txt)
  ∧ (∀ g, trim g ≠ "" →
       Legacy.canonicalClause g = "by:{" +:+ (trim g +:+ ", tenant") +:+ "}"
       ∧ Legacy.queryClause g = "by: { " +:+ (trim g +:+ ", tenant") +:+ " }")
  ∧ (∀ g, trim g = "" →
       Legacy.canonicalClause g = "by:{tenant}"
       ∧ Legacy.queryClause g = "by: { tenant }")
  ∧ Legacy.replace_by Legacy.canonicalClause "from:-5m, by:{tenant} | limit 2"
    = "from:-5m, by:{tenant, tenant} | limit 2"
  ∧ Legacy.replace_by Legacy.canonicalClause "BY:{host.name}" = "BY:{host.name}"
  ∧ replace_by "BY:{host.name}" = "by:{host.name, tenant}".
Proof.
  split_and!.
  - intros cb txt Hc.
    destruct (legacy_replace_spec cb txt)
      as [(pre & s & g1 & rest & -> & Hs & Hr)|[Hnone _]].
    + apply legacy_match_Some in Hs as (clause & Hcl & ->).
      by exists pre, clause, g1, rest.
    + destruct Hc as (pre & clause & body & post & Hcl & ->).
      assert (Legacy.match_by (clause +:+ post) = Some (body, post)) as Hm
        by (apply legacy_match_Some; by exists clause).
      rewrite (Hnone pre _ eq_refl) in Hm. discriminate.
  - intros cb txt Hc.
    destruct (legacy_replace_spec cb txt)
      as [(pre & s & g1 & rest & -> & Hs & _)|[_ Hr]]; [|exact Hr].
    exfalso. apply Hc. apply legacy_match_Some in Hs as (clause & Hcl & ->).
    by exists pre, clause, g1, rest.
  - intros g Hg. unfold Legacy.canonicalClause, Legacy.queryClause,
      Legacy.appended, nonempty.
    destruct (String.eqb (trim g) "") eqn:E; [by apply String.eqb_eq in E|].
    done.
  - intros g Hg. unfold Legacy.canonicalClause, Legacy.queryClause,
      Legacy.appended, nonempty. rewrite Hg. done.
  - vm_compute. reflexivity.
  - vm_compute. reflexivity.
  - vm_compute. reflexivity.
Qed.

Lemma legacy_merge_metadata rs merged :
  Legacy.mergeMultiTenant rs = Ok merged → ∃ M, metadata merged = VObj M.
Proof.
  destruct rs as [|r0 rs].
  - intros [= <-]. by eexists.
  - unfold Legacy.mergeMultiTenant. rewrite fmap_cons. cbn zeta.
    destruct (Legacy.mergedType _) as [d|]; [|discriminate].
    cbn [mbind result_bind].
    destruct (Part001.scannedSum _) as [sum|]; [|discriminate].
    cbn [mbind result_bind]. rewrite widenAnalysisTimeframe_cases. cbn zeta.
    destruct (forallb timeframeOk _); [|discriminate].
    destruct (isFinite _ && isFinite _).
    + destruct (TimeClip _); [|discriminate].
      destruct (TimeClip _); [|discriminate].
      intros [= <-]. by eexists.
    + intros [= <-]. by eexists.
Qed.

(** X29: the earlier exported function when every target is fetched and the
    earlier merger returns.  With [q] the merged [grail.query] when truthy
    and the configured query otherwise, and [c] the merged
    [grail.canonicalQuery] when truthy and [q] otherwise: when both are
    strings the function returns the merged response with [grail.query] and
    [grail.canonicalQuery] replaced by the rewritten [q] and [c], every
    other field kept; when one of them is not a string, the TypeError of
    the missing [replace] is caught and the function returns the empty
    response. *)
Theorem legacy_main_merged v net fetched merged :
  Legacy.urls v ≠ [] →
  length fetched = length (Legacy.urls v) →
  (∀ i t, Legacy.urls v !! i = Some t →
     ∃ j, Legacy.fetchFromDynatrace (net i) Legacy.credentialId (t_url t)
            Legacy.query = Fulfilled j
          ∧ fetched !! i = Some {| tenant := t_tenant t; json := j |}) →
  Legacy.mergeMultiTenant fetched = Ok merged →
  let grail := get (metadata merged) "grail" in
  let q := or_else (get grail "query") Legacy.query in
  let c := or_else (get grail "canonicalQuery") q in
  match q, c with
  | VStr qs, VStr cs =>
      ∃ r,
        Legacy.main v net = Fulfilled r
        ∧ records r = records merged ∧ types r = types merged
        ∧ metrics r = metrics merged
        ∧ (∀ k, k ≠ "grail" →
             ownProps (metadata r) !! k = ownProps (metadata merged) !! k)
        ∧ get (get (metadata r) "grail") "query"
          = VStr (Legacy.replace_by Legacy.queryClause qs)
        ∧ get (get (metadata r) "grail") "canonicalQuery"
          = VStr (Legacy.replace_by Legacy.canonicalClause cs)
        ∧ (∀ k, k ≠ "query" → k ≠ "canonicalQuery" →
             ownProps (get (metadata r) "grail") !! k = ownProps grail !! k)
  | _, _ => Legacy.main v net = Fulfilled emptyResponse
  end.
Proof.
  intros Hne Hlen Hall Hm. cbn zeta.
  destruct (legacy_merge_metadata _ _ Hm) as [M HM].
  assert (Legacy.main v net =
          match Legacy.mergeAndRewrite fetched with
          | Ok r => Fulfilled r
          | Throw _ => Fulfilled emptyResponse
          end) as ->.
  { unfold Legacy.main. destruct (Legacy.urls v) as [|t0 ts] eqn:E; [done|].
    assert (all (imap (λ i t, Legacy.fetchTarget (net i) t) (t0 :: ts))
            = Fulfilled fetched) as ->; [|reflexivity].
    apply all_Fulfilled. apply list_eq. intros i.
    rewrite list_lookup_imap, list_lookup_fmap.
    destruct ((t0 :: ts) !! i) as [t|] eqn:Ht.
    - destruct (Hall i t Ht) as (j & Hj & ->). cbn. unfold Legacy.fetchTarget.
      by rewrite Hj.
    - apply lookup_ge_None in Ht. rewrite <- Hlen in Ht.
      apply lookup_ge_None in Ht. by rewrite Ht. }
  unfold Legacy.mergeAndRewrite. rewrite Hm. cbn [mbind result_bind].
  set (grail := get (metadata merged) "grail").
  set (q := or_else (get grail "query") Legacy.query).
  set (c := or_else (get grail "canonicalQuery") q).
  destruct q as [| | | |qs| |]; try (by destruct c).
  destruct c as [| | | |cs| |]; try reflexivity.
  cbn [Legacy.replaceT mbind result_bind]. rewrite HM.
  cbn [setT mbind result_bind mret result_ret].
  eexists. split; [reflexivity|].
  cbn [records types metrics metadata]. split_and!; try reflexivity.
  - intros k Hk. cbn [ownProps]. by rewrite lookup_insert_ne.
  - rewrite (get_obj_lookup _ "grail" _ (lookup_insert_eq _ _ _)).
    apply get_obj_lookup, lookup_insert_eq.
  - rewrite (get_obj_lookup _ "grail" _ (lookup_insert_eq _ _ _)).
    apply get_obj_lookup. rewrite lookup_insert_ne by done.
    apply lookup_insert_eq.
  - intros k Hk1 Hk2.
    rewrite (get_obj_lookup _ "grail" _ (lookup_insert_eq _ _ _)).
    cbn [ownProps]. rewrite !lookup_insert_ne by done.
    apply (f_equal (λ o, o !! k)), ownProps_or_else.
Qed.

End LegacyFacts.

(** ** Further examples *)

Section MoreExamples.
#[local] Existing Instance testHost.

(** X5 at [qa], which brings no types: the descriptor is inferred. *)
Lemma merge_types_inferred_qa :
  ∃ out M,
    mergeMultiTenant [qa] = Ok out
    ∧ types out = [VObj {[ "indexRange" := arr [VNum 0; VNum 1];
                           "mappings" := VObj M ]}]
    ∧ M !! "tenant" = Some (typeEntry "string").
Proof.
  assert (∃ out, mergeMultiTenant [qa] = Ok out) as [out E]
    by (vm_compute; eexists; reflexivity).
  destruct (merge_types_inferred qa [] out) as (M & Ht & Hten & _);
    [vm_compute; reflexivity|exact E|].
  exists out, M. split_and!; assumption.
Defined.

(** X6 at [fetched]: the descriptor of [prod] is copied. *)
Lemma merge_types_cloned_fetched :
  ∃ out b c m d,
    mergeMultiTenant fetched = Ok out
    ∧ head (types (normalize (json prod))) = Some b
    ∧ deepClone b = Ok c
    ∧ types out = [d]
    ∧ setT c "mappings" m = Ok d.
Proof.
  destruct fetched_merged as (out & E & _).
  assert (∃ b, head (types (normalize (json prod))) = Some b
               ∧ ToBoolean b = true) as (b & Hb & Htrue)
    by (vm_compute; eexists; split; reflexivity).
  destruct (merge_types_cloned prod [qa] out b Hb Htrue E)
    as (c & m & d & Hc & Ht & Hset & _).
  exists out, b, c, m, d. split_and!; assumption.
Defined.

(** X7 at [fetched]: the metrics are those of [prod]. *)
Lemma merge_keeps_first_fetched :
  ∃ out,
    mergeMultiTenant fetched = Ok out
    ∧ metrics out = metrics (normalize (json prod)).
Proof.
  destruct fetched_merged as (out & E & _). exists out. split; [exact E|].
  destruct (merge_keeps_first prod [qa] out E) as (Hm & _). exact Hm.
Defined.

(** X9 at the payload of [prod]. *)
Lemma deepClone_json_prod :
  isJSON prodJson = true ∧ deepClone prodJson = Ok prodJson.
Proof.
  assert (isJSON prodJson = true) as Hj by (vm_compute; reflexivity).
  split; [exact Hj|]. exact (deepClone_json prodJson Hj).
Defined.

(** X11 at [fetched]: the descriptor of [prod] with the tenant entry. *)
Definition prodMappings : gmap string value :=
  list_to_map [("timeframe", typeEntry "timeframe");
               ("interval", typeEntry "duration");
               ("host.name", typeEntry "string")].
Definition prodDescriptor : gmap string value :=
  list_to_map [("indexRange", arr [VNum 0; VNum 0]);
               ("mappings", VObj prodMappings)].

Lemma merge_types_json_fetched :
  ∃ out,
    mergeMultiTenant fetched = Ok out
    ∧ types out =
        [VObj (<["mappings" :=
                   VObj (<["tenant" := typeEntry "string"]> prodMappings)]>
                 prodDescriptor)].
Proof.
  destruct fetched_merged as (out & E & _). exists out. split; [exact E|].
  rewrite (merge_types_json prod [qa] out prodDescriptor prodMappings).
  - reflexivity.
  - vm_compute. reflexivity.
  - vm_compute. reflexivity.
  - vm_compute. reflexivity.
  - exact E.
Defined.

(** X12 at the payload of [prod], which comes in an envelope. *)
Lemma normalize_envelope_prod :
  normalize prodJson = normalize (get prodJson "result").
Proof. apply normalize_envelope; vm_compute; reflexivity. Defined.

(** X14 at [fetched]. *)
Lemma merge_normal_form_fetched :
  ∃ out,
    mergeMultiTenant fetched = Ok out
    ∧ normalize (responseValue out) = out.
Proof.
  destruct fetched_merged as (out & E & _). exists out. split; [exact E|].
  destruct (merge_normal_form fetched out E) as [_ Hn]. exact Hn.
Defined.

(** A host that answers a payload, and one whose endpoint is down. *)
Definition answering (j : value) : Exchange :=
  {| credentials := Fulfilled (obj [("token", VStr "dt0s16.SAMPLE")]);
     response := Fulfilled {| ok := true; status := 200; statusText := "OK";
                              body := Fulfilled j |} |}.
Definition down : Exchange :=
  {| credentials := Fulfilled (obj [("token", VStr "dt0s16.SAMPLE")]);
     response := Fulfilled {| ok := false; status := 503;
                              statusText := "Service Unavailable";
                              body := Rejected (Reason VNull) |} |}.

Definition bothAnswer (i : nat) : Exchange :=
  match i with 0 => answering prodJson | _ => answering qaJson end.
Definition qaDown (i : nat) : Exchange :=
  match i with 0 => answering prodJson | _ => down end.

(** X20: [qa] is down, the payload of [prod] is dropped. *)
Lemma main_all_or_nothing_qa_down :
  main (Text "") qaDown = Fulfilled emptyResponse.
Proof.
  eapply (main_all_or_nothing (Text "") qaDown 1).
  - vm_compute. reflexivity.
  - vm_compute. reflexivity.
Defined.

(** X21: both tenants answer; the first record bears a selected name. *)
Lemma main_records_selected_both :
  ∃ r rec name,
    main (Text "") bothAnswer = Fulfilled r
    ∧ head (records r) = Some rec
    ∧ name ∈ selected (Text "")
    ∧ get rec "tenant" = VStr name.
Proof.
  assert (∃ r rec, main (Text "") bothAnswer = Fulfilled r
                   ∧ head (records r) = Some rec) as (r & rec & E & Hrec)
    by (vm_compute; do 2 eexists; split; reflexivity).
  destruct (main_records_selected (Text "") bothAnswer r rec E)
    as (name & Hsel & _ & Hten).
  - by apply head_Some_elem_of.
  - exists r, rec, name. split_and!; assumption.
Defined.

(** X22: both tenants answer; the result is the merger's on [fetched]. *)
Lemma main_merged_both :
  main (Text "") bothAnswer =
    match mergeMultiTenant fetched with
    | Ok result => Fulfilled result
    | Throw _ => Fulfilled emptyResponse
    end.
Proof.
  apply (main_merged (Text "") bothAnswer fetched).
  - intros E. vm_compute in E. discriminate E.
  - vm_compute. reflexivity.
  - intros i t Hi. destruct i as [|[|i]]; vm_compute in Hi.
    + injection Hi as <-. eexists. split; vm_compute; reflexivity.
    + injection Hi as <-. eexists. split; vm_compute; reflexivity.
    + discriminate Hi.
Defined.

(** X24 at [typedLong]: the earlier copy overwrites the tenant entry that
    the current one keeps. *)
Lemma legacy_types_tenant_typedLong :
  ∃ out d,
    Legacy.mergeMultiTenant [typedLong] = Ok out
    ∧ types out = [d]
    ∧ get (get d "mappings") "tenant" = typeEntry "string".
Proof.
  assert (∃ out, Legacy.mergeMultiTenant [typedLong] = Ok out) as [out E]
    by (vm_compute; eexists; reflexivity).
  destruct (legacy_types_tenant typedLong [] out E) as (d & Ht & Hten & _).
  exists out, d. split_and!; assumption.
Defined.

(** X29: both tenants of the earlier map answer; the query text of [prod]
    comes out with the tenant appended. *)
Definition fetchedLegacy : list TenantResponse :=
  [resp "prod" prodJson; resp "dev" qaJson].

Lemma legacy_main_merged_both :
  ∃ r,
    Legacy.main (Text "") bothAnswer = Fulfilled r
    ∧ get (get (metadata r) "grail") "query"
      = VStr "timeseries count(dt.host.cpu.user), from:-5m , by: { host.name, tenant } | limit 2".
Proof.
  assert (∃ merged qs cs,
            Legacy.mergeMultiTenant fetchedLegacy = Ok merged
            ∧ or_else (get (get (metadata merged) "grail") "query")
                Legacy.query = VStr qs
            ∧ or_else (get (get (metadata merged) "grail") "canonicalQuery")
                (VStr qs) = VStr cs
            ∧ Legacy.replace_by Legacy.queryClause qs
              = "timeseries count(dt.host.cpu.user), from:-5m , by: { host.name, tenant } | limit 2")
    as (merged & qs & cs & Hm & Hq & Hc & Hrw)
    by (do 3 eexists; split_and!; vm_compute; reflexivity).
  pose proof (legacy_main_merged (Text "") bothAnswer fetchedLegacy merged)
    as Hmain.
  cbv zeta in Hmain. rewrite Hq, Hc in Hmain.
  destruct Hmain as (r & Hr & _ & _ & _ & _ & Hquery & _).
  - intros E. vm_compute in E. discriminate E.
  - vm_compute. reflexivity.
  - intros i t Hi. destruct i as [|[|i]]; vm_compute in Hi.
    + injection Hi as <-. eexists. split; vm_compute; reflexivity.
    + injection Hi as <-. eexists. split; vm_compute; reflexivity.
    + discriminate Hi.
  - exact Hm.
  - exists r. split; [exact Hr|]. rewrite Hquery, Hrw. reflexivity.
Defined.

(** The two exceptions of the merger (X8): a descriptor whose mappings is
    a text, and a record whose bounds are beyond the range of dates. *)
Example merge_throws_type_error :
  mergeMultiTenant
    [resp "prod" (obj [("types", arr [obj [("mappings", VStr "none")]])])]
  = Throw TypeError.
Proof. vm_compute. reflexivity. Qed.

Example merge_throws_range_error :
  mergeMultiTenant
    [resp "prod" (obj [("records", arr [framed 1e16 1e16])])]
  = Throw RangeError.
Proof. vm_compute. reflexivity. Qed.

(** A counter that only the current copy converts (X17, X25): the current
    merger throws the TypeError of the conversion where [part_001] and the
    earlier copy return. *)
Definition oddCounter : list TenantResponse :=
  [resp "prod"
     (obj [("metadata",
            obj [("grail",
                  obj [("scannedRecords", obj [("toString", VNum 1)])])])])].

Example current_alone_throws :
  mergeMultiTenant oddCounter = Throw TypeError
  ∧ (∃ o1, Part001.mergeMultiTenant oddCounter = Ok o1)
  ∧ (∃ o', Legacy.mergeMultiTenant oddCounter = Ok o').
Proof. vm_compute. split_and!; [reflexivity|by eexists..]. Qed.

(** A payload whose envelope carries the metadata (X25): the earlier copy
    reads, and fails to convert, a counter that the current copy does not
    see. *)
Example legacy_alone_throws :
  let rs :=
    [resp "prod"
       (obj [("result", obj [("records", arr [])]);
             ("metadata",
              obj [("grail",
                    obj [("scannedDataPoints",
                          obj [("toString", VNum 1)])])])])] in
  Legacy.mergeMultiTenant rs = Throw TypeError
  ∧ ∃ o, mergeMultiTenant rs = Ok o.
Proof. vm_compute. split; [reflexivity|by eexists]. Qed.

(** The deep copy drops an undefined property and turns a number that is
    not finite into null. *)
Example deepClone_drops :
  deepClone (obj [("a", VUndefined); ("b", VNum infinity); ("c", arr [VUndefined])])
  = Ok (obj [("b", VNull); ("c", arr [VNull])]).
Proof. vm_compute. reflexivity. Qed.

(** A selected name that the map does not hold resolves to nothing; the
    name of a member of [Object.prototype] does resolve, and its records
    come out under that name. *)
Example main_unknown_tenant :
  main (Text "staging") bothAnswer
  = Rejected (Error "No tenant URLs resolved.").
Proof. vm_compute. reflexivity. Qed.

Example main_inherited_name :
  ∃ r rec,
    main (Text "toString") bothAnswer = Fulfilled r
    ∧ records r = [rec]
    ∧ get rec "tenant" = VStr "toString".
Proof. vm_compute. do 2 eexists. split_and!; reflexivity. Qed.

(** An empty selection selects nothing, a blank text everything. *)
Example main_empty_selection :
  main (Selection []) bothAnswer
  = Rejected (Error "No tenant URLs resolved.").
Proof. vm_compute. reflexivity. Qed.

Example targets_default :
  t_tenant <$> targets (Text "") = ["prod"; "qa"].
Proof. vm_compute. reflexivity. Qed.

(** One rewrite is enough. *)
Example addTenantToBy_twice :
  addTenantToBy (addTenantToBy (VStr "fetch logs | summarize count(), BY: { host , tenant,}"))
  = VStr "fetch logs | summarize count(), by:{host, tenant}".
Proof. vm_compute. reflexivity. Qed.

End MoreExamples.

